(** * High-volume streamer (stream_data_realtime.py): embedding and properties

    The streaming script is embedded as a state-and-exception program over a
    [World] that holds the fields of [HighVolumeStreamer] together with the
    environment the script talks to: the HTTP sink, the clocks, the random
    module and the signals delivered to the process.

    Conventions of the model:
    - Python [int] is [Z]; Python [float] is an exact rational [Q] (no
      rounding error); [str] is [string] over ASCII.
    - [datetime] values are microseconds since the epoch, UTC.
    - an exception is an outcome [Exc]; a loop that has not finished when
      its fuel is used up yields [Unfinished], which no handler catches. *)

From Stdlib Require Import ZArith QArith Qround Qminmax Lia Lqa List String Ascii Bool.
From Stdlib Require Import Sorted DecimalString.
Import ListNotations.

Local Open Scope string_scope.
Local Open Scope Z_scope.

(** ** Python built-ins used by the script *)

Module Py.

(** [str.isspace] on ASCII: TAB..CR, FS..US and the blank. *)
Definition is_space (c : ascii) : bool :=
  let n := N_of_ascii c in
  ((9 <=? n) && (n <=? 13) || (28 <=? n) && (n <=? 32))%N.

Fixpoint lstrip (s : string) : string :=
  match s with
  | String c r => if is_space c then lstrip r else s
  | EmptyString => EmptyString
  end.

Fixpoint rev_append (s acc : string) : string :=
  match s with
  | EmptyString => acc
  | String c r => rev_append r (String c acc)
  end.

Definition rev (s : string) : string := rev_append s EmptyString.

Definition rstrip (s : string) : string := rev (lstrip (rev s)).

(** [str.strip()] *)
Definition strip (s : string) : string := rstrip (lstrip s).

(** [str(n)] for an int. *)
Definition str (z : Z) : string := NilZero.string_of_int (Z.to_int z).

(** Truthiness of a [str]: only the empty string is falsy. *)
Definition truthy (s : string) : bool :=
  match s with EmptyString => false | _ => true end.

Definition is_digit (c : ascii) : bool :=
  let n := N_of_ascii c in ((48 <=? n) && (n <=? 57))%N.

Definition digit_val (c : ascii) : Z := Z.of_N (N_of_ascii c) - 48.

(** Decimal digits with single underscores between digits, as [int(str)]
    accepts them; [after_digit] tells whether the previous character was a
    digit (an underscore or the end is allowed only then). *)
Fixpoint digits (s : string) (acc : Z) (after_digit : bool) : option Z :=
  match s with
  | EmptyString => if after_digit then Some acc else None
  | String c r =>
      if is_digit c then digits r (10 * acc + digit_val c) true
      else if (Ascii.eqb c "_" && after_digit)%bool then digits r acc false
      else None
  end.

(** [int(s)] for a [str] in base 10: surrounding whitespace is dropped, one
    sign is allowed; [None] stands for [ValueError]. *)
Definition int (s : string) : option Z :=
  match strip s with
  | String "-" r => option_map Z.opp (digits r 0 false)
  | String "+" r => digits r 0 false
  | r => digits r 0 false
  end.

(** [round(x, 2)] rounds to the nearest hundredth, ties to even. *)
Definition round2 (x : Q) : Q :=
  let y := (x * 100)%Q in
  let f := Qfloor y in
  let d := (y - inject_Z f)%Q in
  let n := match (d ?= 1 # 2)%Q with
           | Lt => f
           | Gt => f + 1
           | Eq => if Z.even f then f else f + 1
           end in
  Qmake n 100.

(** [a < b] on floats. *)
Definition lt (a b : Q) : bool :=
  match (a ?= b)%Q with Lt => true | _ => false end.

(** [max(0, x)]: the first argument is kept unless the second is larger. *)
Definition max0 (x : Q) : Q := if lt 0 x then x else 0%Q.

Definition pad2 (z : Z) : string :=
  if z <? 10 then "0" ++ str z else str z.

Definition pad4 (z : Z) : string :=
  if z <? 10 then "000" ++ str z
  else if z <? 100 then "00" ++ str z
  else if z <? 1000 then "0" ++ str z
  else str z.

(** [repr] of a float that carries at most two decimals, as an f-string
    prints it: [20.0], [20.5], [123.45]. *)
Definition repr_float2 (q : Q) : string :=
  let c := Qfloor (q * 100)%Q in
  let ip := c / 100 in
  let fr := c mod 100 in
  if fr mod 10 =? 0 then str ip ++ "." ++ str (fr / 10)
  else str ip ++ "." ++ pad2 fr.

(** A number that is either the int literal [0] or a float rounded to two
    decimals (the floats met here are never zero). *)
Definition repr_num (q : Q) : string :=
  if Qeq_bool q 0 then "0" else repr_float2 q.

(** [", ".join(parts)] *)
Fixpoint join (sep : string) (parts : list string) : string :=
  match parts with
  | [] => ""
  | [p] => p
  | p :: rest => p ++ sep ++ join sep rest
  end.

End Py.

(** ** datetime *)

Module Datetime.

(** A point in time, UTC, as microseconds since 1970-01-01 00:00:00. *)
Definition datetime := Z.

(** [timedelta(milliseconds=ms)] in microseconds. *)
Definition timedelta_ms (ms : Z) : Z := ms * 1000.

(** Proleptic Gregorian date of a day number counted from the epoch. *)
Definition civil_from_days (days : Z) : Z * Z * Z :=
  let z := days + 719468 in
  let era := z / 146097 in
  let doe := z mod 146097 in
  let yoe := (doe - doe / 1460 + doe / 36524 - doe / 146096) / 365 in
  let doy := doe - (365 * yoe + yoe / 4 - yoe / 100) in
  let mp := (5 * doy + 2) / 153 in
  let d := doy - (153 * mp + 2) / 5 + 1 in
  let m := if mp <? 10 then mp + 3 else mp - 9 in
  let y := yoe + era * 400 in
  (if m <=? 2 then y + 1 else y, m, d).

(** Whole seconds since the epoch (the sub-second part is dropped by every
    format the script uses). *)
Definition epoch_seconds (t : datetime) : Z := t / 1000000.

(** [t.strftime('%Y-%m-%d')], also [t.date().strftime('%Y-%m-%d')]. *)
Definition strftime_date (t : datetime) : string :=
  let '(y, m, d) := civil_from_days (epoch_seconds t / 86400) in
  Py.pad4 y ++ "-" ++ Py.pad2 m ++ "-" ++ Py.pad2 d.

(** [t.strftime('%Y-%m-%d %H:%M:%S')] *)
Definition strftime (t : datetime) : string :=
  let s := epoch_seconds t mod 86400 in
  strftime_date t ++ " " ++ Py.pad2 (s / 3600) ++ ":" ++
  Py.pad2 (s mod 3600 / 60) ++ ":" ++ Py.pad2 (s mod 60).

(** [int(t.timestamp() / 300)]: [int] truncates toward zero. *)
Definition five_minute_bucket (t : datetime) : Z := Z.quot t 300000000.

End Datetime.

(** ** The world: the streamer object and its environment *)

(** Exceptions the script can meet. [RequestException] covers connection
    errors and timeouts of [requests.post]; [HTTPError] is what
    [raise_for_status] raises. [SystemExit] is not an [Exception]. *)
Inductive exn : Type :=
| ValueError (msg : string)
| IndexError (msg : string)
| RequestException (msg : string)
| HTTPError (status : Z)
| SystemExit (code : Z).

Definition is_Exception (e : exn) : bool :=
  match e with SystemExit _ => false | _ => true end.

(** What one HTTP POST to the sink comes back with. *)
Inductive http_outcome : Type :=
| Response (status_code : Z) (text : string)
| Failure (msg : string).

Record response : Type := { status_code : Z; text : string }.

(** Console messages, one constructor per [print] of the script (the layout
    of the text is not modelled, the values shown are). *)
Inductive message : Type :=
| Banner
| SignalReceived (signum : Z)
| QueryFailed (e : exn)
| NoUsersOrProducts
| FoundUsersProducts (user_count product_count : Z)
| StartingStream
| BatchInserted (timestamp : Z) (batch_counter : nat)
| BatchWarning (timestamp : Z) (batch_counter : nat) (events_success orders_success : bool)
| ThroughputStats (elapsed : Q) (total_events total_orders : Z)
                  (events_per_sec orders_per_sec : Q)
| DatabaseTotals (total_events total_orders : Z)
| StreamingStopped
| UnexpectedError (e : exn)
| UnableToConnect
| ConnectionTestFailed (e : exn)
| Connected.

(** Effects visible outside the process, most recent first in a trace. *)
Inductive effect : Type :=
| Printed (m : message)
| Posted (query : string)
| Slept (seconds : Q).

(** The fields of a [HighVolumeStreamer] that change or are read at run time
    ([base_url], [auth] and [params] are constants of the connection). *)
Record Streamer : Type := {
  running : bool;
  session_counter : Z;
  total_events_inserted : Z;
  total_orders_inserted : Z;
  start_time : Q
}.

(** The environment: the sink answers the [n]-th POST, the clock gives the
    [n]-th reading in microseconds, the random module its [n]-th raw draw,
    and [signals n] is the signal number, if any, that arrives during stage
    [n] of [run] (stage 0 is the start-up, stage [k+1] is loop iteration
    [k]). Both SIGINT and SIGTERM are bound to [signal_handler], so no
    [KeyboardInterrupt] is ever raised. *)
Record Env : Type := {
  sink : nat -> string -> http_outcome;
  clock : nat -> Z;
  entropy : nat -> N;
  signals : nat -> option Z
}.

Record World : Type := {
  self : Streamer;
  env : Env;
  posts : nat;
  ticks : nat;
  draws : nat;
  trace : list effect
}.

Definition with_self (s : Streamer) (w : World) : World :=
  {| self := s; env := env w; posts := posts w; ticks := ticks w;
     draws := draws w; trace := trace w |}.

Definition with_effect (e : effect) (w : World) : World :=
  {| self := self w; env := env w; posts := posts w; ticks := ticks w;
     draws := draws w; trace := e :: trace w |}.

Definition next_post (w : World) : World :=
  {| self := self w; env := env w; posts := S (posts w); ticks := ticks w;
     draws := draws w; trace := trace w |}.

Definition next_tick (w : World) : World :=
  {| self := self w; env := env w; posts := posts w; ticks := S (ticks w);
     draws := draws w; trace := trace w |}.

Definition next_draw (w : World) : World :=
  {| self := self w; env := env w; posts := posts w; ticks := ticks w;
     draws := S (draws w); trace := trace w |}.

Definition set_running (b : bool) (s : Streamer) : Streamer :=
  {| running := b; session_counter := session_counter s;
     total_events_inserted := total_events_inserted s;
     total_orders_inserted := total_orders_inserted s;
     start_time := start_time s |}.

Definition add_events_inserted (n : Z) (s : Streamer) : Streamer :=
  {| running := running s; session_counter := session_counter s;
     total_events_inserted := total_events_inserted s + n;
     total_orders_inserted := total_orders_inserted s;
     start_time := start_time s |}.

Definition add_orders_inserted (n : Z) (s : Streamer) : Streamer :=
  {| running := running s; session_counter := session_counter s;
     total_events_inserted := total_events_inserted s;
     total_orders_inserted := total_orders_inserted s + n;
     start_time := start_time s |}.

(** ** The state-and-exception monad *)

Inductive outcome (A : Type) : Type :=
| Val (a : A)
| Exc (e : exn)
| Unfinished.

Arguments Val {A} a.
Arguments Exc {A} e.
Arguments Unfinished {A}.

Definition M (A : Type) : Type := World -> outcome A * World.

Definition ret {A} (a : A) : M A := fun w => (Val a, w).

Definition bind {A B} (m : M A) (f : A -> M B) : M B :=
  fun w =>
    match m w with
    | (Val a, w') => f a w'
    | (Exc e, w') => (Exc e, w')
    | (Unfinished, w') => (Unfinished, w')
    end.

Definition raise {A} (e : exn) : M A := fun w => (Exc e, w).

Declare Scope py_scope.
Delimit Scope py_scope with py.
Notation "x <- m ;; k" := (bind m (fun x => k))
  (at level 61, m at next level, right associativity) : py_scope.
Notation "m ;; k" := (bind m (fun _ => k))
  (at level 61, right associativity) : py_scope.
Local Open Scope py_scope.

(** [try: body except Exception as e: handler e] *)
Definition try_except {A} (body : M A) (handler : exn -> M A) : M A :=
  fun w =>
    match body w with
    | (Exc e, w') => if is_Exception e then handler e w' else (Exc e, w')
    | r => r
    end.

(** [try: body except: handler] (a bare except catches everything raised). *)
Definition try_except_all {A} (body : M A) (handler : M A) : M A :=
  fun w =>
    match body w with
    | (Exc e, w') => handler w'
    | r => r
    end.

(** [try: body finally: final]: [final] runs after the body has returned or
    raised; an exception of the body is raised again after it. *)
Definition try_finally {A} (body : M A) (final : M unit) : M A :=
  fun w =>
    match body w with
    | (Val a, w') => (final ;; ret a) w'
    | (Exc e, w') => (final ;; raise e) w'
    | (Unfinished, w') => (Unfinished, w')
    end.

(** [for x in xs: ys.append(body x)] *)
Fixpoint for_append {A B} (xs : list A) (body : A -> M B) : M (list B) :=
  match xs with
  | [] => ret []
  | x :: rest => y <- body x ;; ys <- for_append rest body ;; ret (y :: ys)
  end.

(** [range(n)] *)
Definition range (n : nat) : list Z := map Z.of_nat (seq 0 n).

Definition get_self : M Streamer := fun w => (Val (self w), w).

Definition put_self (s : Streamer) : M unit := fun w => (Val tt, with_self s w).

Definition print (m : message) : M unit :=
  fun w => (Val tt, with_effect (Printed m) w).

(** [time.time()] in seconds. *)
Definition time_time : M Q :=
  fun w => (Val (clock (env w) (ticks w) # 1000000)%Q, next_tick w).


(** [datetime.now(timezone.utc)], also [datetime.now()] (the local offset
    only changes how the value is printed). *)
Definition datetime_now : M Datetime.datetime :=
  fun w => (Val (clock (env w) (ticks w)), next_tick w).

(** [time.sleep(seconds)] *)
Definition time_sleep (seconds : Q) : M unit :=
  fun w => (Val tt, with_effect (Slept seconds) w).

(** [requests.post(base_url, params, data=query, auth, timeout=10)] *)
Definition requests_post (query : string) : M response :=
  fun w =>
    let w' := with_effect (Posted query) (next_post w) in
    match sink (env w) (posts w) query with
    | Response s t => (Val {| status_code := s; text := t |}, w')
    | Failure msg => (Exc (RequestException msg), w')
    end.

(** [response.raise_for_status()] *)
Definition raise_for_status (r : response) : M unit :=
  if (400 <=? status_code r) && (status_code r <? 600)
  then raise (HTTPError (status_code r)) else ret tt.

(** ** The random module

    One raw draw of the generator is a natural number taken from the
    environment; [_randbelow(n)] is that draw reduced into [0, n) and
    [random()] is 53 bits of it scaled into [0, 1). *)

Module Random.

Definition raw : M N :=
  fun w => (Val (entropy (env w) (draws w)), next_draw w).

Definition randbelow (n : Z) : M Z :=
  r <- raw ;; ret (Z.of_N r mod n).

Definition two53 : positive := 9007199254740992.

Definition random : M Q :=
  r <- raw ;; ret (Z.of_N r mod Z.pos two53 # two53)%Q.

(** [randint(a, b)] is [randrange(a, b + 1)]. *)
Definition randint (a b : Z) : M Z :=
  let width := b + 1 - a in
  if 0 <? width then k <- randbelow width ;; ret (a + k)
  else raise (ValueError "empty range for randrange()").

Definition uniform (a b : Q) : M Q :=
  u <- random ;; ret (a + (b - a) * u)%Q.

Definition choice {A} (seq : list A) : M A :=
  match seq with
  | [] => raise (IndexError "Cannot choose from an empty sequence")
  | _ =>
      i <- randbelow (Z.of_nat (List.length seq)) ;;
      match nth_error seq (Z.to_nat i) with
      | Some x => ret x
      | None => raise (IndexError "list index out of range")
      end
  end.

(** [itertools.accumulate] *)
Fixpoint accumulate_from (acc : Q) (ws : list Q) : list Q :=
  match ws with
  | [] => []
  | x :: rest => (acc + x)%Q :: accumulate_from (acc + x)%Q rest
  end.

Definition accumulate (ws : list Q) : list Q :=
  match ws with
  | [] => []
  | x :: rest => x :: accumulate_from x rest
  end.

(** [bisect.bisect_right(a, x, lo, hi)]; the interval halves at each turn, so
    [hi - lo] turns are enough. *)
Fixpoint bisect_loop (turns : nat) (a : list Q) (x : Q) (lo hi : nat) : nat :=
  match turns with
  | O => lo
  | S turns' =>
      if (lo <? hi)%nat then
        let mid := ((lo + hi) / 2)%nat in
        match (x ?= nth mid a 0%Q)%Q with
        | Lt => bisect_loop turns' a x lo mid
        | _ => bisect_loop turns' a x (S mid) hi
        end
      else lo
  end.

Definition bisect (a : list Q) (x : Q) (lo hi : nat) : nat :=
  bisect_loop (hi - lo) a x lo hi.

(** [random.choices(population, weights=weights)[0]] *)
Definition choices {A} (population : list A) (weights : list Q) : M A :=
  let cum_weights := accumulate weights in
  let n := List.length population in
  if negb (List.length cum_weights =? n)%nat then
    raise (ValueError "The number of weights does not match the population")
  else
    match List.rev cum_weights with
    | [] => raise (IndexError "list index out of range")
    | total :: _ =>
        match (total ?= 0)%Q with
        | Gt =>
            u <- random ;;
            match nth_error population
                    (bisect cum_weights (u * total)%Q 0 (n - 1)) with
            | Some x => ret x
            | None => raise (IndexError "list index out of range")
            end
        | _ => raise (ValueError "Total of weights must be greater than zero")
        end
    end.

End Random.

(** ** Records produced by the generators *)

Module Event.
Record t : Type := {
  event_id : Z;
  user_id : Z;
  event_type : string;
  event_timestamp : string;
  page_url : string;
  session_id : string;
  device_type : string;
  browser : string;
  country : string;
  duration_seconds : Z;
  revenue : Q
}.
End Event.

Module Order.
Record t : Type := {
  order_id : Z;
  user_id : Z;
  product_id : Z;
  quantity : Z;
  order_date : string;
  order_timestamp : string;
  total_amount : Q;
  status : string;
  payment_method : string
}.
End Order.

(** ** Configuration *)

Definition STREAM_INTERVAL : Q := 1.
Definition BATCH_SIZE_EVENTS : Z := 100.
Definition BATCH_SIZE_ORDERS : Z := 20.
Definition MAX_WORKERS : Z := 4.

(** ** HighVolumeStreamer *)

Definition init : M unit :=
  t <- time_time ;;
  put_self {| running := true; session_counter := 10000;
              total_events_inserted := 0; total_orders_inserted := 0;
              start_time := t |} ;;
  print Banner.

Definition signal_handler (signum : Z) : M unit :=
  print (SignalReceived signum) ;;
  s <- get_self ;;
  put_self (set_running false s).

(** Signals that arrive during stage [n] run their handler in the main
    thread. Nothing but the loop test reads [running], so the handler is
    placed at the end of the stage it interrupts. *)
Definition deliver_signals (stage : nat) : M unit :=
  fun w =>
    match signals (env w) stage with
    | Some signum => signal_handler signum w
    | None => (Val tt, w)
    end.

Definition execute_query (query : string) : M string :=
  try_except
    (response <- requests_post query ;;
     raise_for_status response ;;
     ret (Py.strip (text response)))
    (fun e => print (QueryFailed e) ;; ret "").

(** [int(s)] on a [str], raising [ValueError] when it does not parse. *)
Definition int_of_str (s : string) : M Z :=
  match Py.int s with
  | Some n => ret n
  | None => raise (ValueError "invalid literal for int() with base 10")
  end.

Definition get_table_count (table : string) : M Z :=
  try_except_all
    (result <- execute_query ("SELECT count() FROM " ++ table) ;;
     if Py.truthy result then int_of_str result else ret 0)
    (ret 0).

Definition get_user_count : M Z := get_table_count "users".

Definition get_product_count : M Z := get_table_count "products".

Definition event_weights : list (string * Q) :=
  [ ("page_view", 40 # 100); ("click", 20 # 100); ("search", 15 # 100);
    ("add_to_cart", 8 # 100); ("purchase", 10 # 100);
    ("remove_from_cart", 2 # 100); ("login", 2 # 100); ("logout", 1 # 100);
    ("signup", 1 # 100); ("share", 1 # 100) ]%Q.

Definition device_types : list string := ["desktop"; "mobile"; "tablet"].

Definition browsers : list string :=
  ["Chrome"; "Firefox"; "Safari"; "Edge"; "Opera"].

Definition countries : list string :=
  ["US"; "UK"; "DE"; "FR"; "CA"; "AU"; "JP"; "BR"; "IN"; "RU"].

Definition pages : list string :=
  ["/home"; "/products"; "/cart"; "/checkout"; "/profile"; "/search";
   "/category/electronics"; "/category/books"; "/deals"; "/about"].

(** The revenue of an event (the [if]/[elif] on [event_type]); in the
    conditional expression the coin [random.random() < 0.5] is drawn before
    the amount. *)
Definition event_revenue (event_type : string) : M Q :=
  if (event_type =? "purchase")%string then
    u <- Random.uniform 20 500 ;; ret (Py.round2 u)
  else if (event_type =? "add_to_cart")%string then
    coin <- Random.random ;;
    if Py.lt coin (1 # 2) then u <- Random.uniform 10 200 ;; ret (Py.round2 u)
    else ret 0%Q
  else ret 0%Q.

(** One turn of the loop of [generate_events_batch]. *)
Definition events_batch_body (batch_num user_count max_event_id : Z)
    (now : Datetime.datetime) (i : Z) : M Event.t :=
  let event_id := max_event_id + batch_num * BATCH_SIZE_EVENTS + i + 1 in
  user_id <- Random.randint 1 user_count ;;
  event_type <- Random.choices (map fst event_weights) (map snd event_weights) ;;
  jitter <- Random.randint 0 1000 ;;
  let event_timestamp := now - Datetime.timedelta_ms jitter in
  let session_id :=
    "sess-" ++ Py.str user_id ++ "-" ++ Py.str (Datetime.five_minute_bucket now) in
  revenue <- event_revenue event_type ;;
  page_url <- (if (event_type =? "page_view")%string then Random.choice pages
               else ret ("/action/" ++ event_type)) ;;
  device_type <- Random.choice device_types ;;
  browser <- Random.choice browsers ;;
  country <- Random.choice countries ;;
  duration_seconds <- Random.randint 1 300 ;;
  ret {| Event.event_id := event_id;
         Event.user_id := user_id;
         Event.event_type := event_type;
         Event.event_timestamp := Datetime.strftime event_timestamp;
         Event.page_url := page_url;
         Event.session_id := session_id;
         Event.device_type := device_type;
         Event.browser := browser;
         Event.country := country;
         Event.duration_seconds := duration_seconds;
         Event.revenue := revenue |}.

Definition generate_events_batch (batch_num user_count max_event_id : Z)
    : M (list Event.t) :=
  now <- datetime_now ;;
  for_append (range (Z.to_nat BATCH_SIZE_EVENTS))
    (events_batch_body batch_num user_count max_event_id now).

Definition statuses : list string :=
  ["completed"; "pending"; "cancelled"; "refunded"].

Definition payment_methods : list string :=
  ["credit_card"; "paypal"; "bank_transfer"; "apple_pay"; "google_pay"].

Definition status_weights : list Q := [75 # 100; 15 # 100; 7 # 100; 3 # 100]%Q.

Definition quantity_weights : list Q :=
  [50 # 100; 25 # 100; 15 # 100; 7 # 100; 3 # 100]%Q.

(** One turn of the loop of [generate_orders_batch]. *)
Definition orders_batch_body (batch_num user_count product_count max_order_id : Z)
    (now : Datetime.datetime) (i : Z) : M Order.t :=
  let order_id := max_order_id + batch_num * BATCH_SIZE_ORDERS + i + 1 in
  user_id <- Random.randint 1 user_count ;;
  product_id <- Random.randint 1 product_count ;;
  quantity <- Random.choices [1; 2; 3; 4; 5] quantity_weights ;;
  jitter <- Random.randint 0 1000 ;;
  let order_timestamp := now - Datetime.timedelta_ms jitter in
  status <- Random.choices statuses status_weights ;;
  coin <- Random.random ;;
  total_amount <- (if Py.lt coin (9 # 10)
                   then u <- Random.uniform 50 200 ;; ret (Py.round2 u)
                   else u <- Random.uniform 200 1000 ;; ret (Py.round2 u)) ;;
  payment_method <- Random.choice payment_methods ;;
  ret {| Order.order_id := order_id;
         Order.user_id := user_id;
         Order.product_id := product_id;
         Order.quantity := quantity;
         Order.order_date := Datetime.strftime_date order_timestamp;
         Order.order_timestamp := Datetime.strftime order_timestamp;
         Order.total_amount := total_amount;
         Order.status := status;
         Order.payment_method := payment_method |}.

Definition generate_orders_batch
    (batch_num user_count product_count max_order_id : Z) : M (list Order.t) :=
  now <- datetime_now ;;
  for_append (range (Z.to_nat BATCH_SIZE_ORDERS))
    (orders_batch_body batch_num user_count product_count max_order_id now).

(** The literal tuple of one event in the INSERT statement. *)
Definition event_values (event : Event.t) : string :=
  "(" ++ Py.str (Event.event_id event) ++ ", " ++ Py.str (Event.user_id event) ++
  ", '" ++ Event.event_type event ++ "', '" ++ Event.event_timestamp event ++
  "', '" ++ Event.page_url event ++ "', '" ++ Event.session_id event ++
  "', '" ++ Event.device_type event ++ "', '" ++ Event.browser event ++
  "', '" ++ Event.country event ++ "', " ++
  Py.str (Event.duration_seconds event) ++ ", " ++
  Py.repr_num (Event.revenue event) ++ ")".

Definition insert_events (events : list Event.t) : M bool :=
  match events with
  | [] => ret true
  | _ =>
      let sql := "INSERT INTO events (event_id, user_id, event_type, event_timestamp, page_url, session_id, device_type, browser, country, duration_seconds, revenue) VALUES " in
      let values := map event_values events in
      let query := sql ++ Py.join ", " values in
      result <- execute_query query ;;
      let success := (result =? "")%string in
      (if success then
         s <- get_self ;;
         put_self (add_events_inserted (Z.of_nat (List.length events)) s)
       else ret tt) ;;
      ret success
  end.

(** The literal tuple of one order in the INSERT statement. *)
Definition order_values (order : Order.t) : string :=
  "(" ++ Py.str (Order.order_id order) ++ ", " ++ Py.str (Order.user_id order) ++
  ", " ++ Py.str (Order.product_id order) ++ ", " ++
  Py.str (Order.quantity order) ++ ", '" ++ Order.order_date order ++
  "', '" ++ Order.order_timestamp order ++ "', " ++
  Py.repr_float2 (Order.total_amount order) ++ ", '" ++ Order.status order ++
  "', '" ++ Order.payment_method order ++ "')".

Definition insert_orders (orders : list Order.t) : M bool :=
  match orders with
  | [] => ret true
  | _ =>
      let sql := "INSERT INTO orders (order_id, user_id, product_id, quantity, order_date, order_timestamp, total_amount, status, payment_method) VALUES " in
      let values := map order_values orders in
      let query := sql ++ Py.join ", " values in
      result <- execute_query query ;;
      let success := (result =? "")%string in
      (if success then
         s <- get_self ;;
         put_self (add_orders_inserted (Z.of_nat (List.length orders)) s)
       else ret tt) ;;
      ret success
  end.

(** [show_throughput_stats]. The two rates are written as exact quotients
    where Python rounds them to doubles: what is relied on below is the
    guard only, that both are [0], and nothing is divided, when the time
    elapsed is not positive. *)
Definition show_throughput_stats : M unit :=
  now <- time_time ;;
  s <- get_self ;;
  let elapsed := (now - start_time s)%Q in
  let events_per_sec :=
    if Py.lt 0 elapsed then (inject_Z (total_events_inserted s) / elapsed)%Q else 0%Q in
  let orders_per_sec :=
    if Py.lt 0 elapsed then (inject_Z (total_orders_inserted s) / elapsed)%Q else 0%Q in
  print (ThroughputStats elapsed (total_events_inserted s) (total_orders_inserted s)
           events_per_sec orders_per_sec) ;;
  total_events <- get_table_count "events" ;;
  total_orders <- get_table_count "orders" ;;
  print (DatabaseTotals total_events total_orders).

(** [int(result or 0)]: an empty answer is replaced by the int [0] before
    the conversion; any other answer is parsed. *)
Definition int_or_0 (result : string) : M Z :=
  if Py.truthy result then int_of_str result else ret 0.

Definition stats_interval : Q := 10.

(** [# Get current max IDs] *)
Definition current_max_ids : M (Z * Z) :=
  r_events <- execute_query "SELECT max(event_id) FROM events" ;;
  max_event_id <- int_or_0 r_events ;;
  r_orders <- execute_query "SELECT max(order_id) FROM orders" ;;
  max_order_id <- int_or_0 r_orders ;;
  ret (max_event_id, max_order_id).

(** [# Generate data] *)
Definition generate_data (batch_counter : nat) (user_count product_count : Z)
    (max_event_id max_order_id : Z) : M (list Event.t * list Order.t) :=
  events <- generate_events_batch (Z.of_nat batch_counter) user_count max_event_id ;;
  orders <- generate_orders_batch (Z.of_nat batch_counter) user_count product_count
              max_order_id ;;
  ret (events, orders).

(** [# Insert in parallel] and [# Wait for both inserts]: the two inserts are
    handed to the executor and both results are awaited before anything else
    happens. Each insert touches its own counter only and neither can raise,
    so they are run here one after the other. *)
Definition insert_in_parallel (events : list Event.t) (orders : list Order.t)
    : M (bool * bool) :=
  events_success <- insert_events events ;;
  orders_success <- insert_orders orders ;;
  ret (events_success, orders_success).

(** [# Quick status] *)
Definition quick_status (batch_counter : nat) (events_success orders_success : bool)
    : M unit :=
  timestamp <- datetime_now ;;
  print (if events_success && orders_success
         then BatchInserted timestamp batch_counter
         else BatchWarning timestamp batch_counter events_success orders_success).

(** [# Show detailed stats periodically]; returns the new
    [last_stats_time]. *)
Definition periodic_stats (last_stats_time : Q) : M Q :=
  t <- time_time ;;
  if Py.lt stats_interval (t - last_stats_time)
  then show_throughput_stats ;; time_time
  else ret last_stats_time.

(** [# Maintain 1-second interval] *)
Definition maintain_interval (cycle_start : Q) : M unit :=
  t_end <- time_time ;;
  let elapsed := (t_end - cycle_start)%Q in
  let sleep_time := Py.max0 (STREAM_INTERVAL - elapsed) in
  if Py.lt 0 sleep_time then time_sleep sleep_time else ret tt.

(** One turn of the [while self.running] loop, in the order of the source;
    [batch_counter += 1] is done by the caller. The value returned is the
    new [last_stats_time]. *)
Definition cycle (batch_counter : nat) (user_count product_count : Z)
    (last_stats_time : Q) : M Q :=
  cycle_start <- time_time ;;
  ids <- current_max_ids ;;
  data <- generate_data batch_counter user_count product_count (fst ids) (snd ids) ;;
  success <- insert_in_parallel (fst data) (snd data) ;;
  quick_status batch_counter (fst success) (snd success) ;;
  last_stats_time' <- periodic_stats last_stats_time ;;
  maintain_interval cycle_start ;;
  ret last_stats_time'.

(** [while self.running: ...]; [fuel] bounds the number of turns taken. *)
Fixpoint streaming_loop (fuel : nat) (batch_counter : nat)
    (user_count product_count : Z) (last_stats_time : Q) : M unit :=
  s <- get_self ;;
  if running s then
    match fuel with
    | O => fun w => (Unfinished, w)
    | S fuel' =>
        last_stats_time' <- cycle batch_counter user_count product_count
                              last_stats_time ;;
        deliver_signals (S batch_counter) ;;
        streaming_loop fuel' (S batch_counter) user_count product_count
          last_stats_time'
    end
  else ret tt.

(** The [try] block of [run]: start-up, then the loop. *)
Definition run_try (fuel : nat) : M unit :=
  user_count <- get_user_count ;;
  product_count <- get_product_count ;;
  if (user_count =? 0) || (product_count =? 0) then
    print NoUsersOrProducts
  else
    print (FoundUsersProducts user_count product_count) ;;
    print StartingStream ;;
    last_stats_time <- time_time ;;
    deliver_signals 0 ;;
    streaming_loop fuel 0 user_count product_count last_stats_time.

(** The [finally] block of [run]. *)
Definition run_finally : M unit :=
  print StreamingStopped ;; show_throughput_stats.

Definition run (fuel : nat) : M unit :=
  try_finally
    (try_except (run_try fuel) (fun e => print (UnexpectedError e)))
    run_finally.

Definition main (fuel : nat) : M unit :=
  init ;;
  try_except
    (result <- execute_query "SELECT 1" ;;
     if negb (result =? "1")%string
     then print UnableToConnect ;; raise (SystemExit 1)
     else ret tt)
    (fun e => print (ConnectionTestFailed e) ;; raise (SystemExit 1)) ;;
  print Connected ;;
  run fuel.

(** ** Observations on a trace *)

(** A POST that did not succeed: the transport failed, or the status is one
    that [raise_for_status] raises on. *)
Definition request_failed (o : http_outcome) : bool :=
  match o with
  | Failure _ => true
  | Response status _ => (400 <=? status) && (status <? 600)
  end.

Definition is_posted_prefix (p : string) (e : effect) : bool :=
  match e with Posted q => String.prefix p q | _ => false end.

(** Number of statements posted to the sink that start with [p]. *)
Definition count_posted (p : string) (tr : list effect) : nat :=
  List.length (filter (is_posted_prefix p) tr).

(** A turn of the loop begins by asking the sink for [max(event_id)]. *)
Definition cycles_begun (w : World) : nat :=
  count_posted "SELECT max(event_id)" (trace w).

Definition event_inserts (w : World) : nat :=
  count_posted "INSERT INTO events" (trace w).

Definition order_inserts (w : World) : nat :=
  count_posted "INSERT INTO orders" (trace w).

Definition is_stopped (e : effect) : bool :=
  match e with Printed StreamingStopped => true | _ => false end.

Definition stopped_count (tr : list effect) : nat :=
  List.length (filter is_stopped tr).

Definition is_sleep (e : effect) : bool :=
  match e with Slept _ => true | _ => false end.

(** The calls of [time.sleep] in a trace, most recent first. *)
Definition sleeps (tr : list effect) : list effect := filter is_sleep tr.

(** Seconds slept in a trace. *)
Fixpoint seconds_slept (tr : list effect) : Q :=
  match tr with
  | [] => 0%Q
  | Slept d :: rest => (d + seconds_slept rest)%Q
  | _ :: rest => seconds_slept rest
  end.

(** A reading of the clock as [time.time()] returns it. *)
Definition seconds (microseconds : Z) : Q := (microseconds # 1000000)%Q.

(** What pacing a turn means: [w] is the world at the start of the turn and
    [w'] the world at its end. The turn started at the first reading of the
    clock and its work ended at the last one; the sleeps added to the trace
    amount to [max(0, STREAM_INTERVAL - elapsed)] seconds: none when the
    work took the whole interval or more, and one sleep of exactly
    [STREAM_INTERVAL - elapsed] seconds otherwise. *)
Definition paced (w w' : World) : Prop :=
  let cycle_start := seconds (clock (env w) (ticks w)) in
  let t_end := seconds (clock (env w) (pred (ticks w'))) in
  let elapsed := (t_end - cycle_start)%Q in
  (seconds_slept (sleeps (trace w')) ==
     Qmax 0 (STREAM_INTERVAL - elapsed) + seconds_slept (sleeps (trace w)))%Q /\
  ((STREAM_INTERVAL <= elapsed)%Q -> sleeps (trace w') = sleeps (trace w)) /\
  ((elapsed < STREAM_INTERVAL)%Q ->
     sleeps (trace w') = Slept (STREAM_INTERVAL - elapsed) :: sleeps (trace w)).

(** ** Sample environments *)

(** Raw draws: the index scrambled by multiplications and shifts on 64
    bits. *)
Definition sample_entropy (n : nat) : N :=
  let m := 18446744073709551616%N in
  let z0 := ((N.of_nat n + 1) * 11400714819323198485 mod m)%N in
  let z1 := (N.lxor z0 (N.shiftr z0 30) * 13787848793156543929 mod m)%N in
  let z2 := (N.lxor z1 (N.shiftr z1 27) * 10723151780598845931 mod m)%N in
  N.lxor z2 (N.shiftr z2 31).

(** A sink that holds three users and seven products, answers [0] to every
    other SELECT and acknowledges every INSERT with an empty body. *)
Definition sample_sink (n : nat) (query : string) : http_outcome :=
  if String.prefix "INSERT" query then Response 200 ""
  else if (query =? "SELECT count() FROM users")%string then Response 200 ("3" ++ String "010" "")
  else if (query =? "SELECT count() FROM products")%string then Response 200 ("7" ++ String "010" "")
  else if (query =? "SELECT 1")%string then Response 200 ("1" ++ String "010" "")
  else Response 200 ("0" ++ String "010" "").

(** The clock advances by a tenth of a second at each reading. *)
Definition sample_clock (n : nat) : Z := 1700000000000000 + Z.of_nat n * 100000.

Definition sample_env (sig : nat -> option Z) : Env :=
  {| sink := sample_sink; clock := sample_clock; entropy := sample_entropy;
     signals := sig |}.

(** A sink with empty tables: every SELECT is answered [0]. *)
Definition empty_sink (n : nat) (query : string) : http_outcome :=
  if String.prefix "INSERT" query then Response 200 ""
  else Response 200 ("0" ++ String "010" "").

(** A sink that cannot be reached: every POST fails in the transport. *)
Definition unreachable_sink (n : nat) (query : string) : http_outcome :=
  Failure "Connection refused".

(** A sink that rejects every statement with a server error. *)
Definition rejecting_sink (n : nat) (query : string) : http_outcome :=
  Response 500 "Code: 241. DB::Exception: Memory limit exceeded".

(** A sink that answers every statement with status 200 and some text. *)
Definition chatty_sink (n : nat) (query : string) : http_outcome :=
  Response 200 "Ok.".

(** The sample sink, except that the maximum event id comes back as text
    that is not a number. *)
Definition garbled_sink (n : nat) (query : string) : http_outcome :=
  if (query =? "SELECT max(event_id) FROM events")%string then Response 200 "abc"
  else sample_sink n query.

(** The sample sink, except that row counts come back as text that is not a
    number. *)
Definition garbled_count_sink (n : nat) (query : string) : http_outcome :=
  if String.prefix "SELECT count()" query then Response 200 "abc"
  else sample_sink n query.

Definition env_with_sink (s : nat -> string -> http_outcome) : Env :=
  {| sink := s; clock := sample_clock; entropy := sample_entropy;
     signals := fun _ => None |}.

Definition fresh_streamer : Streamer :=
  {| running := true; session_counter := 10000; total_events_inserted := 0;
     total_orders_inserted := 0; start_time := (1700000000 # 1)%Q |}.

Definition world_of (e : Env) : World :=
  {| self := fresh_streamer; env := e; posts := 0; ticks := 0; draws := 0;
     trace := [] |}.

(** SIGINT arrives while turn [k] of the loop is under way. *)
Definition sigint_during (k : nat) (stage : nat) : option Z :=
  if (stage =? S k)%nat then Some 2 else None.

Definition sample_world : World := world_of (sample_env (fun _ => None)).

(** ** Frames: what an operation leaves alone

    [frame sel rnd w w'] says that between [w] and [w'] the environment is the
    same, a cleared [running] flag stays cleared, no effect selected by [sel]
    was added to the trace and, unless [rnd] is set, no random draw was
    made. [keeps sel rnd m] says that [m] always ends within such a frame, and
    ends: it returns or raises an [Exception]. *)

Definition tame {A} (r : outcome A) : Prop :=
  match r with
  | Val _ => True
  | Exc e => is_Exception e = true
  | Unfinished => False
  end.

Definition frame (sel : effect -> bool) (rnd : bool) (w w' : World) : Prop :=
  env w' = env w /\
  (running (self w) = false -> running (self w') = false) /\
  filter sel (trace w') = filter sel (trace w) /\
  (rnd = false -> draws w' = draws w).

Definition keeps {A} (sel : effect -> bool) (rnd : bool) (m : M A) : Prop :=
  forall w, frame sel rnd w (snd (m w)) /\ tame (fst (m w)).

(** The selectors behind [cycles_begun], [event_inserts] and
    [order_inserts]. *)
Definition sel_cycle : effect -> bool :=
  is_posted_prefix "SELECT max(event_id)".

Definition sel_event_insert : effect -> bool :=
  is_posted_prefix "INSERT INTO events".

Definition sel_order_insert : effect -> bool :=
  is_posted_prefix "INSERT INTO orders".

(** What every part of [run] before the final block respects. *)
Record calm (n : nat) (w w' : World) : Prop := {
  calm_env : env w' = env w;
  calm_stopped : stopped_count (trace w') = stopped_count (trace w);
  calm_cycles : (cycles_begun w' <= cycles_begun w + n)%nat;
  calm_joined :
    (event_inserts w' + order_inserts w = order_inserts w' + event_inserts w)%nat
}.

(** The batch a generator returned, if it returned one. *)
Definition batch_or_nil {A} (r : outcome (list A)) : list A :=
  match r with Val l => l | _ => [] end.

(** Sample batches: cycles 0 and 1 on the sample world. *)
Definition sample_events_0 : list Event.t :=
  Eval vm_compute in batch_or_nil (fst (generate_events_batch 0 5 0 sample_world)).

Definition sample_events_1 : list Event.t :=
  Eval vm_compute in batch_or_nil (fst (generate_events_batch 1 5 100 sample_world)).

Definition sample_orders_0 : list Order.t :=
  Eval vm_compute in batch_or_nil (fst (generate_orders_batch 0 5 3 0 sample_world)).

Definition sample_orders_1 : list Order.t :=
  Eval vm_compute in batch_or_nil (fst (generate_orders_batch 1 5 3 100 sample_world)).

(** ** Further observations *)

(** The [event_types] list of [generate_events_batch]. The generator does
    not draw from it but from the keys of [event_weights]. *)
Definition event_types : list string :=
  ["page_view"; "click"; "search"; "login"; "logout"; "purchase";
   "add_to_cart"; "remove_from_cart"; "download"; "signup"; "share"].

(** The text an outcome of a POST stands for: the stripped body when the
    request succeeded, nothing otherwise. *)
Definition reply_text (o : http_outcome) : string :=
  match o with
  | Response status body => if request_failed o then "" else Py.strip body
  | Failure _ => ""
  end.

(** The number an outcome of a POST stands for, 0 when it stands for none. *)
Definition reply_count (o : http_outcome) : Z :=
  match Py.int (reply_text o) with
  | Some n => n
  | None => 0
  end.

Definition is_post (e : effect) : bool :=
  match e with Posted _ => true | _ => false end.

(** The statements put on the wire, most recent first. *)
Definition posted (tr : list effect) : list effect := filter is_post tr.

Definition is_print (e : effect) : bool :=
  match e with Printed _ => true | _ => false end.

(** The console output, most recent first. *)
Definition printed (tr : list effect) : list effect := filter is_print tr.

(** A string without a single quote can stand between quotes in a statement
    without ending the literal. *)
Fixpoint quote_free (s : string) : bool :=
  match s with
  | EmptyString => true
  | String c r => negb (Ascii.eqb c "'") && quote_free r
  end.

(** The string fields of an event and of an order that are put between
    quotes in the INSERT statements. *)
Definition event_strings (e : Event.t) : list string :=
  [Event.event_type e; Event.event_timestamp e; Event.page_url e;
   Event.session_id e; Event.device_type e; Event.browser e; Event.country e].

Definition order_strings (o : Order.t) : list string :=
  [Order.order_date o; Order.order_timestamp o; Order.status o;
   Order.payment_method o].

(** What holds of the fields of every generated event, given the user count
    and the clock reading of the batch. *)
Definition event_well_formed (user_count : Z) (now : Datetime.datetime)
    (e : Event.t) : Prop :=
  1 <= Event.user_id e <= user_count /\
  In (Event.event_type e) (map fst event_weights) /\
  Event.event_type e <> "download" /\
  (Event.event_type e = "page_view" -> In (Event.page_url e) pages) /\
  (Event.event_type e <> "page_view" ->
     Event.page_url e = "/action/" ++ Event.event_type e) /\
  Event.session_id e =
    "sess-" ++ Py.str (Event.user_id e) ++ "-" ++
    Py.str (Datetime.five_minute_bucket now) /\
  In (Event.device_type e) device_types /\
  In (Event.browser e) browsers /\
  In (Event.country e) countries /\
  1 <= Event.duration_seconds e <= 300.

(** What holds of the fields of every generated order. *)
Definition order_well_formed (user_count product_count : Z) (o : Order.t) : Prop :=
  1 <= Order.user_id o <= user_count /\
  1 <= Order.product_id o <= product_count /\
  1 <= Order.quantity o <= 5 /\
  In (Order.status o) statuses /\
  In (Order.payment_method o) payment_methods /\
  (50 <= Order.total_amount o)%Q /\ (Order.total_amount o <= 1000)%Q.

(** Number of single quotes in a string. *)
Fixpoint count_quotes (s : string) : nat :=
  match s with
  | EmptyString => 0
  | String c r => (if Ascii.eqb c "'" then 1 else 0) + count_quotes r
  end.

(** An operation that leaves the streamer object as it found it. *)
Definition untouched {A} (m : M A) : Prop :=
  forall w, self (snd (m w)) = self w.

(** What a stretch of a run, from world [w] to world [w'], does to the
    streamer object: [session_counter] and [start_time] are as they were, a
    cleared [running] flag stays cleared, and the two counters have grown by
    whole batches, at most one batch of each kind for every turn of the
    loop begun in between. *)
Definition accounted (w w' : World) : Prop :=
  env w' = env w /\
  session_counter (self w') = session_counter (self w) /\
  start_time (self w') = start_time (self w) /\
  (running (self w) = false -> running (self w') = false) /\
  exists c n m : nat,
    cycles_begun w' = (cycles_begun w + c)%nat /\
    (n <= c)%nat /\ (m <= c)%nat /\
    total_events_inserted (self w') =
      total_events_inserted (self w) + BATCH_SIZE_EVENTS * Z.of_nat n /\
    total_orders_inserted (self w') =
      total_orders_inserted (self w) + BATCH_SIZE_ORDERS * Z.of_nat m.

(** An operation that is accounted for from every world. *)
Definition accounts {A} (m : M A) : Prop :=
  forall w, accounted w (snd (m w)).

(** The header of the two INSERT statements. *)
Definition events_sql : string :=
  "INSERT INTO events (event_id, user_id, event_type, event_timestamp, page_url, session_id, device_type, browser, country, duration_seconds, revenue) VALUES ".

Definition orders_sql : string :=
  "INSERT INTO orders (order_id, user_id, product_id, quantity, order_date, order_timestamp, total_amount, status, payment_method) VALUES ".

(** An answer to a query for a maximum id that [int(... or 0)] accepts: it
    stands for the empty text or for a number. *)
Definition scalar_ok (o : http_outcome) : bool :=
  negb (Py.truthy (reply_text o)) ||
  match Py.int (reply_text o) with Some _ => true | None => false end.

(** The world in which [generate_events_batch], started in [w], begins its
    event number [i]: the clock has been read and the [i] events before it
    have been generated. *)
Definition before_event (batch_num user_count max_event_id : Z) (w : World)
    (i : nat) : World :=
  snd (for_append (range i)
         (events_batch_body batch_num user_count max_event_id (clock (env w) (ticks w)))
         (next_tick w)).

(** The world in which the revenue of an event begun in [w0] is decided:
    the user, the event type and the jitter of the timestamp have been
    drawn, in this order, and nothing else. *)
Definition revenue_world (user_count : Z) (w0 : World) : World :=
  snd ((Random.randint 1 user_count ;;
        Random.choices (map fst event_weights) (map snd event_weights) ;;
        Random.randint 0 1000) w0).









(** * Properties *)

(** ** The built-ins on sample values *)

Example py_int_ok : Py.int " 1_000 " = Some 1000.
Proof. reflexivity. Qed.

Example py_int_neg : Py.int "-42" = Some (-42).
Proof. reflexivity. Qed.

Example py_int_bad : Py.int "abc" = None.
Proof. reflexivity. Qed.

Example py_int_empty : Py.int "" = None.
Proof. reflexivity. Qed.

Example py_int_us : Py.int "1__0" = None.
Proof. reflexivity. Qed.

Example py_strip : Py.strip "  12 " = "12".
Proof. reflexivity. Qed.

Example strftime_ex : Datetime.strftime 1700000000123456 = "2023-11-14 22:13:20".
Proof. reflexivity. Qed.

Example strftime_leap : Datetime.strftime 951782400000000 = "2000-02-29 00:00:00".
Proof. reflexivity. Qed.

Example round2_ex : Py.round2 (12346 # 1000) = (1235 # 100)%Q.
Proof. reflexivity. Qed.

Example repr_ex : Py.repr_float2 (2050 # 100) = "20.5".
Proof. reflexivity. Qed.

Example join_ex : Py.join ", " ["(1)"; "(2)"; "(3)"] = "(1), (2), (3)".
Proof. reflexivity. Qed.

(** ** Stepping through the monad *)

Lemma bind_Val_inv {A B} (m : M A) (f : A -> M B) w b w' :
  bind m f w = (Val b, w') ->
  exists a w1, m w = (Val a, w1) /\ f a w1 = (Val b, w').
Proof.
  unfold bind. destruct (m w) as [[a | e | ] w1]; intro H.
  - exists a, w1. split; [reflexivity | exact H].
  - discriminate H.
  - discriminate H.
Qed.

Lemma bind_Val {A B} (m : M A) (f : A -> M B) w a w1 :
  m w = (Val a, w1) -> bind m f w = f a w1.
Proof. unfold bind. intros ->. reflexivity. Qed.

Lemma bind_Exc {A B} (m : M A) (f : A -> M B) w e w1 :
  m w = (Exc e, w1) -> bind m f w = (Exc e, w1).
Proof. unfold bind. intros ->. reflexivity. Qed.

(** Peel the outermost bind of a run that returned a value. *)
Ltac step H a w1 Ha :=
  apply bind_Val_inv in H; destruct H as (a & w1 & Ha & H).

(** ** Loops that append *)

Lemma for_append_length {A B} (body : A -> M B) xs :
  forall w ys w', for_append xs body w = (Val ys, w') ->
  List.length ys = List.length xs.
Proof.
  induction xs as [| x rest IH]; simpl; intros w ys w' H.
  - inversion H. reflexivity.
  - step H y w1 Hy. step H ys' w2 Hys. inversion H; subst.
    simpl. f_equal. eapply IH. eassumption.
Qed.

Lemma for_append_Forall {A B} (body : A -> M B) (P : B -> Prop) xs :
  (forall x w y w', In x xs -> body x w = (Val y, w') -> P y) ->
  forall w ys w', for_append xs body w = (Val ys, w') -> Forall P ys.
Proof.
  induction xs as [| x rest IH]; simpl; intros Hb w ys w' H.
  - inversion H. constructor.
  - step H y w1 Hy. step H ys' w2 Hys. inversion H; subst.
    constructor.
    + eapply Hb; [left; reflexivity | eassumption].
    + eapply IH; [| eassumption]. intros. eapply Hb; [right |]; eassumption.
Qed.

Lemma for_append_map {A B C} (body : A -> M B) (g : B -> C) (h : A -> C) xs :
  (forall x w y w', body x w = (Val y, w') -> g y = h x) ->
  forall w ys w', for_append xs body w = (Val ys, w') -> map g ys = map h xs.
Proof.
  intros Hb. induction xs as [| x rest IH]; simpl; intros w ys w' H.
  - inversion H. reflexivity.
  - step H y w1 Hy. step H ys' w2 Hys. inversion H; subst.
    simpl. f_equal; [eapply Hb | eapply IH]; eassumption.
Qed.

(** A loop whose body always returns a value returns a list. *)
Lemma for_append_total {A B} (body : A -> M B) xs :
  (forall x w, exists y w', body x w = (Val y, w')) ->
  forall w, exists ys w', for_append xs body w = (Val ys, w').
Proof.
  intros Hb. induction xs as [| x rest IH]; simpl; intros w.
  - eexists _, _. reflexivity.
  - destruct (Hb x w) as (y & w1 & Hy).
    destruct (IH w1) as (ys & w2 & Hys).
    exists (y :: ys), w2.
    rewrite (bind_Val _ _ _ _ _ Hy), (bind_Val _ _ _ _ _ Hys). reflexivity.
Qed.

Lemma range_length n : List.length (range n) = n.
Proof. unfold range. rewrite length_map, length_seq. reflexivity. Qed.

Lemma range_In n i : In i (range n) -> 0 <= i < Z.of_nat n.
Proof.
  unfold range. rewrite in_map_iff. intros (j & <- & Hj).
  apply in_seq in Hj. lia.
Qed.

(** ** The random module *)

Lemma raw_run w : Random.raw w = (Val (entropy (env w) (draws w)), next_draw w).
Proof. reflexivity. Qed.

Lemma randint_inv a b w v w' :
  Random.randint a b w = (Val v, w') -> a <= v <= b /\ w' = next_draw w.
Proof.
  unfold Random.randint, Random.randbelow. destruct (0 <? b + 1 - a) eqn:E.
  - intro H. step H k w1 Hk. step Hk r w2 Hr.
    inversion Hr; subst. inversion Hk; subst. inversion H; subst.
    apply Z.ltb_lt in E.
    pose proof (Z.mod_pos_bound (Z.of_N (entropy (env w) (draws w))) (b + 1 - a) E).
    split; [lia | reflexivity].
  - discriminate.
Qed.

Lemma randint_total a b w :
  a <= b -> exists v, Random.randint a b w = (Val v, next_draw w) /\ a <= v <= b.
Proof.
  intro Hab. unfold Random.randint, Random.randbelow.
  assert (E : 0 < b + 1 - a) by lia.
  apply Z.ltb_lt in E as E'. rewrite E'.
  eexists. split; [reflexivity |].
  pose proof (Z.mod_pos_bound (Z.of_N (entropy (env w) (draws w))) (b + 1 - a) E).
  lia.
Qed.

Lemma randint_empty a b w :
  b < a -> exists msg, Random.randint a b w = (Exc (ValueError msg), w).
Proof.
  intro Hab. unfold Random.randint.
  assert (E : (0 <? b + 1 - a) = false) by (apply Z.ltb_ge; lia).
  rewrite E. eexists. reflexivity.
Qed.

Lemma random_run w :
  exists u, Random.random w = (Val u, next_draw w) /\ (0 <= u)%Q /\ (u < 1)%Q.
Proof.
  unfold Random.random. eexists. split; [reflexivity |].
  pose proof (Z.mod_pos_bound (Z.of_N (entropy (env w) (draws w)))
                (Z.pos Random.two53) eq_refl) as [H0 H1].
  unfold Qle, Qlt; simpl. split; lia.
Qed.

Lemma uniform_run (a b : Q) w :
  (a <= b)%Q ->
  exists v, Random.uniform a b w = (Val v, next_draw w) /\ (a <= v)%Q /\ (v <= b)%Q.
Proof.
  intro Hab. unfold Random.uniform.
  destruct (random_run w) as (u & Hu & H0 & H1).
  rewrite (bind_Val _ _ _ _ _ Hu). eexists. split; [reflexivity |].
  split; nra.
Qed.

(** Rounding to hundredths stays between integer bounds. *)
Lemma round2_bounds (a b : Z) (x : Q) :
  (inject_Z a <= x)%Q -> (x <= inject_Z b)%Q ->
  (inject_Z a <= Py.round2 x)%Q /\ (Py.round2 x <= inject_Z b)%Q.
Proof.
  intros Ha Hb. unfold Py.round2.
  set (y := (x * 100)%Q). set (f := Qfloor y).
  assert (Hya : (inject_Z (a * 100) <= y)%Q).
  { unfold y. rewrite inject_Z_mult. apply Qmult_le_compat_r; [exact Ha | discriminate]. }
  assert (Hyb : (y <= inject_Z (b * 100))%Q).
  { unfold y. rewrite inject_Z_mult. apply Qmult_le_compat_r; [exact Hb | discriminate]. }
  assert (Hfa : a * 100 <= f).
  { unfold f. rewrite <- (Qfloor_Z (a * 100)). apply Qfloor_resp_le. exact Hya. }
  assert (Hfb : f <= b * 100).
  { unfold f. rewrite <- (Qfloor_Z (b * 100)). apply Qfloor_resp_le. exact Hyb. }
  assert (Hup : (inject_Z f < y)%Q -> f + 1 <= b * 100).
  { intro Hlt. assert (Hq : (inject_Z f < inject_Z (b * 100))%Q)
      by (eapply Qlt_le_trans; eassumption).
    rewrite <- Zlt_Qlt in Hq. lia. }
  assert (Hd : forall n, a * 100 <= n -> n <= b * 100 ->
               (inject_Z a <= n # 100)%Q /\ (n # 100 <= inject_Z b)%Q).
  { intros n H1 H2. unfold Qle; simpl. lia. }
  destruct (y - inject_Z f ?= 1 # 2)%Q eqn:E.
  - apply Qeq_alt in E. destruct (Z.even f).
    + apply Hd; assumption.
    + apply Hd; [lia | apply Hup; lra].
  - apply Hd; assumption.
  - apply Qgt_alt in E. apply Hd; [lia | apply Hup; lra].
Qed.

Lemma round2_nonzero (a b : Z) (x : Q) :
  0 < a -> (inject_Z a <= x)%Q -> (x <= inject_Z b)%Q -> ~ (Py.round2 x == 0)%Q.
Proof.
  intros Hpos Ha Hb Hz.
  destruct (round2_bounds a b x Ha Hb) as [H1 _].
  rewrite Hz in H1. unfold Qle in H1; simpl in H1. lia.
Qed.

Lemma nth_error_lt {A} (l : list A) n :
  (n < List.length l)%nat -> exists x, nth_error l n = Some x /\ In x l.
Proof.
  intro H. destruct (nth_error l n) eqn:E.
  - eexists. split; [reflexivity |]. eapply nth_error_In; eassumption.
  - apply nth_error_None in E. lia.
Qed.

Lemma choice_run {A} (seq : list A) w :
  seq <> [] -> exists x, Random.choice seq w = (Val x, next_draw w) /\ In x seq.
Proof.
  intro Hne. unfold Random.choice, Random.randbelow.
  destruct seq as [| x0 rest]; [contradiction |].
  set (l := x0 :: rest).
  assert (Hlen : 0 < Z.of_nat (List.length l)) by (simpl; lia).
  pose proof (Z.mod_pos_bound (Z.of_N (entropy (env w) (draws w))) _ Hlen) as Hb.
  destruct (nth_error_lt l (Z.to_nat (Z.of_N (entropy (env w) (draws w))
                                      mod Z.of_nat (List.length l)))) as (x & Hx & Hin).
  { lia. }
  exists x. split; [| exact Hin].
  unfold bind, ret, Random.raw. rewrite Hx. reflexivity.
Qed.

Lemma bisect_loop_bounds turns a x : forall lo hi,
  (lo <= hi)%nat ->
  (lo <= Random.bisect_loop turns a x lo hi <= hi)%nat.
Proof.
  induction turns as [| t IH]; cbn [Random.bisect_loop]; intros lo hi Hle.
  - lia.
  - destruct (lo <? hi)%nat eqn:E.
    + apply Nat.ltb_lt in E.
      assert (Hmid : (lo <= (lo + hi) / 2 < hi)%nat).
      { split.
        - apply Nat.div_le_lower_bound; lia.
        - apply Nat.Div0.div_lt_upper_bound; lia. }
      set (mid := ((lo + hi) / 2)%nat) in *.
      destruct (x ?= nth mid a 0%Q)%Q.
      * specialize (IH (S mid) hi). lia.
      * specialize (IH lo mid). lia.
      * specialize (IH (S mid) hi). lia.
    + lia.
Qed.

(** A weighted choice over a non-empty population with a positive total
    weight returns a member of the population after one draw. *)
Lemma choices_run {A} (population : list A) (weights : list Q) total before w :
  List.length (Random.accumulate weights) = List.length population ->
  List.rev (Random.accumulate weights) = total :: before ->
  (0 < total)%Q ->
  exists x, Random.choices population weights w = (Val x, next_draw w) /\
            In x population.
Proof.
  intros Hlen Hrev Hpos. unfold Random.choices.
  rewrite Hlen, Nat.eqb_refl, Hrev. cbn [negb].
  assert (E : (total ?= 0)%Q = Gt) by (apply Qgt_alt; exact Hpos).
  rewrite E.
  destruct (random_run w) as (u & Hu & _).
  rewrite (bind_Val _ _ _ _ _ Hu).
  assert (Hn : (0 < List.length population)%nat).
  { rewrite <- Hlen, <- length_rev, Hrev. simpl. lia. }
  pose proof (bisect_loop_bounds (List.length population - 1 - 0)
                (Random.accumulate weights) (u * total)%Q 0
                (List.length population - 1) (Nat.le_0_l _)) as Hb.
  fold (Random.bisect (Random.accumulate weights) (u * total)%Q 0
          (List.length population - 1)) in Hb.
  destruct (nth_error_lt population
              (Random.bisect (Random.accumulate weights) (u * total)%Q 0
                 (List.length population - 1))) as (x & Hx & Hin).
  { lia. }
  exists x. rewrite Hx. split; [reflexivity | exact Hin].
Qed.

Lemma choices_inv {A} (population : list A) (weights : list Q) w x w' :
  Random.choices population weights w = (Val x, w') ->
  In x population /\ w' = next_draw w.
Proof.
  unfold Random.choices.
  destruct (negb _); [discriminate |].
  destruct (List.rev _) as [| total before]; [discriminate |].
  destruct (total ?= 0)%Q; try discriminate.
  intro H. step H u w1 Hu.
  destruct (random_run w) as (u' & Hu' & _). rewrite Hu' in Hu.
  inversion Hu; subst.
  destruct (nth_error population _) eqn:E; [| discriminate].
  inversion H; subst. split; [| reflexivity].
  eapply nth_error_In; eassumption.
Qed.

Lemma event_types_run w :
  exists event_type,
    Random.choices (map fst event_weights) (map snd event_weights) w
    = (Val event_type, next_draw w).
Proof.
  edestruct (choices_run (map fst event_weights) (map snd event_weights))
    as (x & Hx & _); [reflexivity | reflexivity | reflexivity |].
  exists x. exact Hx.
Qed.

(** ** The generators *)

(** What the revenue of an event can be, by event type; [coin] is the draw
    [random.random()] would return in world [w]. *)
Lemma event_revenue_spec event_type w revenue w' :
  event_revenue event_type w = (Val revenue, w') ->
  (event_type = "purchase" ->
     ~ (revenue == 0)%Q /\ (20 <= revenue)%Q /\ (revenue <= 500)%Q) /\
  (event_type = "add_to_cart" ->
     exists coin w1, Random.random w = (Val coin, w1) /\
       (~ (revenue == 0)%Q <-> (coin < 1 # 2)%Q) /\
       (~ (revenue == 0)%Q -> (10 <= revenue)%Q /\ (revenue <= 200)%Q)) /\
  (event_type <> "purchase" -> event_type <> "add_to_cart" -> revenue = 0%Q).
Proof.
  unfold event_revenue. intro H.
  destruct (event_type =? "purchase")%string eqn:Ep.
  - apply String.eqb_eq in Ep. subst event_type.
    step H u w1 Hu.
    destruct (uniform_run 20 500 w) as (v & Hv & Hlo & Hhi); [discriminate |].
    rewrite Hv in Hu. inversion Hu; subst. inversion H; subst.
    split; [| split].
    + intros _. split.
      * apply (round2_nonzero 20 500); [lia | exact Hlo | exact Hhi].
      * apply (round2_bounds 20 500); assumption.
    + discriminate.
    + intros Hn. contradiction Hn. reflexivity.
  - apply String.eqb_neq in Ep.
    destruct (event_type =? "add_to_cart")%string eqn:Ec.
    + apply String.eqb_eq in Ec. subst event_type.
      step H coin w1 Hc.
      split; [intro Hp; discriminate Hp | split].
      * intros _. exists coin, w1. split; [exact Hc |].
        unfold Py.lt in H. destruct (coin ?= 1 # 2)%Q eqn:E.
        -- inversion H; subst. apply Qeq_alt in E.
           split; [split |].
           ++ intro Hn. contradiction Hn. reflexivity.
           ++ intro Hlt. rewrite E in Hlt. discriminate Hlt.
           ++ intro Hn. contradiction Hn. reflexivity.
        -- step H u w2 Hu.
           destruct (uniform_run 10 200 w1) as (v & Hv & Hlo & Hhi); [discriminate |].
           rewrite Hv in Hu. inversion Hu; subst. inversion H; subst.
           apply Qlt_alt in E.
           split; [split |].
           ++ intros _. exact E.
           ++ intros _. apply (round2_nonzero 10 200); [lia | exact Hlo | exact Hhi].
           ++ intros _. apply (round2_bounds 10 200); assumption.
        -- inversion H; subst. apply Qgt_alt in E.
           split; [split |].
           ++ intro Hn. contradiction Hn. reflexivity.
           ++ intro Hlt. lra.
           ++ intro Hn. contradiction Hn. reflexivity.
      * intros _ Hn. contradiction Hn. reflexivity.
    + inversion H; subst.
      split; [| split].
      * intro Hp. contradiction.
      * intro Hc. subst event_type. discriminate Ec.
      * reflexivity.
Qed.

Lemma event_revenue_total event_type w :
  exists revenue w', event_revenue event_type w = (Val revenue, w').
Proof.
  unfold event_revenue.
  destruct (event_type =? "purchase")%string.
  - destruct (uniform_run 20 500 w) as (v & Hv & _); [discriminate |].
    rewrite (bind_Val _ _ _ _ _ Hv). eexists _, _. reflexivity.
  - destruct (event_type =? "add_to_cart")%string.
    + destruct (random_run w) as (coin & Hc & _).
      rewrite (bind_Val _ _ _ _ _ Hc).
      destruct (Py.lt coin (1 # 2)).
      * destruct (uniform_run 10 200 (next_draw w)) as (v & Hv & _); [discriminate |].
        rewrite (bind_Val _ _ _ _ _ Hv). eexists _, _. reflexivity.
      * eexists _, _. reflexivity.
    + eexists _, _. reflexivity.
Qed.

(** What one turn of the events loop produces. *)
Lemma events_batch_body_inv batch_num user_count max_event_id now i w e w' :
  events_batch_body batch_num user_count max_event_id now i w = (Val e, w') ->
  Event.event_id e = max_event_id + batch_num * BATCH_SIZE_EVENTS + i + 1 /\
  1 <= Event.user_id e <= user_count /\
  In (Event.event_type e) (map fst event_weights) /\
  (exists jitter, 0 <= jitter <= 1000 /\
     Event.event_timestamp e =
       Datetime.strftime (now - Datetime.timedelta_ms jitter)) /\
  (exists wr wr',
     event_revenue (Event.event_type e) wr = (Val (Event.revenue e), wr')).
Proof.
  unfold events_batch_body. intro H.
  step H user_id w1 Hu. apply randint_inv in Hu as [Hu _].
  step H event_type w2 Ht. apply choices_inv in Ht as [Ht _].
  step H jitter w3 Hj. apply randint_inv in Hj as [Hj _].
  step H revenue w4 Hr.
  step H page_url w5 Hp.
  step H device_type w6 Hd.
  step H browser w7 Hb.
  step H country w8 Hc.
  step H duration w9 Hdu.
  inversion H; subst; cbn [Event.event_id Event.user_id Event.event_type
                            Event.event_timestamp Event.revenue].
  split; [reflexivity |]. split; [exact Hu |]. split; [exact Ht |].
  split.
  - exists jitter. split; [exact Hj | reflexivity].
  - exists w3, w4. exact Hr.
Qed.

(** One turn of the events loop returns an event whenever there is at least
    one user to draw. *)
Lemma events_batch_body_total batch_num user_count max_event_id now i w :
  1 <= user_count ->
  exists e w', events_batch_body batch_num user_count max_event_id now i w = (Val e, w').
Proof.
  intro Huc. unfold events_batch_body.
  destruct (randint_total 1 user_count w Huc) as (user_id & Hu & _).
  rewrite (bind_Val _ _ _ _ _ Hu).
  destruct (event_types_run (next_draw w)) as (event_type & Ht).
  rewrite (bind_Val _ _ _ _ _ Ht).
  destruct (randint_total 0 1000 (next_draw (next_draw w))) as (jitter & Hj & _); [lia |].
  rewrite (bind_Val _ _ _ _ _ Hj).
  destruct (event_revenue_total event_type (next_draw (next_draw (next_draw w))))
    as (revenue & w4 & Hr).
  rewrite (bind_Val _ _ _ _ _ Hr).
  assert (Hp : exists page_url w5,
             (if (event_type =? "page_view")%string then Random.choice pages
              else ret ("/action/" ++ event_type)) w4 = (Val page_url, w5)).
  { destruct (event_type =? "page_view")%string.
    - destruct (choice_run pages w4) as (x & Hx & _); [discriminate |].
      eexists _, _. exact Hx.
    - eexists _, _. reflexivity. }
  destruct Hp as (page_url & w5 & Hp).
  rewrite (bind_Val _ _ _ _ _ Hp).
  destruct (choice_run device_types w5) as (device_type & Hd & _); [discriminate |].
  rewrite (bind_Val _ _ _ _ _ Hd).
  destruct (choice_run browsers (next_draw w5)) as (browser & Hb & _); [discriminate |].
  rewrite (bind_Val _ _ _ _ _ Hb).
  destruct (choice_run countries (next_draw (next_draw w5))) as (country & Hc & _);
    [discriminate |].
  rewrite (bind_Val _ _ _ _ _ Hc).
  destruct (randint_total 1 300 (next_draw (next_draw (next_draw w5))))
    as (duration & Hdu & _); [lia |].
  rewrite (bind_Val _ _ _ _ _ Hdu).
  eexists _, _. reflexivity.
Qed.

(** What one turn of the orders loop produces. *)
Lemma orders_batch_body_inv batch_num user_count product_count max_order_id now i w o w' :
  orders_batch_body batch_num user_count product_count max_order_id now i w
    = (Val o, w') ->
  Order.order_id o = max_order_id + batch_num * BATCH_SIZE_ORDERS + i + 1 /\
  1 <= Order.user_id o <= user_count /\
  1 <= Order.product_id o <= product_count /\
  (exists jitter, 0 <= jitter <= 1000 /\
     Order.order_timestamp o =
       Datetime.strftime (now - Datetime.timedelta_ms jitter) /\
     Order.order_date o =
       Datetime.strftime_date (now - Datetime.timedelta_ms jitter)).
Proof.
  unfold orders_batch_body. intro H.
  step H user_id w1 Hu. apply randint_inv in Hu as [Hu _].
  step H product_id w2 Hp. apply randint_inv in Hp as [Hp _].
  step H quantity w3 Hq.
  step H jitter w4 Hj. apply randint_inv in Hj as [Hj _].
  step H status w5 Hs.
  step H coin w6 Hc.
  step H total_amount w7 Ha.
  step H payment_method w8 Hm.
  inversion H; subst; cbn [Order.order_id Order.user_id Order.product_id
                            Order.order_timestamp Order.order_date].
  split; [reflexivity |]. split; [exact Hu |]. split; [exact Hp |].
  exists jitter. split; [exact Hj |]. split; reflexivity.
Qed.

(** One turn of the orders loop returns an order whenever there is at least
    one user and one product to draw. *)
Lemma orders_batch_body_total batch_num user_count product_count max_order_id now i w :
  1 <= user_count -> 1 <= product_count ->
  exists o w',
    orders_batch_body batch_num user_count product_count max_order_id now i w
      = (Val o, w').
Proof.
  intros Huc Hpc. unfold orders_batch_body.
  destruct (randint_total 1 user_count w Huc) as (user_id & Hu & _).
  rewrite (bind_Val _ _ _ _ _ Hu).
  destruct (randint_total 1 product_count (next_draw w) Hpc) as (product_id & Hp & _).
  rewrite (bind_Val _ _ _ _ _ Hp).
  edestruct (choices_run [1; 2; 3; 4; 5] quantity_weights)
    as (quantity & Hq & _); [reflexivity | reflexivity | reflexivity |].
  rewrite (bind_Val _ _ _ _ _ Hq).
  edestruct (randint_total 0 1000) as (jitter & Hj & _); [lia |].
  rewrite (bind_Val _ _ _ _ _ Hj).
  edestruct (choices_run statuses status_weights)
    as (status & Hs & _); [reflexivity | reflexivity | reflexivity |].
  rewrite (bind_Val _ _ _ _ _ Hs).
  edestruct random_run as (coin & Hc & _).
  rewrite (bind_Val _ _ _ _ _ Hc).
  set (w6 := next_draw (next_draw (next_draw (next_draw (next_draw (next_draw w)))))).
  assert (Ha : exists total_amount,
             (if Py.lt coin (9 # 10)
              then u <- Random.uniform 50 200 ;; ret (Py.round2 u)
              else u <- Random.uniform 200 1000 ;; ret (Py.round2 u)) w6
             = (Val total_amount, next_draw w6)).
  { destruct (Py.lt coin (9 # 10)).
    - destruct (uniform_run 50 200 w6) as (v & Hv & _); [discriminate |].
      rewrite (bind_Val _ _ _ _ _ Hv). eexists. reflexivity.
    - destruct (uniform_run 200 1000 w6) as (v & Hv & _); [discriminate |].
      rewrite (bind_Val _ _ _ _ _ Hv). eexists. reflexivity. }
  destruct Ha as (total_amount & Ha).
  rewrite (bind_Val _ _ _ _ _ Ha).
  destruct (choice_run payment_methods (next_draw w6)) as (pm & Hm & _); [discriminate |].
  rewrite (bind_Val _ _ _ _ _ Hm).
  eexists _, _. reflexivity.
Qed.

Lemma datetime_now_run w :
  datetime_now w = (Val (clock (env w) (ticks w)), next_tick w).
Proof. reflexivity. Qed.

Lemma generate_events_batch_inv batch_num user_count max_event_id w evs w' :
  generate_events_batch batch_num user_count max_event_id w = (Val evs, w') ->
  for_append (range (Z.to_nat BATCH_SIZE_EVENTS))
    (events_batch_body batch_num user_count max_event_id (clock (env w) (ticks w)))
    (next_tick w) = (Val evs, w').
Proof.
  unfold generate_events_batch. intro H. step H now w1 Hn.
  rewrite datetime_now_run in Hn. inversion Hn; subst. exact H.
Qed.

Lemma generate_orders_batch_inv batch_num user_count product_count max_order_id w ords w' :
  generate_orders_batch batch_num user_count product_count max_order_id w
    = (Val ords, w') ->
  for_append (range (Z.to_nat BATCH_SIZE_ORDERS))
    (orders_batch_body batch_num user_count product_count max_order_id
       (clock (env w) (ticks w)))
    (next_tick w) = (Val ords, w').
Proof.
  unfold generate_orders_batch. intro H. step H now w1 Hn.
  rewrite datetime_now_run in Hn. inversion Hn; subst. exact H.
Qed.

(** The ids of a batch follow the allocation formula, offset by offset. *)
Lemma generate_events_batch_ids batch_num user_count max_event_id w evs w' :
  generate_events_batch batch_num user_count max_event_id w = (Val evs, w') ->
  map Event.event_id evs =
  map (fun i => max_event_id + batch_num * BATCH_SIZE_EVENTS + i + 1)
      (range (Z.to_nat BATCH_SIZE_EVENTS)).
Proof.
  intro H. apply generate_events_batch_inv in H.
  eapply for_append_map; [| exact H].
  intros i w0 e w0' He. apply events_batch_body_inv in He. tauto.
Qed.

Lemma generate_orders_batch_ids batch_num user_count product_count max_order_id w ords w' :
  generate_orders_batch batch_num user_count product_count max_order_id w
    = (Val ords, w') ->
  map Order.order_id ords =
  map (fun i => max_order_id + batch_num * BATCH_SIZE_ORDERS + i + 1)
      (range (Z.to_nat BATCH_SIZE_ORDERS)).
Proof.
  intro H. apply generate_orders_batch_inv in H.
  eapply for_append_map; [| exact H].
  intros i w0 o w0' Ho. apply orders_batch_body_inv in Ho. tauto.
Qed.

(** ** Sorted id sequences *)

Lemma StronglySorted_app {A} (R : A -> A -> Prop) l1 l2 :
  StronglySorted R l1 -> StronglySorted R l2 ->
  (forall x y, In x l1 -> In y l2 -> R x y) ->
  StronglySorted R (l1 ++ l2)%list.
Proof.
  induction l1 as [| a l1 IH]; simpl; intros H1 H2 H12.
  - exact H2.
  - inversion H1; subst. constructor.
    + apply IH; [assumption | assumption |]. intros. apply H12; auto.
    + apply Forall_app. split; [assumption |].
      apply Forall_forall. intros y Hy. apply H12; auto.
Qed.

Lemma StronglySorted_lt_NoDup l : StronglySorted Z.lt l -> NoDup l.
Proof.
  induction 1 as [| a l Hs IH Hall]; constructor.
  - intro Hin. rewrite Forall_forall in Hall. specialize (Hall a Hin). lia.
  - exact IH.
Qed.

Lemma seq_sorted n : forall a, StronglySorted lt (seq a n).
Proof.
  induction n as [| n IH]; simpl; intro a; constructor.
  - apply IH.
  - apply Forall_forall. intros x Hx. apply in_seq in Hx. lia.
Qed.

Lemma StronglySorted_map {A B} (R : A -> A -> Prop) (S : B -> B -> Prop)
    (f : A -> B) l :
  (forall x y, R x y -> S (f x) (f y)) ->
  StronglySorted R l -> StronglySorted S (map f l).
Proof.
  intros Hf. induction 1 as [| a l Hs IH Hall]; simpl; constructor.
  - exact IH.
  - apply Forall_forall. intros y Hy. apply in_map_iff in Hy as (x & <- & Hx).
    apply Hf. rewrite Forall_forall in Hall. auto.
Qed.

(** The ids [base + i + 1] of one batch are strictly increasing. *)
Lemma batch_ids_sorted n base :
  StronglySorted Z.lt (map (fun i => base + i + 1) (range n)).
Proof.
  unfold range. rewrite map_map.
  apply (StronglySorted_map lt Z.lt); [intros; lia | apply seq_sorted].
Qed.

(** Two batches of size [size] allocated at cycle indexes [k < k'] from
    starting ids [m <= m'] never interleave. *)
Lemma two_batches_sorted size k k' m m' :
  k < k' -> m <= m' ->
  StronglySorted Z.lt
    (map (fun i => m + k * Z.of_nat size + i + 1) (range size) ++
     map (fun i => m' + k' * Z.of_nat size + i + 1) (range size))%list.
Proof.
  intros Hk Hm. apply StronglySorted_app.
  - apply (batch_ids_sorted size (m + k * Z.of_nat size)).
  - apply (batch_ids_sorted size (m' + k' * Z.of_nat size)).
  - intros x y Hx Hy.
    apply in_map_iff in Hx as (i & <- & Hi). apply range_In in Hi.
    apply in_map_iff in Hy as (j & <- & Hj). apply range_In in Hj.
    nia.
Qed.

Lemma fst_Val {A} (m : M A) w a : fst (m w) = Val a -> m w = (Val a, snd (m w)).
Proof. destruct (m w) as [r w1]; simpl. intros ->. reflexivity. Qed.

(** ** Identifier allocation *)

(** C3. Within a run the ids of events and of orders are strictly
    increasing and never repeat from one batch to a later one: the id at
    offset [i] of the batch of cycle [k] started from the maximum [m] is
    [m + k * batch_size + i + 1], and when a later cycle [k'] starts from a
    maximum [m'] that is at least [m], the ids of the two batches put end to
    end are strictly increasing, hence free of duplicates. *)
Theorem ids_strictly_increasing (k k' m m' : Z) :
  k < k' -> m <= m' ->
  (forall user_count user_count' w w' evs evs',
     fst (generate_events_batch k user_count m w) = Val evs ->
     fst (generate_events_batch k' user_count' m' w') = Val evs' ->
     map Event.event_id evs =
       map (fun i => m + k * BATCH_SIZE_EVENTS + i + 1)
           (range (Z.to_nat BATCH_SIZE_EVENTS)) /\
     StronglySorted Z.lt (map Event.event_id evs ++ map Event.event_id evs')%list /\
     NoDup (map Event.event_id evs ++ map Event.event_id evs')%list) /\
  (forall user_count product_count user_count' product_count' w w' ords ords',
     fst (generate_orders_batch k user_count product_count m w) = Val ords ->
     fst (generate_orders_batch k' user_count' product_count' m' w') = Val ords' ->
     map Order.order_id ords =
       map (fun i => m + k * BATCH_SIZE_ORDERS + i + 1)
           (range (Z.to_nat BATCH_SIZE_ORDERS)) /\
     StronglySorted Z.lt (map Order.order_id ords ++ map Order.order_id ords')%list /\
     NoDup (map Order.order_id ords ++ map Order.order_id ords')%list).
Proof.
  intros Hk Hm. split.
  - intros uc uc' w w' evs evs' H H'.
    apply fst_Val in H. apply fst_Val in H'.
    apply generate_events_batch_ids in H. apply generate_events_batch_ids in H'.
    assert (Hs : StronglySorted Z.lt
                   (map Event.event_id evs ++ map Event.event_id evs')%list).
    { rewrite H, H'.
      apply (two_batches_sorted (Z.to_nat BATCH_SIZE_EVENTS) k k' m m' Hk Hm). }
    split; [exact H |]. split; [exact Hs |].
    apply StronglySorted_lt_NoDup. exact Hs.
  - intros uc pc uc' pc' w w' ords ords' H H'.
    apply fst_Val in H. apply fst_Val in H'.
    apply generate_orders_batch_ids in H. apply generate_orders_batch_ids in H'.
    assert (Hs : StronglySorted Z.lt
                   (map Order.order_id ords ++ map Order.order_id ords')%list).
    { rewrite H, H'.
      apply (two_batches_sorted (Z.to_nat BATCH_SIZE_ORDERS) k k' m m' Hk Hm). }
    split; [exact H |]. split; [exact Hs |].
    apply StronglySorted_lt_NoDup. exact Hs.
Qed.

(** Cycles 0 and 1 on the sample world, the second one started from the
    maximum the first one left behind. *)
Lemma ids_strictly_increasing_sample :
  0 < 1 /\ 0 <= 100 /\
  fst (generate_events_batch 0 5 0 sample_world) = Val sample_events_0 /\
  fst (generate_events_batch 1 5 100 sample_world) = Val sample_events_1 /\
  StronglySorted Z.lt
    (map Event.event_id sample_events_0 ++ map Event.event_id sample_events_1)%list /\
  fst (generate_orders_batch 0 5 3 0 sample_world) = Val sample_orders_0 /\
  fst (generate_orders_batch 1 5 3 100 sample_world) = Val sample_orders_1 /\
  NoDup (map Order.order_id sample_orders_0 ++ map Order.order_id sample_orders_1)%list.
Proof.
  split; [lia |]. split; [lia |].
  split; [vm_compute; reflexivity |]. split; [vm_compute; reflexivity |].
  split.
  - apply (proj1 (ids_strictly_increasing 0 1 0 100 ltac:(lia) ltac:(lia))
             5 5 sample_world sample_world sample_events_0 sample_events_1);
      vm_compute; reflexivity.
  - split; [vm_compute; reflexivity |]. split; [vm_compute; reflexivity |].
    apply (proj2 (ids_strictly_increasing 0 1 0 100 ltac:(lia) ltac:(lia))
             5 3 5 3 sample_world sample_world sample_orders_0 sample_orders_1);
      vm_compute; reflexivity.
Defined.

(** ** Timestamps *)

(** C7. Every timestamp generated for an event or an order is
    [t = now - jitter] with [jitter] drawn from 0..1000 milliseconds, so
    [now - 1000ms <= t <= now], where [now] is the clock reading taken at
    the start of the batch; the record holds [t] as rendered by
    [strftime]. *)
Theorem timestamps_within_last_second :
  (forall batch_num user_count max_event_id w evs,
     fst (generate_events_batch batch_num user_count max_event_id w) = Val evs ->
     let now := clock (env w) (ticks w) in
     Forall (fun e =>
       exists jitter t,
         0 <= jitter <= 1000 /\ t = now - Datetime.timedelta_ms jitter /\
         now - Datetime.timedelta_ms 1000 <= t <= now /\
         Event.event_timestamp e = Datetime.strftime t) evs) /\
  (forall batch_num user_count product_count max_order_id w ords,
     fst (generate_orders_batch batch_num user_count product_count max_order_id w)
       = Val ords ->
     let now := clock (env w) (ticks w) in
     Forall (fun o =>
       exists jitter t,
         0 <= jitter <= 1000 /\ t = now - Datetime.timedelta_ms jitter /\
         now - Datetime.timedelta_ms 1000 <= t <= now /\
         Order.order_timestamp o = Datetime.strftime t /\
         Order.order_date o = Datetime.strftime_date t) ords).
Proof.
  split.
  - intros k uc m w evs H now.
    apply fst_Val in H. apply generate_events_batch_inv in H.
    eapply for_append_Forall; [| exact H].
    intros i w0 e w0' _ He. apply events_batch_body_inv in He.
    destruct He as (_ & _ & _ & (jitter & Hj & Ht) & _).
    exists jitter, (now - Datetime.timedelta_ms jitter).
    unfold Datetime.timedelta_ms. repeat split; try lia. exact Ht.
  - intros k uc pc m w ords H now.
    apply fst_Val in H. apply generate_orders_batch_inv in H.
    eapply for_append_Forall; [| exact H].
    intros i w0 o w0' _ Ho. apply orders_batch_body_inv in Ho.
    destruct Ho as (_ & _ & _ & (jitter & Hj & Ht & Hd)).
    exists jitter, (now - Datetime.timedelta_ms jitter).
    unfold Datetime.timedelta_ms. repeat split; try lia; assumption.
Qed.

Lemma timestamps_within_last_second_sample :
  fst (generate_events_batch 0 5 0 sample_world) = Val sample_events_0 /\
  Forall (fun e =>
    exists jitter t,
      0 <= jitter <= 1000 /\ t = 1700000000000000 - Datetime.timedelta_ms jitter /\
      1700000000000000 - Datetime.timedelta_ms 1000 <= t <= 1700000000000000 /\
      Event.event_timestamp e = Datetime.strftime t) sample_events_0.
Proof.
  split; [vm_compute; reflexivity |].
  apply (proj1 timestamps_within_last_second 0 5 0 sample_world sample_events_0).
  vm_compute; reflexivity.
Defined.

(** ** Revenue *)

Lemma for_append_split {A B} (body : A -> M B) (xs : list A) x ys :
  forall w l w',
    for_append (xs ++ x :: ys) body w = (Val l, w') ->
    exists l1 y l2 w1 w2,
      for_append xs body w = (Val l1, w1) /\ body x w1 = (Val y, w2) /\
      l = (l1 ++ y :: l2)%list /\ List.length l1 = List.length xs.
Proof.
  induction xs as [| x0 xs IH]; cbn [app for_append]; intros w l w' H.
  - step H y w1 Hy. step H l2 w2 Hl2. inversion H; subst.
    exists [], y, l2, w, w1. repeat split; assumption.
  - step H y0 w1 Hy0.
    apply bind_Val_inv in H. destruct H as (l' & w2 & Hl' & H).
    inversion H; subst.
    destruct (IH _ _ _ Hl') as (l1 & y & l2 & wa & wb & H1 & Hy & -> & Hlen).
    exists (y0 :: l1), y, l2, wa, wb.
    rewrite (bind_Val _ _ _ _ _ Hy0), (bind_Val _ _ _ _ _ H1).
    repeat split; try assumption. simpl. f_equal. exact Hlen.
Qed.

Lemma range_split n i :
  (i < n)%nat ->
  range n = (range i ++ Z.of_nat i :: map Z.of_nat (seq (S i) (n - S i)))%list.
Proof.
  intro H. unfold range.
  replace n with (i + S (n - S i))%nat at 1 by lia.
  rewrite seq_app, map_app. reflexivity.
Qed.

(** The revenue of an event is what [event_revenue] returns in the world
    reached by the three draws that precede it in the body of the loop. *)
Lemma events_batch_body_revenue batch_num user_count max_event_id now i w0 e w0' :
  events_batch_body batch_num user_count max_event_id now i w0 = (Val e, w0') ->
  exists wr',
    event_revenue (Event.event_type e) (revenue_world user_count w0)
    = (Val (Event.revenue e), wr').
Proof.
  unfold events_batch_body, revenue_world. intro H.
  step H user_id w1 Hu.
  step H event_type w2 Ht.
  step H jitter w3 Hj.
  step H revenue w4 Hr.
  step H page_url w5 Hp.
  step H device_type w6 Hd.
  step H browser w7 Hb.
  step H country w8 Hc.
  step H duration w9 Hdu.
  inversion H; subst; cbn [Event.event_type Event.revenue].
  rewrite (bind_Val _ _ _ _ _ Hu), (bind_Val _ _ _ _ _ Ht), Hj.
  exists w4. exact Hr.
Qed.

(** Every event of a batch is generated in the world left by the events
    before it. *)
Lemma generate_events_batch_nth batch_num user_count max_event_id w evs i e :
  fst (generate_events_batch batch_num user_count max_event_id w) = Val evs ->
  nth_error evs i = Some e ->
  exists w',
    events_batch_body batch_num user_count max_event_id (clock (env w) (ticks w))
      (Z.of_nat i) (before_event batch_num user_count max_event_id w i)
    = (Val e, w').
Proof.
  intros H Hi. apply fst_Val in H. apply generate_events_batch_inv in H.
  pose proof (for_append_length _ _ _ _ _ H) as Hlen. rewrite range_length in Hlen.
  assert (Hlt : (i < Z.to_nat BATCH_SIZE_EVENTS)%nat).
  { rewrite <- Hlen. apply nth_error_Some. rewrite Hi. discriminate. }
  rewrite (range_split _ _ Hlt) in H.
  apply for_append_split in H.
  destruct H as (l1 & y & l2 & w1 & w2 & H1 & Hy & -> & Hl1).
  rewrite range_length in Hl1.
  rewrite nth_error_app2 in Hi by lia.
  rewrite Hl1, Nat.sub_diag in Hi. injection Hi as ->.
  exists w2. unfold before_event. rewrite H1. exact Hy.
Qed.

(** C8. The revenue of every generated event is decided by [event_revenue]
    at its place in the run: in the world [wr] that the generator has
    reached when the events before it have been generated and the user, the
    type and the jitter of this one have been drawn. For a [purchase] the
    revenue is nonzero and lies in [20, 500]; for an [add_to_cart] it is
    nonzero exactly when the coin, the value [random.random()] returns in
    [wr], is below one half; for every other event type it is exactly 0. *)
Theorem revenue_by_event_type batch_num user_count max_event_id w evs i e :
  fst (generate_events_batch batch_num user_count max_event_id w) = Val evs ->
  nth_error evs i = Some e ->
  let wr := revenue_world user_count
              (before_event batch_num user_count max_event_id w i) in
  fst (event_revenue (Event.event_type e) wr) = Val (Event.revenue e) /\
  (Event.event_type e = "purchase" ->
     ~ (Event.revenue e == 0)%Q /\
     (20 <= Event.revenue e)%Q /\ (Event.revenue e <= 500)%Q) /\
  (Event.event_type e = "add_to_cart" ->
     exists coin, fst (Random.random wr) = Val coin /\
       (~ (Event.revenue e == 0)%Q <-> (coin < 1 # 2)%Q)) /\
  (Event.event_type e <> "purchase" -> Event.event_type e <> "add_to_cart" ->
     Event.revenue e = 0%Q).
Proof.
  intros H Hi wr.
  destruct (generate_events_batch_nth _ _ _ _ _ _ _ H Hi) as (w' & He).
  destruct (events_batch_body_revenue _ _ _ _ _ _ _ _ He) as (wr' & Hr).
  fold wr in Hr.
  destruct (event_revenue_spec _ _ _ _ Hr) as (Hp & Hc & Ho).
  split; [rewrite Hr; reflexivity |].
  split; [exact Hp |]. split; [| exact Ho].
  intro Hty. destruct (Hc Hty) as (coin & w1 & Hcoin & Hiff & _).
  exists coin. split; [rewrite Hcoin; reflexivity | exact Hiff].
Qed.

(** The first batch on the sample world: its first event is an
    [add_to_cart] whose coin fell below one half, its sixteenth an
    [add_to_cart] whose coin did not. *)
Lemma revenue_by_event_type_sample :
  fst (generate_events_batch 0 5 0 sample_world) = Val sample_events_0 /\
  (exists e coin,
     nth_error sample_events_0 0 = Some e /\
     Event.event_type e = "add_to_cart" /\
     fst (Random.random (revenue_world 5 (before_event 0 5 0 sample_world 0)))
       = Val coin /\
     (coin < 1 # 2)%Q /\ ~ (Event.revenue e == 0)%Q) /\
  (exists e coin,
     nth_error sample_events_0 15 = Some e /\
     Event.event_type e = "add_to_cart" /\
     fst (Random.random (revenue_world 5 (before_event 0 5 0 sample_world 15)))
       = Val coin /\
     ~ (coin < 1 # 2)%Q /\ (Event.revenue e == 0)%Q).
Proof.
  assert (Hrun : fst (generate_events_batch 0 5 0 sample_world) = Val sample_events_0)
    by (vm_compute; reflexivity).
  split; [exact Hrun |]. split.
  - destruct (nth_error sample_events_0 0) as [e |] eqn:He; [| discriminate He].
    destruct (revenue_by_event_type 0 5 0 sample_world sample_events_0 0 e Hrun He)
      as (_ & _ & Hc & _).
    assert (Hty : Event.event_type e = "add_to_cart")
      by (injection He as <-; reflexivity).
    destruct (Hc Hty) as (coin & Hcoin & Hiff).
    assert (Hrev : ~ (Event.revenue e == 0)%Q)
      by (injection He as <-; discriminate).
    exists e, coin. repeat split; try assumption. apply Hiff, Hrev.
  - destruct (nth_error sample_events_0 15) as [e |] eqn:He; [| discriminate He].
    destruct (revenue_by_event_type 0 5 0 sample_world sample_events_0 15 e Hrun He)
      as (_ & _ & Hc & _).
    assert (Hty : Event.event_type e = "add_to_cart")
      by (injection He as <-; reflexivity).
    destruct (Hc Hty) as (coin & Hcoin & Hiff).
    assert (Hrev : (Event.revenue e == 0)%Q)
      by (injection He as <-; reflexivity).
    exists e, coin. repeat split; try assumption.
    intro Hlt. apply Hiff in Hlt. apply Hlt, Hrev.
Defined.

Section Frames.

Variable sel : effect -> bool.
Variable rnd : bool.


Lemma frame_refl w : frame sel rnd w w.
Proof. unfold frame. auto. Qed.

Lemma frame_trans w1 w2 w3 : frame sel rnd w1 w2 -> frame sel rnd w2 w3 -> frame sel rnd w1 w3.
Proof.
  unfold frame. intros (E1 & R1 & F1 & D1) (E2 & R2 & F2 & D2).
  repeat split.
  - congruence.
  - auto.
  - congruence.
  - intro H. rewrite (D2 H). auto.
Qed.


Lemma keeps_ret {A} (a : A) : keeps sel rnd (ret a).
Proof. intro w. split; [apply frame_refl | exact Logic.I]. Qed.

Lemma keeps_raise {A} e : is_Exception e = true -> keeps sel rnd (@raise A e).
Proof. intros He w. split; [apply frame_refl | exact He]. Qed.

Lemma keeps_bind {A B} (m : M A) (f : A -> M B) :
  keeps sel rnd m -> (forall a, keeps sel rnd (f a)) -> keeps sel rnd (bind m f).
Proof.
  intros Hm Hf w. specialize (Hm w). unfold bind.
  destruct (m w) as [[a | e | ] w1]; simpl in Hm.
  - destruct Hm as [Hfr _]. specialize (Hf a w1).
    destruct Hf as [Hfr' Ht]. split; [eapply frame_trans; eassumption | exact Ht].
  - exact Hm.
  - exact Hm.
Qed.

Lemma keeps_if {A} (b : bool) (m1 m2 : M A) :
  keeps sel rnd m1 -> keeps sel rnd m2 -> keeps sel rnd (if b then m1 else m2).
Proof. destruct b; auto. Qed.

Lemma keeps_try_except {A} (body : M A) handler :
  keeps sel rnd body -> (forall e, keeps sel rnd (handler e)) -> keeps sel rnd (try_except body handler).
Proof.
  intros Hb Hh w. specialize (Hb w). unfold try_except.
  destruct (body w) as [[a | e | ] w1]; simpl in Hb; try exact Hb.
  destruct Hb as [Hfr He]. rewrite He.
  destruct (Hh e w1) as [Hfr' Ht].
  split; [eapply frame_trans; eassumption | exact Ht].
Qed.

Lemma keeps_try_except_all {A} (body handler : M A) :
  keeps sel rnd body -> keeps sel rnd handler -> keeps sel rnd (try_except_all body handler).
Proof.
  intros Hb Hh w. specialize (Hb w). unfold try_except_all.
  destruct (body w) as [[a | e | ] w1]; simpl in Hb; try exact Hb.
  destruct Hb as [Hfr He]. destruct (Hh w1) as [Hfr' Ht].
  split; [eapply frame_trans; eassumption | exact Ht].
Qed.

Lemma keeps_for_append {A B} (xs : list A) (body : A -> M B) :
  (forall x, keeps sel rnd (body x)) -> keeps sel rnd (for_append xs body).
Proof.
  intro Hb. induction xs as [| x rest IH]; simpl.
  - apply keeps_ret.
  - apply keeps_bind; [apply Hb |]. intro y.
    apply keeps_bind; [exact IH |]. intro ys. apply keeps_ret.
Qed.

Lemma keeps_get_self : keeps sel rnd get_self.
Proof. intro w. split; [apply frame_refl | exact Logic.I]. Qed.

Lemma keeps_time_time : keeps sel rnd time_time.
Proof. intro w. split; [| exact Logic.I]. unfold frame; simpl. auto. Qed.

Lemma keeps_datetime_now : keeps sel rnd datetime_now.
Proof. intro w. split; [| exact Logic.I]. unfold frame; simpl. auto. Qed.

Lemma keeps_print m : sel (Printed m) = false -> keeps sel rnd (print m).
Proof.
  intros Hm w. split; [| exact Logic.I]. unfold frame; simpl. rewrite Hm. auto.
Qed.

Lemma keeps_time_sleep d : sel (Slept d) = false -> keeps sel rnd (time_sleep d).
Proof.
  intros Hd w. split; [| exact Logic.I]. unfold frame; simpl. rewrite Hd. auto.
Qed.

(** Updating the object keeps sel rnd the frame sel rnd when it cannot set [running]. *)
Lemma keeps_update (f : Streamer -> Streamer) :
  (forall s, running s = false -> running (f s) = false) ->
  keeps sel rnd (s <- get_self ;; put_self (f s)).
Proof.
  intros Hf w. split; [| exact Logic.I]. unfold frame; simpl. auto.
Qed.

Lemma keeps_requests_post q : sel (Posted q) = false -> keeps sel rnd (requests_post q).
Proof.
  intros Hq w. unfold requests_post.
  destruct (sink (env w) (posts w) q); simpl.
  - split; [| exact Logic.I]. unfold frame; simpl. rewrite Hq. auto.
  - split; [| reflexivity]. unfold frame; simpl. rewrite Hq. auto.
Qed.

Lemma keeps_raise_for_status r : keeps sel rnd (raise_for_status r).
Proof.
  unfold raise_for_status. apply keeps_if; [apply keeps_raise; reflexivity | apply keeps_ret].
Qed.

Hypothesis sel_print : forall m, m <> StreamingStopped -> sel (Printed m) = false.

Lemma keeps_execute_query q : sel (Posted q) = false -> keeps sel rnd (execute_query q).
Proof.
  intro Hq. unfold execute_query. apply keeps_try_except.
  - apply keeps_bind; [apply keeps_requests_post; exact Hq |]. intro r.
    apply keeps_bind; [apply keeps_raise_for_status |]. intros _. apply keeps_ret.
  - intro e. apply keeps_bind; [| intros _; apply keeps_ret].
    apply keeps_print. apply sel_print. discriminate.
Qed.

Lemma keeps_int_of_str s : keeps sel rnd (int_of_str s).
Proof.
  unfold int_of_str. destruct (Py.int s); [apply keeps_ret | apply keeps_raise; reflexivity].
Qed.

Lemma keeps_int_or_0 s : keeps sel rnd (int_or_0 s).
Proof. unfold int_or_0. apply keeps_if; [apply keeps_int_of_str | apply keeps_ret]. Qed.

Lemma keeps_get_table_count table :
  sel (Posted ("SELECT count() FROM " ++ table)) = false ->
  keeps sel rnd (get_table_count table).
Proof.
  intro Hq. unfold get_table_count. apply keeps_try_except_all; [| apply keeps_ret].
  apply keeps_bind; [apply keeps_execute_query; exact Hq |]. intro r.
  apply keeps_if; [apply keeps_int_of_str | apply keeps_ret].
Qed.

Lemma keeps_show_throughput_stats :
  (forall table, sel (Posted ("SELECT count() FROM " ++ table)) = false) ->
  keeps sel rnd show_throughput_stats.
Proof.
  intro Hq. unfold show_throughput_stats.
  apply keeps_bind; [apply keeps_time_time |]. intro now.
  apply keeps_bind; [apply keeps_get_self |]. intro s.
  apply keeps_bind; [apply keeps_print, sel_print; discriminate |]. intros _.
  apply keeps_bind; [apply keeps_get_table_count, Hq |]. intro te.
  apply keeps_bind; [apply keeps_get_table_count, Hq |]. intro to.
  apply keeps_print, sel_print; discriminate.
Qed.

Lemma keeps_signal_handler signum : keeps sel rnd (signal_handler signum).
Proof.
  unfold signal_handler.
  apply keeps_bind; [apply keeps_print, sel_print; discriminate |]. intros _.
  apply keeps_update. reflexivity.
Qed.

Lemma keeps_deliver_signals stage : keeps sel rnd (deliver_signals stage).
Proof.
  intro w. unfold deliver_signals.
  destruct (signals (env w) stage) as [signum |].
  - apply keeps_signal_handler.
  - split; [apply frame_refl | exact Logic.I].
Qed.

Lemma keeps_insert_events events :
  (forall q, String.prefix "INSERT INTO events" q = true -> sel (Posted q) = false) ->
  keeps sel rnd (insert_events events).
Proof.
  intro Hq. unfold insert_events. destruct events as [| e rest]; [apply keeps_ret |].
  apply keeps_bind; [apply keeps_execute_query, Hq; reflexivity |]. intro result.
  apply keeps_bind; [| intros _; apply keeps_ret].
  apply keeps_if; [| apply keeps_ret].
  apply keeps_update. intros s Hs. exact Hs.
Qed.

Lemma keeps_insert_orders orders :
  (forall q, String.prefix "INSERT INTO orders" q = true -> sel (Posted q) = false) ->
  keeps sel rnd (insert_orders orders).
Proof.
  intro Hq. unfold insert_orders. destruct orders as [| o rest]; [apply keeps_ret |].
  apply keeps_bind; [apply keeps_execute_query, Hq; reflexivity |]. intro result.
  apply keeps_bind; [| intros _; apply keeps_ret].
  apply keeps_if; [| apply keeps_ret].
  apply keeps_update. intros s Hs. exact Hs.
Qed.

Lemma keeps_quick_status k es os : keeps sel rnd (quick_status k es os).
Proof.
  unfold quick_status. apply keeps_bind; [apply keeps_datetime_now |]. intro ts.
  apply keeps_print, sel_print. destruct (es && os); discriminate.
Qed.

Lemma keeps_periodic_stats last :
  (forall table, sel (Posted ("SELECT count() FROM " ++ table)) = false) ->
  keeps sel rnd (periodic_stats last).
Proof.
  intro Hq. unfold periodic_stats.
  apply keeps_bind; [apply keeps_time_time |]. intro t.
  apply keeps_if; [| apply keeps_ret].
  apply keeps_bind; [apply keeps_show_throughput_stats, Hq |]. intros _.
  apply keeps_time_time.
Qed.

Lemma keeps_maintain_interval cycle_start :
  (forall d, sel (Slept d) = false) -> keeps sel rnd (maintain_interval cycle_start).
Proof.
  intro Hs. unfold maintain_interval.
  apply keeps_bind; [apply keeps_time_time |]. intro t.
  apply keeps_if; [apply keeps_time_sleep, Hs | apply keeps_ret].
Qed.

End Frames.

Lemma keeps_allow_draws {A} sel (m : M A) : keeps sel false m -> keeps sel true m.
Proof.
  intros H w. destruct (H w) as [(E & R & F & _) T].
  split; [| exact T]. unfold frame. repeat split; auto. discriminate.
Qed.

(** The generators leave the trace alone whatever is selected. *)
Section GeneratorFrames.

Variable sel : effect -> bool.

Lemma keeps_raw : keeps sel true Random.raw.
Proof.
  intro w. split; [| exact Logic.I]. unfold frame; simpl.
  repeat split; auto. discriminate.
Qed.

Lemma keeps_randbelow n : keeps sel true (Random.randbelow n).
Proof.
  unfold Random.randbelow. apply keeps_bind; [apply keeps_raw |].
  intro r. apply keeps_ret.
Qed.

Lemma keeps_random : keeps sel true Random.random.
Proof.
  unfold Random.random. apply keeps_bind; [apply keeps_raw |].
  intro r. apply keeps_ret.
Qed.

Lemma keeps_randint a b : keeps sel true (Random.randint a b).
Proof.
  unfold Random.randint. apply keeps_if; [| apply keeps_raise; reflexivity].
  apply keeps_bind; [apply keeps_randbelow |]. intro k. apply keeps_ret.
Qed.

Lemma keeps_uniform a b : keeps sel true (Random.uniform a b).
Proof.
  unfold Random.uniform. apply keeps_bind; [apply keeps_random |].
  intro u. apply keeps_ret.
Qed.

Lemma keeps_choice {A} (seq : list A) : keeps sel true (Random.choice seq).
Proof.
  unfold Random.choice. destruct seq as [| x rest]; [apply keeps_raise; reflexivity |].
  apply keeps_bind; [apply keeps_randbelow |]. intro i.
  destruct (nth_error _ _); [apply keeps_ret | apply keeps_raise; reflexivity].
Qed.

Lemma keeps_choices {A} (population : list A) weights :
  keeps sel true (Random.choices population weights).
Proof.
  unfold Random.choices. apply keeps_if; [apply keeps_raise; reflexivity |].
  destruct (List.rev _) as [| total before]; [apply keeps_raise; reflexivity |].
  destruct (total ?= 0)%Q; try (apply keeps_raise; reflexivity).
  apply keeps_bind; [apply keeps_random |]. intro u.
  destruct (nth_error _ _); [apply keeps_ret | apply keeps_raise; reflexivity].
Qed.

Lemma keeps_event_revenue event_type : keeps sel true (event_revenue event_type).
Proof.
  unfold event_revenue. apply keeps_if.
  - apply keeps_bind; [apply keeps_uniform |]. intro u. apply keeps_ret.
  - apply keeps_if; [| apply keeps_ret].
    apply keeps_bind; [apply keeps_random |]. intro coin.
    apply keeps_if; [| apply keeps_ret].
    apply keeps_bind; [apply keeps_uniform |]. intro u. apply keeps_ret.
Qed.

Lemma keeps_events_batch_body k uc m now i :
  keeps sel true (events_batch_body k uc m now i).
Proof.
  unfold events_batch_body.
  apply keeps_bind; [apply keeps_randint |]. intro user_id.
  apply keeps_bind; [apply keeps_choices |]. intro event_type.
  apply keeps_bind; [apply keeps_randint |]. intro jitter.
  apply keeps_bind; [apply keeps_event_revenue |]. intro revenue.
  apply keeps_bind; [apply keeps_if; [apply keeps_choice | apply keeps_ret] |].
  intro page_url.
  apply keeps_bind; [apply keeps_choice |]. intro device_type.
  apply keeps_bind; [apply keeps_choice |]. intro browser.
  apply keeps_bind; [apply keeps_choice |]. intro country.
  apply keeps_bind; [apply keeps_randint |]. intro duration.
  apply keeps_ret.
Qed.

Lemma keeps_orders_batch_body k uc pc m now i :
  keeps sel true (orders_batch_body k uc pc m now i).
Proof.
  unfold orders_batch_body.
  apply keeps_bind; [apply keeps_randint |]. intro user_id.
  apply keeps_bind; [apply keeps_randint |]. intro product_id.
  apply keeps_bind; [apply keeps_choices |]. intro quantity.
  apply keeps_bind; [apply keeps_randint |]. intro jitter.
  apply keeps_bind; [apply keeps_choices |]. intro status.
  apply keeps_bind; [apply keeps_random |]. intro coin.
  apply keeps_bind.
  { apply keeps_if; (apply keeps_bind; [apply keeps_uniform |]); intro u; apply keeps_ret. }
  intro total_amount.
  apply keeps_bind; [apply keeps_choice |]. intro payment_method.
  apply keeps_ret.
Qed.

Lemma keeps_generate_events_batch k uc m :
  keeps sel true (generate_events_batch k uc m).
Proof.
  unfold generate_events_batch.
  apply keeps_bind; [apply keeps_datetime_now |]. intro now.
  apply keeps_for_append. intro i. apply keeps_events_batch_body.
Qed.

Lemma keeps_generate_orders_batch k uc pc m :
  keeps sel true (generate_orders_batch k uc pc m).
Proof.
  unfold generate_orders_batch.
  apply keeps_bind; [apply keeps_datetime_now |]. intro now.
  apply keeps_for_append. intro i. apply keeps_orders_batch_body.
Qed.

Lemma keeps_generate_data k uc pc me mo :
  keeps sel true (generate_data k uc pc me mo).
Proof.
  unfold generate_data.
  apply keeps_bind; [apply keeps_generate_events_batch |]. intro events.
  apply keeps_bind; [apply keeps_generate_orders_batch |]. intro orders.
  apply keeps_ret.
Qed.

End GeneratorFrames.

(** ** Selectors *)

Lemma posted_prefix_print p m : is_posted_prefix p (Printed m) = false.
Proof. reflexivity. Qed.

Lemma is_stopped_print m : m <> StreamingStopped -> is_stopped (Printed m) = false.
Proof. destruct m; try reflexivity. intro H. contradiction H. reflexivity. Qed.

Lemma is_sleep_print m : is_sleep (Printed m) = false.
Proof. reflexivity. Qed.

Lemma frame_count p rnd w w' :
  frame (is_posted_prefix p) rnd w w' ->
  count_posted p (trace w') = count_posted p (trace w).
Proof. intros (_ & _ & F & _). unfold count_posted. rewrite F. reflexivity. Qed.

Lemma frame_stopped rnd w w' :
  frame is_stopped rnd w w' -> stopped_count (trace w') = stopped_count (trace w).
Proof. intros (_ & _ & F & _). unfold stopped_count. rewrite F. reflexivity. Qed.

Lemma frame_sleeps rnd w w' :
  frame is_sleep rnd w w' -> sleeps (trace w') = sleeps (trace w).
Proof. intros (_ & _ & F & _). exact F. Qed.

Lemma frame_env sel rnd w w' : frame sel rnd w w' -> env w' = env w.
Proof. intros (E & _). exact E. Qed.

Lemma frame_draws sel w w' : frame sel false w w' -> draws w' = draws w.
Proof. intros (_ & _ & _ & D). apply D. reflexivity. Qed.

(** ** Queries *)

Lemma execute_query_ok q w status body :
  sink (env w) (posts w) q = Response status body ->
  (400 <=? status) && (status <? 600) = false ->
  execute_query q w = (Val (Py.strip body), with_effect (Posted q) (next_post w)).
Proof.
  intros Hs Hst. unfold execute_query, try_except, bind, requests_post, raise_for_status.
  rewrite Hs. simpl. rewrite Hst. reflexivity.
Qed.

(** A status in 400..599 is logged and turned into the empty string. *)
Lemma execute_query_http_error q w status body :
  sink (env w) (posts w) q = Response status body ->
  (400 <=? status) && (status <? 600) = true ->
  execute_query q w =
  (Val "", with_effect (Printed (QueryFailed (HTTPError status)))
             (with_effect (Posted q) (next_post w))).
Proof.
  intros Hs Hst. unfold execute_query, try_except, bind, requests_post, raise_for_status.
  rewrite Hs. simpl. rewrite Hst. reflexivity.
Qed.

(** A failure of the transport is logged and turned into the empty string. *)
Lemma execute_query_transport_error q w msg :
  sink (env w) (posts w) q = Failure msg ->
  execute_query q w =
  (Val "", with_effect (Printed (QueryFailed (RequestException msg)))
             (with_effect (Posted q) (next_post w))).
Proof.
  intros Hs. unfold execute_query, try_except, bind, requests_post.
  rewrite Hs. reflexivity.
Qed.

(** [execute_query] always returns a string, leaves the object alone and
    puts exactly its statement on the wire. *)
Lemma execute_query_run q w :
  exists s w', execute_query q w = (Val s, w') /\
    self w' = self w /\ env w' = env w /\ draws w' = draws w /\
    ticks w' = ticks w /\
    forall sel, (forall m, m <> StreamingStopped -> sel (Printed m) = false) ->
      filter sel (trace w') = ((if sel (Posted q) then [Posted q] else []) ++
                               filter sel (trace w))%list.
Proof.
  destruct (sink (env w) (posts w) q) as [status body | msg] eqn:Hs.
  - destruct ((400 <=? status) && (status <? 600)) eqn:Hst.
    + eexists _, _. split; [apply (execute_query_http_error q w status body Hs Hst) |].
      simpl. repeat split; try reflexivity.
      intros sel Hp. rewrite Hp by discriminate.
      destruct (sel (Posted q)); reflexivity.
    + eexists _, _. split; [apply (execute_query_ok q w status body Hs Hst) |].
      simpl. repeat split; try reflexivity.
      intros sel Hp. destruct (sel (Posted q)); reflexivity.
  - eexists _, _. split; [apply (execute_query_transport_error q w msg Hs) |].
    simpl. repeat split; try reflexivity.
    intros sel Hp. rewrite Hp by discriminate.
    destruct (sel (Posted q)); reflexivity.
Qed.

(** A row count is always returned; text that is not a number counts as 0. *)
Lemma get_table_count_run table w :
  exists n, fst (get_table_count table w) = Val n.
Proof.
  unfold get_table_count, try_except_all.
  destruct (execute_query_run ("SELECT count() FROM " ++ table) w)
    as (s & w1 & Hq & _).
  rewrite (bind_Val _ _ _ _ _ Hq).
  destruct (Py.truthy s).
  - unfold int_of_str. destruct (Py.int s); eexists; reflexivity.
  - eexists; reflexivity.
Qed.

Lemma get_table_count_unparseable table w s w1 :
  execute_query ("SELECT count() FROM " ++ table) w = (Val s, w1) ->
  Py.int s = None ->
  get_table_count table w = (Val 0, w1).
Proof.
  intros Hq Hs. unfold get_table_count, try_except_all.
  rewrite (bind_Val _ _ _ _ _ Hq). unfold int_of_str. rewrite Hs.
  destruct (Py.truthy s); reflexivity.
Qed.

Lemma show_throughput_stats_run w : fst (show_throughput_stats w) = Val tt.
Proof.
  unfold show_throughput_stats.
  unfold bind at 1. unfold time_time at 1.
  unfold bind at 1. unfold get_self at 1.
  unfold bind at 1. unfold print at 1.
  set (w1 := with_effect _ _).
  unfold bind at 1.
  destruct (get_table_count_run "events" w1) as (te & Hte).
  destruct (get_table_count "events" w1) as [r1 w2]. simpl in Hte. subst r1.
  unfold bind at 1.
  destruct (get_table_count_run "orders" w2) as (to & Hto).
  destruct (get_table_count "orders" w2) as [r2 w3]. simpl in Hto. subst r2.
  reflexivity.
Qed.

(** ** Bulk inserts *)

(** What the inserter itself decides: its verdict is whether
    [execute_query] came back with the empty string, and the counter of the
    batch's type grows by the batch size exactly when that verdict is
    success. *)
Lemma insert_events_run events w :
  events <> [] ->
  exists result b w',
    fst (execute_query
           ("INSERT INTO events (event_id, user_id, event_type, event_timestamp, page_url, session_id, device_type, browser, country, duration_seconds, revenue) VALUES "
            ++ Py.join ", " (map event_values events)) w) = Val result /\
    b = (result =? "")%string /\
    insert_events events w = (Val b, w') /\
    total_events_inserted (self w') =
      total_events_inserted (self w) + (if b then Z.of_nat (List.length events) else 0) /\
    total_orders_inserted (self w') = total_orders_inserted (self w) /\
    event_inserts w' = S (event_inserts w) /\
    order_inserts w' = order_inserts w.
Proof.
  intro Hne. destruct events as [| e rest]; [contradiction |].
  unfold insert_events.
  set (q := (_ ++ Py.join ", " _)%string).
  destruct (execute_query_run q w) as (s & w1 & Hq & Hself & _ & _ & _ & Hsel).
  rewrite Hq. exists s, (s =? "")%string.
  rewrite (bind_Val _ _ _ _ _ Hq). cbn zeta.
  assert (Hev : event_inserts w1 = S (event_inserts w)).
  { unfold event_inserts, count_posted.
    rewrite (Hsel (is_posted_prefix "INSERT INTO events")) by reflexivity.
    reflexivity. }
  assert (Hord : order_inserts w1 = order_inserts w).
  { unfold order_inserts, count_posted.
    rewrite (Hsel (is_posted_prefix "INSERT INTO orders")) by reflexivity.
    reflexivity. }
  destruct (s =? "")%string.
  - eexists. split; [reflexivity |]. split; [reflexivity |].
    split; [reflexivity |]. simpl. rewrite Hself.
    repeat split; try reflexivity; assumption.
  - eexists. split; [reflexivity |]. split; [reflexivity |].
    split; [reflexivity |]. simpl. rewrite Hself.
    repeat split; try assumption; lia.
Qed.

Lemma insert_orders_run orders w :
  orders <> [] ->
  exists result b w',
    fst (execute_query
           ("INSERT INTO orders (order_id, user_id, product_id, quantity, order_date, order_timestamp, total_amount, status, payment_method) VALUES "
            ++ Py.join ", " (map order_values orders)) w) = Val result /\
    b = (result =? "")%string /\
    insert_orders orders w = (Val b, w') /\
    total_orders_inserted (self w') =
      total_orders_inserted (self w) + (if b then Z.of_nat (List.length orders) else 0) /\
    total_events_inserted (self w') = total_events_inserted (self w) /\
    order_inserts w' = S (order_inserts w) /\
    event_inserts w' = event_inserts w.
Proof.
  intro Hne. destruct orders as [| o rest]; [contradiction |].
  unfold insert_orders.
  set (q := (_ ++ Py.join ", " _)%string).
  destruct (execute_query_run q w) as (s & w1 & Hq & Hself & _ & _ & _ & Hsel).
  rewrite Hq. exists s, (s =? "")%string.
  rewrite (bind_Val _ _ _ _ _ Hq). cbn zeta.
  assert (Hord : order_inserts w1 = S (order_inserts w)).
  { unfold order_inserts, count_posted.
    rewrite (Hsel (is_posted_prefix "INSERT INTO orders")) by reflexivity.
    reflexivity. }
  assert (Hev : event_inserts w1 = event_inserts w).
  { unfold event_inserts, count_posted.
    rewrite (Hsel (is_posted_prefix "INSERT INTO events")) by reflexivity.
    reflexivity. }
  destruct (s =? "")%string.
  - eexists. split; [reflexivity |]. split; [reflexivity |].
    split; [reflexivity |]. simpl. rewrite Hself.
    repeat split; try reflexivity; assumption.
  - eexists. split; [reflexivity |]. split; [reflexivity |].
    split; [reflexivity |]. simpl. rewrite Hself.
    repeat split; try assumption; lia.
Qed.

(** A request that failed comes back from [execute_query] as the empty
    string, which is also what an acknowledged write comes back as. *)
Lemma execute_query_failed q w :
  request_failed (sink (env w) (posts w) q) = true ->
  exists w', execute_query q w = (Val "", w') /\ self w' = self w.
Proof.
  intro H. destruct (sink (env w) (posts w) q) as [status body | msg] eqn:Hs.
  - eexists. split; [apply (execute_query_http_error q w status body Hs H) |].
    reflexivity.
  - eexists. split; [apply (execute_query_transport_error q w msg Hs) |].
    reflexivity.
Qed.

(** Whatever the batch, a failed request makes [insert_events] return true
    and count the batch. *)
Lemma insert_events_failed_request events w :
  events <> [] ->
  (forall q, request_failed (sink (env w) (posts w) q) = true) ->
  fst (insert_events events w) = Val true /\
  total_events_inserted (self (snd (insert_events events w))) =
    total_events_inserted (self w) + Z.of_nat (List.length events).
Proof.
  intros Hne Hfail. destruct events as [| e rest]; [contradiction |].
  unfold insert_events.
  set (q := (_ ++ Py.join ", " _)%string).
  destruct (execute_query_failed q w (Hfail q)) as (w1 & Hq & Hself).
  rewrite (bind_Val _ _ _ _ _ Hq). cbn. rewrite Hself. split; reflexivity.
Qed.

Lemma insert_orders_failed_request orders w :
  orders <> [] ->
  (forall q, request_failed (sink (env w) (posts w) q) = true) ->
  fst (insert_orders orders w) = Val true /\
  total_orders_inserted (self (snd (insert_orders orders w))) =
    total_orders_inserted (self w) + Z.of_nat (List.length orders).
Proof.
  intros Hne Hfail. destruct orders as [| o rest]; [contradiction |].
  unfold insert_orders.
  set (q := (_ ++ Py.join ", " _)%string).
  destruct (execute_query_failed q w (Hfail q)) as (w1 & Hq & Hself).
  rewrite (bind_Val _ _ _ _ _ Hq). cbn. rewrite Hself. split; reflexivity.
Qed.

(** C1. A bulk write that fails should leave the cumulative counter
    unchanged. On a sink that cannot be reached the write of a full batch
    fails in the transport, [execute_query] logs the failure, and yet
    [insert_events] adds the 100 events of the batch to
    [total_events_inserted] and [insert_orders] adds the 20 orders to
    [total_orders_inserted]; the same happens when the sink rejects the
    statement with status 500. *)
Theorem failed_write_is_counted :
  let w := world_of (env_with_sink unreachable_sink) in
  let w500 := world_of (env_with_sink rejecting_sink) in
  total_events_inserted (self w) = 0 /\
  total_orders_inserted (self w) = 0 /\
  List.length sample_events_0 = 100%nat /\
  List.length sample_orders_0 = 20%nat /\
  hd_error (trace (snd (insert_events sample_events_0 w)))
    = Some (Printed (QueryFailed (RequestException "Connection refused"))) /\
  total_events_inserted (self (snd (insert_events sample_events_0 w))) = 100 /\
  total_orders_inserted (self (snd (insert_orders sample_orders_0 w))) = 20 /\
  hd_error (trace (snd (insert_events sample_events_0 w500)))
    = Some (Printed (QueryFailed (HTTPError 500))) /\
  total_events_inserted (self (snd (insert_events sample_events_0 w500))) = 100 /\
  total_orders_inserted (self (snd (insert_orders sample_orders_0 w500))) = 20.
Proof. vm_compute. repeat split; reflexivity. Qed.

(** C2. A transport error or a non-success HTTP status should make the
    inserters return false. [execute_query] turns both into the empty
    string, which the inserters read as the acknowledgement of a successful
    write: on the unreachable sink and on the sink answering 500 both
    inserters return true for a full batch. Only a body that is not empty
    under a success status makes them return false. *)
Theorem transport_error_reported_as_success :
  let w := world_of (env_with_sink unreachable_sink) in
  let w500 := world_of (env_with_sink rejecting_sink) in
  let w200 := world_of (env_with_sink chatty_sink) in
  fst (execute_query "INSERT INTO events VALUES (1)" w) = Val "" /\
  fst (insert_events sample_events_0 w) = Val true /\
  fst (insert_orders sample_orders_0 w) = Val true /\
  fst (insert_events sample_events_0 w500) = Val true /\
  fst (insert_orders sample_orders_0 w500) = Val true /\
  fst (insert_events sample_events_0 w200) = Val false /\
  fst (insert_orders sample_orders_0 w200) = Val false.
Proof. vm_compute. repeat split; reflexivity. Qed.

(** ** Scalar answers *)

(** Whenever the sink answers the query for the maximum event id with text
    that [int] does not accept, the turn raises [ValueError]. *)
Lemma cycle_unparseable_max_id k uc pc last w status body :
  sink (env w) (posts w) "SELECT max(event_id) FROM events" = Response status body ->
  (400 <=? status) && (status <? 600) = false ->
  Py.truthy (Py.strip body) = true ->
  Py.int (Py.strip body) = None ->
  exists msg w', cycle k uc pc last w = (Exc (ValueError msg), w').
Proof.
  intros Hs Hst Ht Hi. unfold cycle.
  rewrite (bind_Val time_time _ w _ _ eq_refl).
  pose proof (execute_query_ok "SELECT max(event_id) FROM events" (next_tick w)
                status body Hs Hst) as Hq.
  eexists _, _. apply bind_Exc. unfold current_max_ids.
  rewrite (bind_Val _ _ _ _ _ Hq).
  apply bind_Exc. unfold int_or_0, int_of_str. rewrite Ht, Hi. reflexivity.
Qed.

(** C4. An answer to a scalar query that is not a number should count as 0
    without ending the loop. [get_table_count] does so, and the empty answer
    is taken as 0 everywhere; but the answers to [max(event_id)] and
    [max(order_id)] go through [int(... or 0)] with nothing around it: when
    the sink answers [abc] to the first of them, [int] raises [ValueError]
    in the first turn, the handler of [run] reports an unexpected error and
    the loop is over before any batch was generated or inserted, although
    no shutdown was asked for. *)
Theorem unparseable_max_id_ends_the_loop :
  let w := world_of (env_with_sink garbled_sink) in
  let wc := world_of (env_with_sink garbled_count_sink) in
  fst (get_table_count "events" wc) = Val 0 /\
  fst (int_or_0 "" w) = Val 0 /\
  fst (int_or_0 "abc" w)
    = Exc (ValueError "invalid literal for int() with base 10") /\
  fst (run 3 w) = Val tt /\
  In (Printed (UnexpectedError
                 (ValueError "invalid literal for int() with base 10")))
     (trace (snd (run 3 w))) /\
  running (self (snd (run 3 w))) = true /\
  cycles_begun (snd (run 3 w)) = 1%nat /\
  draws (snd (run 3 w)) = 0%nat /\
  event_inserts (snd (run 3 w)) = 0%nat /\
  order_inserts (snd (run 3 w)) = 0%nat.
Proof.
  vm_compute. repeat split; try reflexivity.
  right. right. right. right. right. left. reflexivity.
Qed.

(** ** One turn of the loop *)

Section CycleFrames.

Variable sel : effect -> bool.
Hypothesis sel_print : forall m, m <> StreamingStopped -> sel (Printed m) = false.
Hypothesis sel_count :
  forall table, sel (Posted ("SELECT count() FROM " ++ table)) = false.

Lemma keeps_current_max_ids :
  sel (Posted "SELECT max(event_id) FROM events") = false ->
  sel (Posted "SELECT max(order_id) FROM orders") = false ->
  keeps sel false current_max_ids.
Proof.
  intros He Ho. unfold current_max_ids.
  apply keeps_bind; [apply keeps_execute_query; assumption |]. intro r1.
  apply keeps_bind; [apply keeps_int_or_0 |]. intro m1.
  apply keeps_bind; [apply keeps_execute_query; assumption |]. intro r2.
  apply keeps_bind; [apply keeps_int_or_0 |]. intro m2.
  apply keeps_ret.
Qed.

Lemma keeps_insert_in_parallel events orders :
  (forall q, String.prefix "INSERT INTO events" q = true -> sel (Posted q) = false) ->
  (forall q, String.prefix "INSERT INTO orders" q = true -> sel (Posted q) = false) ->
  keeps sel false (insert_in_parallel events orders).
Proof.
  intros He Ho. unfold insert_in_parallel.
  apply keeps_bind; [apply keeps_insert_events; assumption |]. intro b1.
  apply keeps_bind; [apply keeps_insert_orders; assumption |]. intro b2.
  apply keeps_ret.
Qed.

(** What follows the inserts in a turn: status line, periodic statistics
    and pacing. *)
Lemma keeps_after_inserts k es os last cycle_start :
  (forall d, sel (Slept d) = false) ->
  keeps sel false
    (quick_status k es os ;;
     last' <- periodic_stats last ;;
     maintain_interval cycle_start ;;
     ret last').
Proof.
  intro Hs.
  apply keeps_bind; [apply keeps_quick_status; assumption |]. intros _.
  apply keeps_bind; [apply keeps_periodic_stats; assumption |]. intro last'.
  apply keeps_bind; [apply keeps_maintain_interval; assumption |]. intros _.
  apply keeps_ret.
Qed.

End CycleFrames.

Lemma bind_then {A B} sel rnd (m : M A) (f : A -> M B) w :
  (forall a, keeps sel rnd (f a)) ->
  frame sel rnd (snd (m w)) (snd (bind m f w)).
Proof.
  intro Hf. unfold bind. destruct (m w) as [[a | e | ] w1]; simpl.
  - apply Hf.
  - apply frame_refl.
  - apply frame_refl.
Qed.

(** No part of a turn prints the line of the final block. *)
Lemma keeps_cycle_stopped k uc pc last : keeps is_stopped true (cycle k uc pc last).
Proof.
  unfold cycle.
  apply keeps_bind; [apply keeps_time_time |]. intro cycle_start.
  apply keeps_bind.
  { apply keeps_allow_draws, keeps_current_max_ids;
      [exact is_stopped_print | reflexivity | reflexivity]. }
  intro ids.
  apply keeps_bind; [apply keeps_generate_data |]. intro data.
  apply keeps_bind.
  { apply keeps_allow_draws, keeps_insert_in_parallel;
      [exact is_stopped_print | reflexivity | reflexivity]. }
  intro success.
  apply keeps_allow_draws, keeps_after_inserts;
    [exact is_stopped_print | reflexivity | reflexivity].
Qed.

(** A turn asks for the maximum event id exactly once, whatever happens
    next. *)
Lemma cycle_begins_once k uc pc last w :
  cycles_begun (snd (cycle k uc pc last w)) = S (cycles_begun w).
Proof.
  unfold cycle.
  rewrite (bind_Val _ _ w _ _ (eq_refl : time_time w = (_, next_tick w))).
  set (w1 := next_tick w).
  assert (Hrest : frame sel_cycle true (snd (current_max_ids w1))
            (snd (bind current_max_ids
                    (fun ids =>
                       data <- generate_data k uc pc (fst ids) (snd ids) ;;
                       success <- insert_in_parallel (fst data) (snd data) ;;
                       quick_status k (fst success) (snd success) ;;
                       last' <- periodic_stats last ;;
                       maintain_interval (clock (env w) (ticks w) # 1000000) ;;
                       ret last') w1))).
  { apply bind_then. intro ids.
    apply keeps_bind; [apply keeps_generate_data |]. intro data.
    apply keeps_bind.
    { apply keeps_allow_draws, keeps_insert_in_parallel;
        [reflexivity | | ]; intros q Hq; destruct q as [| [[] [] [] [] [] [] [] []] q];
        try discriminate Hq; reflexivity. }
    intro success.
    apply keeps_allow_draws, keeps_after_inserts; reflexivity. }
  apply frame_count in Hrest. unfold cycles_begun at 1. rewrite Hrest.
  clear Hrest. unfold current_max_ids.
  pose proof (bind_then sel_cycle false
                (execute_query "SELECT max(event_id) FROM events")
                (fun r_events =>
                   max_event_id <- int_or_0 r_events ;;
                   r_orders <- execute_query "SELECT max(order_id) FROM orders" ;;
                   max_order_id <- int_or_0 r_orders ;;
                   ret (max_event_id, max_order_id)) w1) as Hids.
  apply frame_count in Hids.
  - rewrite Hids.
    destruct (execute_query_run "SELECT max(event_id) FROM events" w1)
      as (s & w2 & Hq & _ & _ & _ & _ & Hsel).
    rewrite Hq. simpl snd. unfold count_posted.
    rewrite (Hsel (is_posted_prefix "SELECT max(event_id)")) by reflexivity.
    reflexivity.
  - intro r.
    apply keeps_bind; [apply keeps_int_or_0 |]. intro m1.
    apply keeps_bind; [apply keeps_execute_query; reflexivity |]. intro r2.
    apply keeps_bind; [apply keeps_int_or_0 |]. intro m2.
    apply keeps_ret.
Qed.

Lemma generate_data_nonempty k uc pc me mo w data w' :
  generate_data k uc pc me mo w = (Val data, w') ->
  fst data <> [] /\ snd data <> [].
Proof.
  unfold generate_data. intro H.
  step H events w1 He. step H orders w2 Ho. inversion H; subst; simpl.
  apply generate_events_batch_inv, for_append_length in He.
  apply generate_orders_batch_inv, for_append_length in Ho.
  rewrite range_length in He, Ho.
  split; intro Hnil; subst; discriminate.
Qed.

(** Both inserts of a turn are carried out, in full, before the turn goes
    on: neither can raise, and each posts its statement once. *)
Lemma insert_in_parallel_run events orders w :
  events <> [] -> orders <> [] ->
  exists success w',
    insert_in_parallel events orders w = (Val success, w') /\
    event_inserts w' = S (event_inserts w) /\
    order_inserts w' = S (order_inserts w).
Proof.
  intros He Ho. unfold insert_in_parallel.
  destruct (insert_events_run events w He)
    as (_ & b1 & w1 & _ & _ & H1 & _ & _ & Hev1 & Hord1).
  destruct (insert_orders_run orders w1 Ho)
    as (_ & b2 & w2 & _ & _ & H2 & _ & _ & Hord2 & Hev2).
  exists (b1, b2), w2.
  rewrite (bind_Val _ _ _ _ _ H1), (bind_Val _ _ _ _ _ H2).
  split; [reflexivity |]. split; congruence.
Qed.

(** The statements of a turn other than the inserts are no inserts. *)
Lemma keeps_inserts_before p k uc pc w :
  p = "INSERT INTO events" \/ p = "INSERT INTO orders" ->
  frame (is_posted_prefix p) true w (snd (current_max_ids w)) /\
  forall ids, frame (is_posted_prefix p) true w
                (snd (generate_data k uc pc (fst ids) (snd ids) w)).
Proof.
  intros [-> | ->]; (split; [| intro ids; apply keeps_generate_data]);
    apply keeps_allow_draws, keeps_current_max_ids; reflexivity.
Qed.

(** A bind either gets a value from its first part and goes on, or stops
    where the first part stopped. *)
Lemma bind_cases {A B} (m : M A) (f : A -> M B) w r w' :
  bind m f w = (r, w') ->
  (exists a w1, m w = (Val a, w1) /\ f a w1 = (r, w')) \/
  snd (m w) = w'.
Proof.
  unfold bind. destruct (m w) as [[a | e | ] w1]; intro H.
  - left. exists a, w1. split; [reflexivity | exact H].
  - right. inversion H. reflexivity.
  - right. inversion H. reflexivity.
Qed.

(** A turn posts as many event inserts as order inserts. *)
Lemma cycle_inserts_joined k uc pc last w r w' :
  cycle k uc pc last w = (r, w') ->
  (event_inserts w' + order_inserts w = order_inserts w' + event_inserts w)%nat.
Proof.
  unfold cycle. intro H.
  apply bind_cases in H as [(cs & w1 & H1 & H) | Hw].
  2: { subst w'.
       change (event_inserts w + order_inserts w
               = order_inserts w + event_inserts w)%nat. lia. }
  inversion H1; subst cs w1; clear H1.
  set (w1 := next_tick w) in *.
  assert (Hev1 : event_inserts w1 = event_inserts w) by reflexivity.
  assert (Hord1 : order_inserts w1 = order_inserts w) by reflexivity.
  pose proof (proj1 (keeps_inserts_before "INSERT INTO events" k uc pc w1 (or_introl eq_refl)))
    as Fe2.
  pose proof (proj1 (keeps_inserts_before "INSERT INTO orders" k uc pc w1 (or_intror eq_refl)))
    as Fo2.
  apply frame_count in Fe2. apply frame_count in Fo2.
  apply bind_cases in H as [(ids & w2 & H2 & H) | Hw].
  2: { rewrite Hw in Fe2, Fo2.
       change (event_inserts w' = event_inserts w1) in Fe2.
       change (order_inserts w' = order_inserts w1) in Fo2. lia. }
  rewrite H2 in Fe2, Fo2. simpl snd in Fe2, Fo2.
  change (event_inserts w2 = event_inserts w1) in Fe2.
  change (order_inserts w2 = order_inserts w1) in Fo2.
  pose proof (proj2 (keeps_inserts_before "INSERT INTO events" k uc pc w2 (or_introl eq_refl)) ids)
    as Fe3.
  pose proof (proj2 (keeps_inserts_before "INSERT INTO orders" k uc pc w2 (or_intror eq_refl)) ids)
    as Fo3.
  apply frame_count in Fe3. apply frame_count in Fo3.
  apply bind_cases in H as [(data & w3 & H3 & H) | Hw].
  2: { rewrite Hw in Fe3, Fo3.
       change (event_inserts w' = event_inserts w2) in Fe3.
       change (order_inserts w' = order_inserts w2) in Fo3. lia. }
  rewrite H3 in Fe3, Fo3. simpl snd in Fe3, Fo3.
  change (event_inserts w3 = event_inserts w2) in Fe3.
  change (order_inserts w3 = order_inserts w2) in Fo3.
  apply generate_data_nonempty in H3 as [Hne Hno].
  destruct (insert_in_parallel_run (fst data) (snd data) w3 Hne Hno)
    as (success & w4 & Hins & Hev4 & Hord4).
  rewrite (bind_Val _ _ _ _ _ Hins) in H.
  pose proof (proj1 (keeps_after_inserts (is_posted_prefix "INSERT INTO events")
                       ltac:(reflexivity) ltac:(reflexivity)
                       k (fst success) (snd success) last
                       (clock (env w) (ticks w) # 1000000)%Q
                       ltac:(reflexivity) w4)) as Fe5.
  pose proof (proj1 (keeps_after_inserts (is_posted_prefix "INSERT INTO orders")
                       ltac:(reflexivity) ltac:(reflexivity)
                       k (fst success) (snd success) last
                       (clock (env w) (ticks w) # 1000000)%Q
                       ltac:(reflexivity) w4)) as Fo5.
  apply frame_count in Fe5. apply frame_count in Fo5.
  rewrite H in Fe5, Fo5. simpl snd in Fe5, Fo5.
  change (event_inserts w' = event_inserts w4) in Fe5.
  change (order_inserts w' = order_inserts w4) in Fo5.
  lia.
Qed.

(** The pacing step reads the clock once and sleeps for what is left of the
    interval, if anything is left. *)
Lemma maintain_interval_run cycle_start w :
  let t_end := seconds (clock (env w) (ticks w)) in
  let elapsed := (t_end - cycle_start)%Q in
  maintain_interval cycle_start w =
  (Val tt,
   if Py.lt 0 (Py.max0 (STREAM_INTERVAL - elapsed))
   then with_effect (Slept (Py.max0 (STREAM_INTERVAL - elapsed))) (next_tick w)
   else next_tick w).
Proof.
  unfold maintain_interval, bind, time_time, seconds; simpl.
  destruct (Py.lt 0 (Py.max0 _)); reflexivity.
Qed.

Lemma lt_true a b : Py.lt a b = true <-> (a < b)%Q.
Proof.
  unfold Py.lt. rewrite Qlt_alt. destruct (a ?= b)%Q; split; congruence.
Qed.

Lemma lt_false a b : Py.lt a b = false <-> (b <= a)%Q.
Proof.
  split.
  - intro H. apply Qnot_lt_le. intro Hlt. apply lt_true in Hlt. congruence.
  - intro H. destruct (Py.lt a b) eqn:E; [| reflexivity].
    apply lt_true in E. apply Qle_not_lt in H. contradiction.
Qed.

Lemma max0_spec x : (Py.max0 x == Qmax 0 x)%Q.
Proof.
  unfold Py.max0. destruct (Py.lt 0 x) eqn:E.
  - apply lt_true in E. symmetry. apply Q.max_r. apply Qlt_le_weak. exact E.
  - apply lt_false in E. symmetry. apply Q.max_l. exact E.
Qed.

(** ** Pacing *)

Lemma no_sleep_print : forall m, m <> StreamingStopped -> is_sleep (Printed m) = false.
Proof. reflexivity. Qed.

(** Everything in a turn before the pacing step leaves the sleeps, the
    environment and nothing else of interest here. *)
Lemma cycle_before_pacing k uc pc last w last' w' :
  cycle k uc pc last w = (Val last', w') ->
  exists w6,
    maintain_interval (seconds (clock (env w) (ticks w))) w6 = (Val tt, w') /\
    env w6 = env w /\ sleeps (trace w6) = sleeps (trace w).
Proof.
  unfold cycle. intro H.
  step H cs w1 H1. inversion H1; subst cs w1; clear H1.
  step H ids w2 H2.
  pose proof (proj1 (keeps_current_max_ids is_sleep no_sleep_print
                       ltac:(reflexivity) ltac:(reflexivity)
                       (next_tick w))) as F2.
  rewrite H2 in F2. simpl snd in F2.
  step H data w3 H3.
  pose proof (proj1 (keeps_generate_data is_sleep k uc pc (fst ids) (snd ids) w2)) as F3.
  rewrite H3 in F3. simpl snd in F3.
  step H success w4 H4.
  pose proof (proj1 (keeps_insert_in_parallel is_sleep no_sleep_print
                       (fst data) (snd data)
                       ltac:(reflexivity) ltac:(reflexivity) w3)) as F4.
  rewrite H4 in F4. simpl snd in F4.
  step H u w5 H5.
  pose proof (proj1 (keeps_quick_status is_sleep false no_sleep_print
                       k (fst success) (snd success) w4)) as F5.
  rewrite H5 in F5. simpl snd in F5.
  step H last'' w6 H6.
  pose proof (proj1 (keeps_periodic_stats is_sleep false no_sleep_print last
                       ltac:(reflexivity) w5)) as F6.
  rewrite H6 in F6. simpl snd in F6.
  step H u' w7 H7. inversion H; subst; clear H.
  destruct u'. exists w6. split; [exact H7 |].
  apply frame_env in F2 as E2. apply frame_env in F3 as E3.
  apply frame_env in F4 as E4. apply frame_env in F5 as E5.
  apply frame_env in F6 as E6.
  apply frame_sleeps in F2. apply frame_sleeps in F3. apply frame_sleeps in F4.
  apply frame_sleeps in F5. apply frame_sleeps in F6.
  split.
  - rewrite E6, E5, E4, E3, E2. reflexivity.
  - rewrite F6, F5, F4, F3, F2. reflexivity.
Qed.

(** C6. At the end of every turn of the loop the scheduler sleeps for
    [max(0, STREAM_INTERVAL - elapsed)] seconds, where [elapsed] runs from
    the reading of the clock that opens the turn to the one that closes its
    work; when [elapsed] reaches the interval no sleep is performed at all,
    otherwise there is one sleep of [STREAM_INTERVAL - elapsed] seconds. *)
Theorem sleep_fills_the_interval k uc pc last w last' :
  fst (cycle k uc pc last w) = Val last' ->
  paced w (snd (cycle k uc pc last w)).
Proof.
  intro H. apply fst_Val in H.
  destruct (cycle_before_pacing _ _ _ _ _ _ _ H) as (w6 & Hm & E6 & S6).
  set (w' := snd (cycle k uc pc last w)) in *. clearbody w'. clear H.
  rewrite maintain_interval_run in Hm. rewrite E6 in Hm.
  set (cycle_start := seconds (clock (env w) (ticks w))) in *.
  set (t_end := seconds (clock (env w) (ticks w6))) in *.
  set (x := (STREAM_INTERVAL - (t_end - cycle_start))%Q) in *.
  assert (Hticks : pred (ticks w') = ticks w6).
  { destruct (Py.lt 0 (Py.max0 x)); inversion Hm; reflexivity. }
  unfold paced. rewrite Hticks.
  fold cycle_start. fold t_end. cbv zeta. fold x.
  unfold Py.max0 in Hm. destruct (Py.lt 0 x) eqn:Ex.
  - rewrite Ex in Hm. inversion Hm; subst w'; clear Hm.
    apply lt_true in Ex.
    cbn [trace with_effect next_tick sleeps filter is_sleep seconds_slept].
    fold (sleeps (trace w6)). rewrite S6.
    split; [| split].
    + rewrite (Q.max_r 0 x) by (apply Qlt_le_weak; exact Ex). reflexivity.
    + intro Hle. unfold x in Ex. lra.
    + intros _. reflexivity.
  - assert (E0 : Py.lt 0 0 = false) by reflexivity. rewrite E0 in Hm.
    inversion Hm; subst w'; clear Hm.
    apply lt_false in Ex.
    cbn [trace next_tick]. rewrite S6.
    split; [| split].
    + rewrite (Q.max_l 0 x) by exact Ex. lra.
    + intros _. reflexivity.
    + intro Hlt. unfold x in Ex. lra.
Qed.

(** The first turn on the sample world: six readings of the clock a tenth of
    a second apart, so half a second of work and half a second of sleep. *)
Lemma sleep_fills_the_interval_sample :
  fst (cycle 0 3 7 (seconds 1700000000000000) sample_world)
    = Val (seconds 1700000000000000) /\
  paced sample_world (snd (cycle 0 3 7 (seconds 1700000000000000) sample_world)) /\
  (seconds_slept
     (sleeps (trace (snd (cycle 0 3 7 (seconds 1700000000000000) sample_world))))
   == 1 # 2)%Q.
Proof.
  split; [vm_compute; reflexivity |]. split.
  - apply (sleep_fills_the_interval 0 3 7 (seconds 1700000000000000) sample_world
             (seconds 1700000000000000)).
    vm_compute; reflexivity.
  - vm_compute. reflexivity.
Defined.

(** ** The loop and its shutdown *)



Lemma deliver_signals_run stage w : fst (deliver_signals stage w) = Val tt.
Proof. unfold deliver_signals. destruct (signals (env w) stage); reflexivity. Qed.

Lemma calm_refl w : calm 0 w w.
Proof. constructor; try reflexivity; lia. Qed.

Lemma calm_trans n1 n2 w1 w2 w3 :
  calm n1 w1 w2 -> calm n2 w2 w3 -> calm (n1 + n2) w1 w3.
Proof.
  intros [E1 S1 C1 J1] [E2 S2 C2 J2]. constructor; try congruence; lia.
Qed.


(** Operations that post no insert, begin no turn and do not print the
    line of the final block are calm. *)
Lemma calm_of_frames rnd w w' :
  frame is_stopped rnd w w' ->
  frame sel_cycle rnd w w' ->
  frame sel_event_insert rnd w w' ->
  frame sel_order_insert rnd w w' ->
  calm 0 w w'.
Proof.
  intros Fs Fc Fe Fo. constructor.
  - eapply frame_env; eassumption.
  - apply frame_stopped in Fs. exact Fs.
  - apply frame_count in Fc. unfold cycles_begun. rewrite Fc. lia.
  - apply frame_count in Fe. apply frame_count in Fo.
    unfold event_inserts, order_inserts. rewrite Fe, Fo. lia.
Qed.

Lemma calm_cycle k uc pc last w :
  calm 1 w (snd (cycle k uc pc last w)) /\ tame (fst (cycle k uc pc last w)).
Proof.
  destruct (keeps_cycle_stopped k uc pc last w) as [Fs T].
  split; [| exact T]. constructor.
  - eapply frame_env; eassumption.
  - apply frame_stopped in Fs. exact Fs.
  - rewrite cycle_begins_once. lia.
  - eapply cycle_inserts_joined. apply surjective_pairing.
Qed.

Lemma calm_deliver_signals stage w : calm 0 w (snd (deliver_signals stage w)).
Proof.
  apply (calm_of_frames false);
    apply keeps_deliver_signals; try reflexivity. exact is_stopped_print.
Qed.

Lemma calm_get_table_count table w : calm 0 w (snd (get_table_count table w)).
Proof.
  apply (calm_of_frames false);
    apply keeps_get_table_count; try reflexivity. exact is_stopped_print.
Qed.

Lemma calm_show_throughput_stats w : calm 0 w (snd (show_throughput_stats w)).
Proof.
  apply (calm_of_frames false);
    apply keeps_show_throughput_stats; try reflexivity. exact is_stopped_print.
Qed.

Lemma calm_print m w : m <> StreamingStopped -> calm 0 w (with_effect (Printed m) w).
Proof.
  intro Hm. constructor; try reflexivity.
  - destruct m; try reflexivity. contradiction Hm. reflexivity.
  - unfold cycles_begun, count_posted; simpl. lia.
  - unfold event_inserts, order_inserts, count_posted; simpl. lia.
Qed.


(** ** The whole run *)

Lemma get_table_count_Val table w :
  exists n w', get_table_count table w = (Val n, w').
Proof.
  destruct (get_table_count_run table w) as (n & Hn).
  exists n, (snd (get_table_count table w)). apply fst_Val. exact Hn.
Qed.

(** The [try] block either stops at the start-up check, when a count is
    zero, or enters the loop with the two counts it has read, both nonzero. *)
Lemma run_try_cases fuel w rb wb :
  run_try fuel w = (rb, wb) ->
  exists uc pc w1 w2,
    get_user_count w = (Val uc, w1) /\
    get_product_count w1 = (Val pc, w2) /\
    (((uc = 0 \/ pc = 0) /\ rb = Val tt /\
      wb = with_effect (Printed NoUsersOrProducts) w2) \/
     (uc <> 0 /\ pc <> 0 /\
      exists last w4 w5,
        calm 0 w2 w4 /\ draws w4 = draws w2 /\
        deliver_signals 0 w4 = (Val tt, w5) /\
        streaming_loop fuel 0 uc pc last w5 = (rb, wb))).
Proof.
  unfold run_try. intro H.
  destruct (get_table_count_Val "users" w) as (uc & w1 & Hu).
  destruct (get_table_count_Val "products" w1) as (pc & w2 & Hp).
  exists uc, pc, w1, w2.
  split; [exact Hu |]. split; [exact Hp |].
  unfold get_user_count, get_product_count in H.
  rewrite (bind_Val _ _ _ _ _ Hu), (bind_Val _ _ _ _ _ Hp) in H.
  destruct ((uc =? 0) || (pc =? 0)) eqn:Ez.
  - left. apply orb_true_iff in Ez. rewrite !Z.eqb_eq in Ez.
    inversion H; subst. auto.
  - right. apply orb_false_iff in Ez. rewrite !Z.eqb_neq in Ez.
    destruct Ez as [Huc Hpc]. split; [exact Huc |]. split; [exact Hpc |].
    rewrite (bind_Val (print (FoundUsersProducts uc pc)) _ w2 tt _ eq_refl) in H.
    rewrite (bind_Val (print StartingStream) _ _ tt _ eq_refl) in H.
    rewrite (bind_Val time_time _ _ _ _ eq_refl) in H.
    set (w4 := next_tick _) in H.
    pose proof (deliver_signals_run 0 w4) as Vd.
    apply fst_Val in Vd. rewrite (bind_Val _ _ _ _ _ Vd) in H.
    eexists _, w4, _. split; [| split; [| split; [exact Vd | exact H]]].
    + unfold w4. constructor; try reflexivity.
      * unfold cycles_begun, count_posted; simpl. lia.
      * unfold event_inserts, order_inserts, count_posted; simpl. lia.
    + reflexivity.
Qed.


(** The [finally] block prints its line, reports and returns. *)
Lemma run_finally_run w :
  exists w',
    run_finally w = (Val tt, w') /\
    env w' = env w /\ draws w' = draws w /\
    cycles_begun w' = cycles_begun w /\
    event_inserts w' = event_inserts w /\
    order_inserts w' = order_inserts w /\
    stopped_count (trace w') = S (stopped_count (trace w)).
Proof.
  unfold run_finally.
  rewrite (bind_Val (print StreamingStopped) _ w tt _ eq_refl).
  set (w1 := with_effect (Printed StreamingStopped) w).
  exists (snd (show_throughput_stats w1)).
  split; [apply fst_Val, show_throughput_stats_run |].
  pose proof (calm_show_throughput_stats w1) as [E S C J].
  pose proof (proj1 (keeps_show_throughput_stats sel_cycle false
                       ltac:(reflexivity) ltac:(reflexivity) w1)) as Fc.
  pose proof (proj1 (keeps_show_throughput_stats sel_event_insert false
                       ltac:(reflexivity) ltac:(reflexivity) w1)) as Fe.
  pose proof (proj1 (keeps_show_throughput_stats sel_order_insert false
                       ltac:(reflexivity) ltac:(reflexivity) w1)) as Fo.
  pose proof (frame_draws _ _ _ Fc) as D.
  apply frame_count in Fc. apply frame_count in Fe. apply frame_count in Fo.
  repeat split; try assumption.
Qed.

(** [run] returns once its [try] block has ended: a caught exception is
    reported, then the [finally] block runs. *)
Lemma run_after_try fuel w rb wb :
  run_try fuel w = (rb, wb) -> tame rb ->
  exists wh w',
    calm 0 wb wh /\ draws wh = draws wb /\
    run_finally wh = (Val tt, w') /\ run fuel w = (Val tt, w').
Proof.
  intros H T. unfold run, try_finally, try_except. rewrite H.
  destruct rb as [[] | e | ]; simpl in T.
  - destruct (run_finally_run wb) as (w' & Hf & _).
    exists wb, w'. split; [apply calm_refl |]. split; [reflexivity |].
    split; [exact Hf |]. rewrite (bind_Val _ _ _ _ _ Hf). reflexivity.
  - rewrite T. unfold print at 1.
    set (wh := with_effect (Printed (UnexpectedError e)) wb).
    destruct (run_finally_run wh) as (w' & Hf & _).
    exists wh, w'. split; [apply calm_print; discriminate |]. split; [reflexivity |].
    split; [exact Hf |]. rewrite (bind_Val _ _ _ _ _ Hf). reflexivity.
  - contradiction.
Qed.

(** ** The marks of the turns *)

Lemma truthy_false s : Py.truthy s = false -> s = "".
Proof. destruct s; [reflexivity | discriminate]. Qed.

Lemma periodic_stats_Val last w : exists l, fst (periodic_stats last w) = Val l.
Proof.
  unfold periodic_stats. rewrite (bind_Val time_time _ w _ _ eq_refl).
  destruct (Py.lt stats_interval _).
  - pose proof (fst_Val _ _ _ (show_throughput_stats_run (next_tick w))) as H.
    rewrite (bind_Val _ _ _ _ _ H). eexists; reflexivity.
  - eexists; reflexivity.
Qed.

Lemma after_inserts_Val k es os last cycle_start w :
  exists l,
    fst ((quick_status k es os ;;
          last' <- periodic_stats last ;;
          maintain_interval cycle_start ;;
          ret last') w) = Val l.
Proof.
  assert (Hq : quick_status k es os w = (Val tt, snd (quick_status k es os w)))
    by (apply fst_Val; reflexivity).
  rewrite (bind_Val _ _ _ _ _ Hq).
  destruct (periodic_stats_Val last (snd (quick_status k es os w))) as (l & Hl).
  apply fst_Val in Hl. rewrite (bind_Val _ _ _ _ _ Hl).
  pose proof (maintain_interval_run cycle_start (snd (periodic_stats last
                (snd (quick_status k es os w))))) as Hm.
  cbv zeta in Hm. rewrite (bind_Val _ _ _ _ _ Hm).
  exists l. reflexivity.
Qed.
















(** ** The statistics block *)








(** ** Start-up without users or products *)

(** With a zero among the counts read at start-up, [run] is the message
    followed by the [finally] block, whatever the fuel. *)
Lemma run_without_population fuel w uc pc w1 w2 :
  get_user_count w = (Val uc, w1) ->
  get_product_count w1 = (Val pc, w2) ->
  uc = 0 \/ pc = 0 ->
  exists w',
    run_finally (with_effect (Printed NoUsersOrProducts) w2) = (Val tt, w') /\
    run fuel w = (Val tt, w') /\
    cycles_begun w' = cycles_begun w /\
    event_inserts w' = event_inserts w /\
    order_inserts w' = order_inserts w /\
    draws w' = draws w.
Proof.
  intros Hu Hp Hz.
  destruct (run_try fuel w) as [rb wb] eqn:Hb.
  destruct (run_try_cases _ _ _ _ Hb)
    as (uc' & pc' & w1' & w2' & Hu' & Hp' & Hcases).
  rewrite Hu in Hu'. inversion Hu'; subst uc' w1'; clear Hu'.
  rewrite Hp in Hp'. inversion Hp'; subst pc' w2'; clear Hp'.
  destruct Hcases as [(_ & -> & ->) | (Huc & Hpc & _)]; [| lia].
  destruct (run_after_try _ _ _ _ Hb Logic.I) as (wh & w' & _ & _ & _ & Hrun).
  unfold run, try_finally, try_except in Hrun. rewrite Hb in Hrun.
  set (w3 := with_effect (Printed NoUsersOrProducts) w2) in *.
  destruct (run_finally_run w3) as (w'' & Hf & _ & Hd & Hc & He & Ho & _).
  rewrite (bind_Val _ _ _ _ _ Hf) in Hrun. inversion Hrun; subst w''; clear Hrun.
  exists w'. split; [exact Hf |].
  split.
  { unfold run, try_finally, try_except. rewrite Hb.
    rewrite (bind_Val _ _ _ _ _ Hf). reflexivity. }
  unfold get_user_count in Hu. unfold get_product_count in Hp.
  pose proof (calm_get_table_count "users" w) as C1.
  pose proof (calm_get_table_count "products" w1) as C2.
  rewrite Hu in C1. rewrite Hp in C2. simpl in C1, C2.
  pose proof (calm_trans _ _ _ _ _ C1 C2) as [E S C J].
  pose proof (proj1 (keeps_get_table_count sel_cycle false ltac:(reflexivity)
                       "users" ltac:(reflexivity) w)) as D1.
  pose proof (proj1 (keeps_get_table_count sel_cycle false ltac:(reflexivity)
                       "products" ltac:(reflexivity) w1)) as D2.
  rewrite Hu in D1. rewrite Hp in D2. simpl in D1, D2.
  pose proof (proj1 (keeps_get_table_count sel_event_insert false ltac:(reflexivity)
                       "users" ltac:(reflexivity) w)) as E1.
  pose proof (proj1 (keeps_get_table_count sel_event_insert false ltac:(reflexivity)
                       "products" ltac:(reflexivity) w1)) as E2.
  rewrite Hu in E1. rewrite Hp in E2. simpl in E1, E2.
  pose proof (proj1 (keeps_get_table_count sel_order_insert false ltac:(reflexivity)
                       "users" ltac:(reflexivity) w)) as O1.
  pose proof (proj1 (keeps_get_table_count sel_order_insert false ltac:(reflexivity)
                       "products" ltac:(reflexivity) w1)) as O2.
  rewrite Hu in O1. rewrite Hp in O2. simpl in O1, O2.
  pose proof (frame_draws _ _ _ D1) as Dr1. pose proof (frame_draws _ _ _ D2) as Dr2.
  apply frame_count in D1. apply frame_count in D2.
  apply frame_count in E1. apply frame_count in E2.
  apply frame_count in O1. apply frame_count in O2.
  change (cycles_begun w3) with (cycles_begun w2) in Hc.
  change (event_inserts w3) with (event_inserts w2) in He.
  change (order_inserts w3) with (order_inserts w2) in Ho.
  change (draws w3) with (draws w2) in Hd.
  unfold cycles_begun, event_inserts, order_inserts in *.
  repeat split; congruence.
Qed.

(** C9. If at start-up the sink reports zero users or zero products, [run]
    returns before the loop begins, whatever the fuel: what it does after
    reading the two counts is to print that nothing was found and to run
    its final block; no turn of the loop begins, no random draw is made for
    a batch and no insert is posted. *)
Theorem no_population_no_streaming fuel w uc pc w1 w2 :
  get_user_count w = (Val uc, w1) ->
  get_product_count w1 = (Val pc, w2) ->
  uc = 0 \/ pc = 0 ->
  run fuel w =
    (Val tt, snd (run_finally (with_effect (Printed NoUsersOrProducts) w2))) /\
  cycles_begun (snd (run fuel w)) = cycles_begun w /\
  draws (snd (run fuel w)) = draws w /\
  event_inserts (snd (run fuel w)) = event_inserts w /\
  order_inserts (snd (run fuel w)) = order_inserts w.
Proof.
  intros Hu Hp Hz.
  destruct (run_without_population fuel w uc pc w1 w2 Hu Hp Hz)
    as (w' & Hf & Hrun & Hc & He & Ho & Hd).
  rewrite Hrun, Hf. simpl. auto.
Qed.

Lemma no_population_no_streaming_sample :
  let w := world_of (env_with_sink empty_sink) in
  get_user_count w = (Val 0, snd (get_user_count w)) /\
  get_product_count (snd (get_user_count w))
    = (Val 0, snd (get_product_count (snd (get_user_count w)))) /\
  cycles_begun (snd (run 7 w)) = 0%nat /\
  draws (snd (run 7 w)) = 0%nat /\
  event_inserts (snd (run 7 w)) = 0%nat /\
  order_inserts (snd (run 7 w)) = 0%nat.
Proof.
  intro w.
  assert (Hu : get_user_count w = (Val 0, snd (get_user_count w)))
    by (apply fst_Val; vm_compute; reflexivity).
  assert (Hp : get_product_count (snd (get_user_count w))
               = (Val 0, snd (get_product_count (snd (get_user_count w)))))
    by (apply fst_Val; vm_compute; reflexivity).
  split; [exact Hu |]. split; [exact Hp |].
  destruct (no_population_no_streaming 7 w 0 0 _ _ Hu Hp (or_introl eq_refl))
    as (_ & Hc & Hd & He & Ho).
  repeat split; assumption.
Defined.

(** ** Totality of the generators *)

Lemma for_append_first_fails {A B} (body : A -> M B) x rest w e w' :
  body x w = (Exc e, w') -> for_append (x :: rest) body w = (Exc e, w').
Proof. intro H. simpl. apply bind_Exc. exact H. Qed.

Lemma generate_events_batch_total k uc m w :
  1 <= uc ->
  exists evs, fst (generate_events_batch k uc m w) = Val evs /\
              Z.of_nat (List.length evs) = BATCH_SIZE_EVENTS.
Proof.
  intro Huc. unfold generate_events_batch.
  rewrite (bind_Val datetime_now _ w _ _ eq_refl).
  destruct (for_append_total
              (events_batch_body k uc m (clock (env w) (ticks w)))
              (range (Z.to_nat BATCH_SIZE_EVENTS))
              (fun i w0 => events_batch_body_total k uc m _ i w0 Huc)
              (next_tick w)) as (evs & w' & H).
  exists evs. rewrite H. split; [reflexivity |].
  apply for_append_length in H. rewrite H, range_length. reflexivity.
Qed.

Lemma generate_orders_batch_total k uc pc m w :
  1 <= uc -> 1 <= pc ->
  exists ords, fst (generate_orders_batch k uc pc m w) = Val ords /\
               Z.of_nat (List.length ords) = BATCH_SIZE_ORDERS.
Proof.
  intros Huc Hpc. unfold generate_orders_batch.
  rewrite (bind_Val datetime_now _ w _ _ eq_refl).
  destruct (for_append_total
              (orders_batch_body k uc pc m (clock (env w) (ticks w)))
              (range (Z.to_nat BATCH_SIZE_ORDERS))
              (fun i w0 => orders_batch_body_total k uc pc m _ i w0 Huc Hpc)
              (next_tick w)) as (ords & w' & H).
  exists ords. rewrite H. split; [reflexivity |].
  apply for_append_length in H. rewrite H, range_length. reflexivity.
Qed.

(** Without users the first draw of the first event has an empty range. *)
Lemma generate_events_batch_no_users k m w :
  exists msg, fst (generate_events_batch k 0 m w) = Exc (ValueError msg).
Proof.
  unfold generate_events_batch.
  rewrite (bind_Val datetime_now _ w _ _ eq_refl).
  change (range (Z.to_nat BATCH_SIZE_EVENTS))
    with (0 :: map Z.of_nat (seq 1 99)).
  destruct (randint_empty 1 0 (next_tick w)) as (msg & Hr); [lia |].
  exists msg.
  erewrite for_append_first_fails; [reflexivity |].
  unfold events_batch_body. apply bind_Exc. exact Hr.
Qed.

(** Without users or without products a draw of the first order has an
    empty range. *)
Lemma generate_orders_batch_no_population k uc pc m w :
  uc = 0 \/ pc = 0 ->
  exists msg, fst (generate_orders_batch k uc pc m w) = Exc (ValueError msg).
Proof.
  intro Hz. unfold generate_orders_batch.
  rewrite (bind_Val datetime_now _ w _ _ eq_refl).
  change (range (Z.to_nat BATCH_SIZE_ORDERS))
    with (0 :: map Z.of_nat (seq 1 19)).
  destruct (Z_lt_le_dec uc 1) as [Hlt | Hge].
  - destruct (randint_empty 1 uc (next_tick w)) as (msg & Hr); [lia |].
    exists msg.
    erewrite for_append_first_fails; [reflexivity |].
    unfold orders_batch_body. apply bind_Exc. exact Hr.
  - assert (pc = 0) by lia. subst pc.
    destruct (randint_total 1 uc (next_tick w) Hge) as (user_id & Hu & _).
    destruct (randint_empty 1 0 (next_draw (next_tick w))) as (msg & Hr); [lia |].
    exists msg.
    erewrite for_append_first_fails; [reflexivity |].
    unfold orders_batch_body. rewrite (bind_Val _ _ _ _ _ Hu).
    apply bind_Exc. exact Hr.
Qed.

(** C10. With at least one user (and, for orders, at least one product)
    the generators are total: every draw has a non-empty range and a full
    batch is returned. With a count of zero a draw has an empty range and
    the generator raises [ValueError]; but a run in which a turn of the
    loop begins, so that the generators are called at all, has read two
    counts at start-up that are both nonzero. *)
Theorem generators_total :
  (forall k uc m w,
     1 <= uc ->
     exists evs, fst (generate_events_batch k uc m w) = Val evs /\
                 Z.of_nat (List.length evs) = BATCH_SIZE_EVENTS) /\
  (forall k uc pc m w,
     1 <= uc -> 1 <= pc ->
     exists ords, fst (generate_orders_batch k uc pc m w) = Val ords /\
                  Z.of_nat (List.length ords) = BATCH_SIZE_ORDERS) /\
  (forall k m w,
     exists msg, fst (generate_events_batch k 0 m w) = Exc (ValueError msg)) /\
  (forall k uc pc m w,
     uc = 0 \/ pc = 0 ->
     exists msg, fst (generate_orders_batch k uc pc m w) = Exc (ValueError msg)) /\
  (forall fuel w,
     cycles_begun (snd (run fuel w)) <> cycles_begun w ->
     exists uc pc w1 w2,
       get_user_count w = (Val uc, w1) /\
       get_product_count w1 = (Val pc, w2) /\
       uc <> 0 /\ pc <> 0).
Proof.
  split; [exact generate_events_batch_total |].
  split; [exact generate_orders_batch_total |].
  split; [exact generate_events_batch_no_users |].
  split; [exact generate_orders_batch_no_population |].
  intros fuel w Hc.
  destruct (get_table_count_Val "users" w) as (uc & w1 & Hu).
  destruct (get_table_count_Val "products" w1) as (pc & w2 & Hp).
  exists uc, pc, w1, w2. split; [exact Hu |]. split; [exact Hp |].
  destruct (Z.eq_dec uc 0) as [Huc | Huc].
  - destruct (run_without_population fuel w uc pc w1 w2 Hu Hp (or_introl Huc))
      as (w' & _ & Hrun & Hc' & _).
    rewrite Hrun in Hc. simpl in Hc. contradiction.
  - destruct (Z.eq_dec pc 0) as [Hpc | Hpc].
    + destruct (run_without_population fuel w uc pc w1 w2 Hu Hp (or_intror Hpc))
        as (w' & _ & Hrun & Hc' & _).
      rewrite Hrun in Hc. simpl in Hc. contradiction.
    + split; assumption.
Qed.

(** Five users and three products on the sample world; and the run on the
    sample sink, which holds three users and seven products. *)
Lemma generators_total_sample :
  1 <= 5 /\ 1 <= 3 /\
  (exists evs, fst (generate_events_batch 0 5 0 sample_world) = Val evs /\
               Z.of_nat (List.length evs) = BATCH_SIZE_EVENTS) /\
  (exists ords, fst (generate_orders_batch 0 5 3 0 sample_world) = Val ords /\
                Z.of_nat (List.length ords) = BATCH_SIZE_ORDERS) /\
  (exists msg, fst (generate_orders_batch 0 5 0 0 sample_world)
               = Exc (ValueError msg)) /\
  cycles_begun (snd (run 1 sample_world)) <> cycles_begun sample_world /\
  (exists uc pc w1 w2,
     get_user_count sample_world = (Val uc, w1) /\
     get_product_count w1 = (Val pc, w2) /\ uc <> 0 /\ pc <> 0).
Proof.
  assert (Hc : cycles_begun (snd (run 1 sample_world)) <> cycles_begun sample_world)
    by (vm_compute; discriminate).
  destruct generators_total as (He & Ho & _ & Hz & Hr).
  split; [lia |]. split; [lia |].
  split; [apply (He 0 5 0 sample_world); lia |].
  split; [apply (Ho 0 5 3 0 sample_world); lia |].
  split; [apply (Hz 0 5 0 0 sample_world); right; reflexivity |].
  split; [exact Hc |].
  apply (Hr 1%nat sample_world Hc).
Defined.

(** * Further properties *)

(** ** Queries *)

(** The outcome of [execute_query] in closed form. *)
Lemma execute_query_closed q w :
  let o := sink (env w) (posts w) q in
  let w' := snd (execute_query q w) in
  fst (execute_query q w) = Val (reply_text o) /\
  posted (trace w') = Posted q :: posted (trace w) /\
  printed (trace w') =
    ((if request_failed o
      then [Printed (QueryFailed
                       match o with
                       | Response status _ => HTTPError status
                       | Failure msg => RequestException msg
                       end)]
      else []) ++ printed (trace w))%list /\
  self w' = self w /\ posts w' = S (posts w) /\
  ticks w' = ticks w /\ draws w' = draws w.
Proof.
  cbv zeta. destruct (sink (env w) (posts w) q) as [status body | msg] eqn:Hs.
  - destruct ((400 <=? status) && (status <? 600)) eqn:Hst.
    + rewrite (execute_query_http_error q w status body Hs Hst).
      cbn. rewrite Hst. repeat split; reflexivity.
    + rewrite (execute_query_ok q w status body Hs Hst).
      cbn. rewrite Hst. repeat split; reflexivity.
  - rewrite (execute_query_transport_error q w msg Hs).
    cbn. repeat split; reflexivity.
Qed.

(** X1. [execute_query] never raises and never retries: whatever the sink does,
    it returns the text the outcome stands for (the stripped body of a
    successful answer, the empty string after a failure), puts its
    statement on the wire exactly once, logs a failure exactly when the
    request failed, and leaves the streamer object alone. *)
Theorem execute_query_total q w :
  let o := sink (env w) (posts w) q in
  let w' := snd (execute_query q w) in
  fst (execute_query q w) = Val (reply_text o) /\
  posted (trace w') = Posted q :: posted (trace w) /\
  printed (trace w') =
    ((if request_failed o
      then [Printed (QueryFailed
                       match o with
                       | Response status _ => HTTPError status
                       | Failure msg => RequestException msg
                       end)]
      else []) ++ printed (trace w))%list /\
  self w' = self w /\ posts w' = S (posts w) /\
  ticks w' = ticks w /\ draws w' = draws w.
Proof. exact (execute_query_closed q w). Qed.

(** The outcome of [get_table_count] in closed form. *)
Lemma get_table_count_closed table w :
  let q := "SELECT count() FROM " ++ table in
  let w' := snd (get_table_count table w) in
  fst (get_table_count table w) = Val (reply_count (sink (env w) (posts w) q)) /\
  posted (trace w') = Posted q :: posted (trace w) /\
  self w' = self w /\ draws w' = draws w.
Proof.
  cbv zeta.
  destruct (execute_query_closed ("SELECT count() FROM " ++ table) w)
    as (Hv & Hp & _ & Hself & _ & _ & Hd).
  apply fst_Val in Hv.
  set (o := sink (env w) (posts w) ("SELECT count() FROM " ++ table)) in *.
  set (w1 := snd (execute_query ("SELECT count() FROM " ++ table) w)) in *.
  unfold get_table_count, try_except_all.
  rewrite (bind_Val _ _ _ _ _ Hv). unfold reply_count, int_of_str.
  destruct (Py.truthy (reply_text o)) eqn:Et.
  - destruct (Py.int (reply_text o)); simpl; auto.
  - rewrite (truthy_false _ Et). simpl. auto.
Qed.

(** X2. [get_table_count] never raises: it returns the number the answer to its
    one [SELECT count()] stands for, and 0 when the request failed or the
    answer is empty or is not a number; the streamer object is left
    alone. *)
Theorem get_table_count_total table w :
  let q := "SELECT count() FROM " ++ table in
  let w' := snd (get_table_count table w) in
  fst (get_table_count table w) = Val (reply_count (sink (env w) (posts w) q)) /\
  posted (trace w') = Posted q :: posted (trace w) /\
  self w' = self w /\ draws w' = draws w.
Proof. exact (get_table_count_closed table w). Qed.

(** ** The entry point *)

Lemma init_run w :
  init w =
  (Val tt,
   with_effect (Printed Banner)
     (with_self {| running := true; session_counter := 10000;
                   total_events_inserted := 0; total_orders_inserted := 0;
                   start_time := seconds (clock (env w) (ticks w)) |}
        (next_tick w))).
Proof. reflexivity. Qed.

(** X3. [main] goes on to [run] exactly when the answer to [SELECT 1] stands for
    [1]. After any other answer, and after a failed request, it prints that
    it cannot connect and leaves with [SystemExit(1)], which its own
    [except Exception] does not catch; [SELECT 1] is then the only
    statement it has posted. *)
Theorem main_connection_test fuel w :
  let w0 := snd (init w) in
  let o := sink (env w) (posts w) "SELECT 1" in
  let w1 := snd (execute_query "SELECT 1" w0) in
  (reply_text o = "1" ->
     main fuel w = run fuel (with_effect (Printed Connected) w1)) /\
  (reply_text o <> "1" ->
     main fuel w = (Exc (SystemExit 1), with_effect (Printed UnableToConnect) w1) /\
     posted (trace (snd (main fuel w))) = Posted "SELECT 1" :: posted (trace w)).
Proof.
  cbv zeta.
  destruct (execute_query_closed "SELECT 1" (snd (init w)))
    as (Hv & Hp & _).
  apply fst_Val in Hv.
  change (sink (env (snd (init w))) (posts (snd (init w))) "SELECT 1")
    with (sink (env w) (posts w) "SELECT 1") in Hv.
  set (o := sink (env w) (posts w) "SELECT 1") in *.
  set (w1 := snd (execute_query "SELECT 1" (snd (init w)))) in *.
  assert (Hmain : main fuel w =
            (try_except
               (result <- execute_query "SELECT 1" ;;
                if negb (result =? "1")%string
                then print UnableToConnect ;; raise (SystemExit 1)
                else ret tt)
               (fun e => print (ConnectionTestFailed e) ;; raise (SystemExit 1)) ;;
             print Connected ;; run fuel) (snd (init w))).
  { unfold main. rewrite (bind_Val init _ w tt _ (init_run w)). reflexivity. }
  split.
  - intro H1. rewrite Hmain. unfold bind at 1. unfold try_except.
    rewrite (bind_Val _ _ _ _ _ Hv). rewrite H1. reflexivity.
  - intro Hn.
    assert (Hexit : main fuel w =
              (Exc (SystemExit 1), with_effect (Printed UnableToConnect) w1)).
    { rewrite Hmain. unfold bind at 1. unfold try_except.
      rewrite (bind_Val _ _ _ _ _ Hv).
      apply String.eqb_neq in Hn. rewrite Hn. reflexivity. }
    split; [exact Hexit |]. rewrite Hexit. exact Hp.
Qed.

(** [main] on the sample sink, stopped by SIGINT during the first turn, and
    on a sink that cannot be reached. *)
Lemma main_connection_test_sample :
  let w := world_of (sample_env (sigint_during 0)) in
  let wd := world_of (env_with_sink unreachable_sink) in
  reply_text (sink (env w) (posts w) "SELECT 1") = "1" /\
  fst (main 1 w) = Val tt /\
  reply_text (sink (env wd) (posts wd) "SELECT 1") <> "1" /\
  fst (main 1 wd) = Exc (SystemExit 1).
Proof.
  intros w wd.
  assert (H1 : reply_text (sink (env w) (posts w) "SELECT 1") = "1") by reflexivity.
  assert (H2 : reply_text (sink (env wd) (posts wd) "SELECT 1") <> "1")
    by discriminate.
  split; [exact H1 |]. split.
  - rewrite (proj1 (main_connection_test 1 w) H1).
    vm_compute. reflexivity.
  - split; [exact H2 |].
    rewrite (proj1 (proj2 (main_connection_test 1 wd) H2)). reflexivity.
Defined.

(** ** The fields of generated records *)

Lemma choice_inv {A} (seq : list A) w x w' :
  Random.choice seq w = (Val x, w') -> In x seq.
Proof.
  unfold Random.choice. destruct seq as [| x0 rest]; [discriminate |].
  intro H. step H i w1 Hi.
  destruct (nth_error (x0 :: rest) (Z.to_nat i)) eqn:E; [| discriminate].
  inversion H; subst. eapply nth_error_In; eassumption.
Qed.

Lemma events_batch_body_fields batch_num user_count max_event_id now i w e w' :
  events_batch_body batch_num user_count max_event_id now i w = (Val e, w') ->
  event_well_formed user_count now e.
Proof.
  unfold events_batch_body. intro H.
  step H user_id w1 Hu. apply randint_inv in Hu as [Hu _].
  step H event_type w2 Ht. apply choices_inv in Ht as [Ht _].
  step H jitter w3 Hj.
  step H revenue w4 Hr.
  step H page_url w5 Hp.
  step H device_type w6 Hd. apply choice_inv in Hd.
  step H browser w7 Hb. apply choice_inv in Hb.
  step H country w8 Hc. apply choice_inv in Hc.
  step H duration w9 Hdu. apply randint_inv in Hdu as [Hdu _].
  inversion H; subst; clear H. unfold event_well_formed; cbn.
  split; [exact Hu |]. split; [exact Ht |].
  split.
  { intro Hdl. subst event_type. cbn in Ht.
    repeat (destruct Ht as [Ht | Ht]; [discriminate Ht |]). exact Ht. }
  split.
  { intro Hpv. apply String.eqb_eq in Hpv. rewrite Hpv in Hp.
    apply choice_inv in Hp. exact Hp. }
  split.
  { intro Hpv. apply String.eqb_neq in Hpv. rewrite Hpv in Hp.
    inversion Hp. reflexivity. }
  split; [reflexivity |].
  repeat split; try assumption; lia.
Qed.

Lemma orders_batch_body_fields batch_num user_count product_count max_order_id now i
    w o w' :
  orders_batch_body batch_num user_count product_count max_order_id now i w
    = (Val o, w') ->
  order_well_formed user_count product_count o.
Proof.
  unfold orders_batch_body. intro H.
  step H user_id w1 Hu. apply randint_inv in Hu as [Hu _].
  step H product_id w2 Hp. apply randint_inv in Hp as [Hp _].
  step H quantity w3 Hq. apply choices_inv in Hq as [Hq _].
  step H jitter w4 Hj.
  step H status w5 Hs. apply choices_inv in Hs as [Hs _].
  step H coin w6 Hc.
  step H total_amount w7 Ha.
  step H payment_method w8 Hm. apply choice_inv in Hm.
  inversion H; subst; clear H. unfold order_well_formed; cbn.
  split; [exact Hu |]. split; [exact Hp |].
  split.
  { cbn in Hq. repeat (destruct Hq as [Hq | Hq]; [subst; lia |]). contradiction. }
  split; [exact Hs |]. split; [exact Hm |].
  destruct (Py.lt coin (9 # 10)); step Ha u w8' Hu'; inversion Ha; subst.
  - destruct (uniform_run 50 200 w6) as (v & Hv & Hlo & Hhi); [discriminate |].
    rewrite Hv in Hu'. injection Hu' as Ev Ew. subst u.
    destruct (round2_bounds 50 200 v Hlo Hhi) as [H1 H2].
    split; [exact H1 |]. eapply Qle_trans; [exact H2 | discriminate].
  - destruct (uniform_run 200 1000 w6) as (v & Hv & Hlo & Hhi); [discriminate |].
    rewrite Hv in Hu'. injection Hu' as Ev Ew. subst u.
    destruct (round2_bounds 200 1000 v Hlo Hhi) as [H1 H2].
    split; [| exact H2]. eapply Qle_trans; [| exact H1]. discriminate.
Qed.

(** X4. Every event of a generated batch refers to an existing user, has one of
    the ten weighted event types (never [download], although [event_types]
    lists it), a page that is one of the site's pages for a page view and
    [/action/<type>] otherwise, the session id of its user in the
    five-minute bucket of the batch, and a device, a browser, a country and
    a duration from the closed ranges of the source. *)
Theorem generated_events_well_formed batch_num user_count max_event_id w evs :
  fst (generate_events_batch batch_num user_count max_event_id w) = Val evs ->
  In "download" event_types /\
  Forall (event_well_formed user_count (clock (env w) (ticks w))) evs.
Proof.
  intro H. split; [cbn; tauto |].
  apply fst_Val in H. apply generate_events_batch_inv in H.
  eapply for_append_Forall; [| exact H].
  intros i w0 e w0' _ He. eapply events_batch_body_fields. exact He.
Qed.

Lemma generated_events_well_formed_sample :
  fst (generate_events_batch 0 5 0 sample_world) = Val sample_events_0 /\
  Forall (event_well_formed 5 1700000000000000) sample_events_0.
Proof.
  split; [vm_compute; reflexivity |].
  apply (generated_events_well_formed 0 5 0 sample_world sample_events_0).
  vm_compute; reflexivity.
Defined.

(** X5. Every order of a generated batch refers to an existing user and an
    existing product, has a quantity from 1 to 5, a status and a payment
    method from the lists of the source, and a total amount between 50 and
    1000. *)
Theorem generated_orders_well_formed batch_num user_count product_count max_order_id
    w ords :
  fst (generate_orders_batch batch_num user_count product_count max_order_id w)
    = Val ords ->
  Forall (order_well_formed user_count product_count) ords.
Proof.
  intro H. apply fst_Val in H. apply generate_orders_batch_inv in H.
  eapply for_append_Forall; [| exact H].
  intros i w0 o w0' _ Ho. eapply orders_batch_body_fields. exact Ho.
Qed.

Lemma generated_orders_well_formed_sample :
  fst (generate_orders_batch 0 5 3 0 sample_world) = Val sample_orders_0 /\
  Forall (order_well_formed 5 3) sample_orders_0.
Proof.
  split; [vm_compute; reflexivity |].
  apply (generated_orders_well_formed 0 5 3 0 sample_world sample_orders_0).
  vm_compute; reflexivity.
Defined.

(** ** Quoting in the INSERT statements *)

Lemma quote_free_app a b :
  quote_free (a ++ b) = quote_free a && quote_free b.
Proof.
  induction a as [| c a IH]; simpl; [reflexivity |].
  rewrite IH. apply andb_assoc.
Qed.

Lemma count_quotes_app a b :
  count_quotes (a ++ b) = (count_quotes a + count_quotes b)%nat.
Proof.
  induction a as [| c a IH]; simpl; [reflexivity |]. rewrite IH. lia.
Qed.

Lemma quote_free_count s : quote_free s = true -> count_quotes s = 0%nat.
Proof.
  induction s as [| c s IH]; simpl; [reflexivity |].
  intro H. apply andb_true_iff in H as [Hc Hs].
  apply negb_true_iff in Hc. rewrite Hc, (IH Hs). reflexivity.
Qed.

Lemma quote_free_uint d : quote_free (NilEmpty.string_of_uint d) = true.
Proof. induction d; simpl; auto. Qed.

(** The decimal form of an int has no quote. *)
Lemma quote_free_str z : quote_free (Py.str z) = true.
Proof.
  unfold Py.str, NilZero.string_of_int, NilZero.string_of_uint.
  destruct (Z.to_int z) as [d | d]; destruct d; simpl;
    try reflexivity; apply quote_free_uint.
Qed.

Lemma quote_free_pad2 z : quote_free (Py.pad2 z) = true.
Proof.
  unfold Py.pad2. destruct (z <? 10); [rewrite quote_free_app |];
    rewrite quote_free_str; reflexivity.
Qed.

Lemma quote_free_pad4 z : quote_free (Py.pad4 z) = true.
Proof.
  unfold Py.pad4.
  repeat (match goal with |- context [if ?b then _ else _] => destruct b end);
    rewrite ?quote_free_app, quote_free_str; reflexivity.
Qed.

Lemma quote_free_strftime_date t : quote_free (Datetime.strftime_date t) = true.
Proof.
  unfold Datetime.strftime_date.
  destruct (Datetime.civil_from_days _) as [[y m] d].
  rewrite !quote_free_app, quote_free_pad4, !quote_free_pad2. reflexivity.
Qed.

Lemma quote_free_strftime t : quote_free (Datetime.strftime t) = true.
Proof.
  unfold Datetime.strftime.
  rewrite !quote_free_app, quote_free_strftime_date, !quote_free_pad2. reflexivity.
Qed.

Lemma quote_free_repr_float2 q : quote_free (Py.repr_float2 q) = true.
Proof.
  unfold Py.repr_float2.
  destruct (_ =? 0);
    rewrite !quote_free_app, ?quote_free_pad2, !quote_free_str; reflexivity.
Qed.

Lemma quote_free_repr_num q : quote_free (Py.repr_num q) = true.
Proof.
  unfold Py.repr_num. destruct (Qeq_bool q 0);
    [reflexivity | apply quote_free_repr_float2].
Qed.

Lemma quote_free_In x l :
  forallb quote_free l = true -> In x l -> quote_free x = true.
Proof. intros H Hin. rewrite forallb_forall in H. auto. Qed.

Lemma event_strings_quote_free user_count now jitter e :
  event_well_formed user_count now e ->
  Event.event_timestamp e = Datetime.strftime (now - Datetime.timedelta_ms jitter) ->
  forallb quote_free (event_strings e) = true.
Proof.
  intros (_ & Hty & _ & Hpv & Hact & Hsess & Hdev & Hbr & Hco & _) Hts.
  assert (Qty : quote_free (Event.event_type e) = true)
    by (eapply quote_free_In; [| exact Hty]; reflexivity).
  assert (Qpage : quote_free (Event.page_url e) = true).
  { destruct (string_dec (Event.event_type e) "page_view") as [E | E].
    - eapply quote_free_In; [| exact (Hpv E)]. reflexivity.
    - rewrite (Hact E), quote_free_app, Qty. reflexivity. }
  unfold event_strings. cbn [forallb].
  rewrite Qty, Qpage, Hts, quote_free_strftime, Hsess.
  rewrite !quote_free_app, !quote_free_str.
  rewrite (quote_free_In _ device_types eq_refl Hdev).
  rewrite (quote_free_In _ browsers eq_refl Hbr).
  rewrite (quote_free_In _ countries eq_refl Hco).
  reflexivity.
Qed.

Lemma event_values_quotes e :
  forallb quote_free (event_strings e) = true ->
  count_quotes (event_values e) = 14%nat.
Proof.
  unfold event_strings. cbn [forallb]. rewrite !andb_true_iff.
  intros (H1 & H2 & H3 & H4 & H5 & H6 & H7 & _).
  unfold event_values. rewrite !count_quotes_app.
  rewrite !(quote_free_count _ (quote_free_str _)).
  rewrite (quote_free_count _ (quote_free_repr_num _)).
  rewrite (quote_free_count _ H1), (quote_free_count _ H2), (quote_free_count _ H3),
    (quote_free_count _ H4), (quote_free_count _ H5), (quote_free_count _ H6),
    (quote_free_count _ H7).
  reflexivity.
Qed.

Lemma order_values_quotes o :
  forallb quote_free (order_strings o) = true ->
  count_quotes (order_values o) = 8%nat.
Proof.
  unfold order_strings. cbn [forallb]. rewrite !andb_true_iff.
  intros (H1 & H2 & H3 & H4 & _).
  unfold order_values. rewrite !count_quotes_app.
  rewrite !(quote_free_count _ (quote_free_str _)).
  rewrite (quote_free_count _ (quote_free_repr_float2 _)).
  rewrite (quote_free_count _ H1), (quote_free_count _ H2), (quote_free_count _ H3),
    (quote_free_count _ H4).
  reflexivity.
Qed.

(** X6. No string field of a generated event or order contains a single quote,
    so that in the INSERT statements, which put these fields between quotes
    without escaping, the tuple of a generated event has exactly the 14
    quotes that delimit its seven string fields, and the tuple of a
    generated order the 8 quotes of its four. *)
Theorem generated_fields_quote_free :
  (forall batch_num user_count max_event_id w evs,
     fst (generate_events_batch batch_num user_count max_event_id w) = Val evs ->
     Forall (fun e => forallb quote_free (event_strings e) = true /\
                      count_quotes (event_values e) = 14%nat) evs) /\
  (forall batch_num user_count product_count max_order_id w ords,
     fst (generate_orders_batch batch_num user_count product_count max_order_id w)
       = Val ords ->
     Forall (fun o => forallb quote_free (order_strings o) = true /\
                      count_quotes (order_values o) = 8%nat) ords).
Proof.
  split.
  - intros k uc m w evs H.
    apply fst_Val in H. apply generate_events_batch_inv in H.
    eapply for_append_Forall; [| exact H].
    intros i w0 e w0' _ He.
    pose proof (events_batch_body_fields _ _ _ _ _ _ _ _ He) as Hwf.
    apply events_batch_body_inv in He.
    destruct He as (_ & _ & _ & (jitter & _ & Hts) & _).
    pose proof (event_strings_quote_free _ _ _ _ Hwf Hts) as Hq.
    split; [exact Hq | apply event_values_quotes, Hq].
  - intros k uc pc m w ords H.
    apply fst_Val in H. apply generate_orders_batch_inv in H.
    eapply for_append_Forall; [| exact H].
    intros i w0 o w0' _ Ho.
    pose proof (orders_batch_body_fields _ _ _ _ _ _ _ _ _ Ho)
      as (_ & _ & _ & Hst & Hpm & _).
    apply orders_batch_body_inv in Ho.
    destruct Ho as (_ & _ & _ & (jitter & _ & Hts & Hd)).
    assert (Hq : forallb quote_free (order_strings o) = true).
    { unfold order_strings. cbn [forallb].
      rewrite Hd, Hts, quote_free_strftime_date, quote_free_strftime.
      rewrite (quote_free_In _ statuses eq_refl Hst).
      rewrite (quote_free_In _ payment_methods eq_refl Hpm).
      reflexivity. }
    split; [exact Hq | apply order_values_quotes, Hq].
Qed.

Lemma generated_fields_quote_free_sample :
  fst (generate_events_batch 0 5 0 sample_world) = Val sample_events_0 /\
  Forall (fun e => forallb quote_free (event_strings e) = true /\
                   count_quotes (event_values e) = 14%nat) sample_events_0 /\
  fst (generate_orders_batch 0 5 3 0 sample_world) = Val sample_orders_0 /\
  Forall (fun o => forallb quote_free (order_strings o) = true /\
                   count_quotes (order_values o) = 8%nat) sample_orders_0.
Proof.
  split; [vm_compute; reflexivity |]. split.
  - apply (proj1 generated_fields_quote_free 0 5 0 sample_world sample_events_0).
    vm_compute; reflexivity.
  - split; [vm_compute; reflexivity |].
    apply (proj2 generated_fields_quote_free 0 5 3 0 sample_world sample_orders_0).
    vm_compute; reflexivity.
Defined.

(** ** Operations that leave the streamer object alone *)

Lemma untouched_ret {A} (a : A) : untouched (ret a).
Proof. intro w. reflexivity. Qed.

Lemma untouched_raise {A} e : untouched (@raise A e).
Proof. intro w. reflexivity. Qed.

Lemma untouched_bind {A B} (m : M A) (f : A -> M B) :
  untouched m -> (forall a, untouched (f a)) -> untouched (bind m f).
Proof.
  intros Hm Hf w. specialize (Hm w). unfold bind.
  destruct (m w) as [[a | e | ] w1]; simpl in *; try exact Hm.
  rewrite (Hf a w1). exact Hm.
Qed.

Lemma untouched_if {A} (b : bool) (m1 m2 : M A) :
  untouched m1 -> untouched m2 -> untouched (if b then m1 else m2).
Proof. destruct b; auto. Qed.

Lemma untouched_try_except {A} (body : M A) handler :
  untouched body -> (forall e, untouched (handler e)) ->
  untouched (try_except body handler).
Proof.
  intros Hb Hh w. specialize (Hb w). unfold try_except.
  destruct (body w) as [[a | e | ] w1]; simpl in *; try exact Hb.
  destruct (is_Exception e); [| exact Hb]. rewrite (Hh e w1). exact Hb.
Qed.

Lemma untouched_try_except_all {A} (body handler : M A) :
  untouched body -> untouched handler -> untouched (try_except_all body handler).
Proof.
  intros Hb Hh w. specialize (Hb w). unfold try_except_all.
  destruct (body w) as [[a | e | ] w1]; simpl in *; try exact Hb.
  rewrite (Hh w1). exact Hb.
Qed.

Lemma untouched_for_append {A B} (xs : list A) (body : A -> M B) :
  (forall x, untouched (body x)) -> untouched (for_append xs body).
Proof.
  intro Hb. induction xs as [| x rest IH]; simpl.
  - apply untouched_ret.
  - apply untouched_bind; [apply Hb |]. intro y.
    apply untouched_bind; [exact IH |]. intro ys. apply untouched_ret.
Qed.

Lemma untouched_print m : untouched (print m).
Proof. intro w. reflexivity. Qed.

Lemma untouched_get_self : untouched get_self.
Proof. intro w. reflexivity. Qed.

Lemma untouched_time_time : untouched time_time.
Proof. intro w. reflexivity. Qed.

Lemma untouched_datetime_now : untouched datetime_now.
Proof. intro w. reflexivity. Qed.

Lemma untouched_time_sleep d : untouched (time_sleep d).
Proof. intro w. reflexivity. Qed.

Lemma untouched_raw : untouched Random.raw.
Proof. intro w. reflexivity. Qed.

Lemma untouched_execute_query q : untouched (execute_query q).
Proof. intro w. apply (execute_query_closed q w). Qed.

Lemma untouched_get_table_count table : untouched (get_table_count table).
Proof. intro w. apply (get_table_count_closed table w). Qed.

Create HintDb untouched.

#[local] Hint Resolve untouched_ret untouched_raise untouched_print
  untouched_get_self untouched_time_time untouched_datetime_now
  untouched_time_sleep untouched_raw untouched_execute_query
  untouched_get_table_count : untouched.

(** Take a composed operation apart, down to the operations of the hint
    database. *)
Ltac untouched_steps :=
  repeat first
    [ solve [auto with untouched]
    | apply untouched_bind; [| intro]
    | apply untouched_if
    | apply untouched_for_append; intro
    | match goal with
      | |- untouched (match ?x with _ => _ end) => destruct x
      end ].

Lemma untouched_randint a b : untouched (Random.randint a b).
Proof. unfold Random.randint, Random.randbelow. untouched_steps. Qed.

Lemma untouched_random : untouched Random.random.
Proof. unfold Random.random. untouched_steps. Qed.

Lemma untouched_uniform a b : untouched (Random.uniform a b).
Proof. unfold Random.uniform, Random.random. untouched_steps. Qed.

Lemma untouched_choice {A} (seq : list A) : untouched (Random.choice seq).
Proof. unfold Random.choice, Random.randbelow. untouched_steps. Qed.

Lemma untouched_choices {A} (population : list A) weights :
  untouched (Random.choices population weights).
Proof. unfold Random.choices, Random.random. untouched_steps. Qed.

#[local] Hint Resolve untouched_randint untouched_random untouched_uniform
  untouched_choice untouched_choices : untouched.

Lemma untouched_generate_data k uc pc me mo : untouched (generate_data k uc pc me mo).
Proof.
  unfold generate_data, generate_events_batch, generate_orders_batch,
    events_batch_body, orders_batch_body, event_revenue.
  untouched_steps.
Qed.

Lemma untouched_int_or_0 s : untouched (int_or_0 s).
Proof. unfold int_or_0, int_of_str. untouched_steps. Qed.

Lemma untouched_current_max_ids : untouched current_max_ids.
Proof. unfold current_max_ids, int_or_0, int_of_str. untouched_steps. Qed.

Lemma untouched_show_throughput_stats : untouched show_throughput_stats.
Proof. unfold show_throughput_stats. untouched_steps. Qed.

#[local] Hint Resolve untouched_show_throughput_stats : untouched.

Lemma untouched_after_inserts k es os last cycle_start :
  untouched
    (quick_status k es os ;;
     last' <- periodic_stats last ;;
     maintain_interval cycle_start ;;
     ret last').
Proof.
  unfold quick_status, periodic_stats, maintain_interval. untouched_steps.
Qed.

(** ** The inserters in closed form *)

Lemma insert_events_closed events w :
  events <> [] ->
  let q := events_sql ++ Py.join ", " (map event_values events) in
  let ok := (reply_text (sink (env w) (posts w) q) =? "")%string in
  let w' := snd (insert_events events w) in
  fst (insert_events events w) = Val ok /\
  posted (trace w') = Posted q :: posted (trace w) /\
  self w' = (if ok
             then add_events_inserted (Z.of_nat (List.length events)) (self w)
             else self w).
Proof.
  intros Hne. cbv zeta.
  destruct events as [| e rest]; [contradiction |].
  set (q := (events_sql ++ Py.join ", " (map event_values (e :: rest)))%string).
  destruct (execute_query_closed q w) as (Hv & Hp & _ & Hself & _).
  apply fst_Val in Hv.
  set (w1 := snd (execute_query q w)) in *.
  change (insert_events (e :: rest))
    with (result <- execute_query q ;;
          (if (result =? "")%string
           then s <- get_self ;;
                put_self (add_events_inserted (Z.of_nat (List.length (e :: rest))) s)
           else ret tt) ;;
          ret (result =? "")%string).
  rewrite (bind_Val _ _ _ _ _ Hv).
  destruct (reply_text (sink (env w) (posts w) q) =? "")%string;
    cbn; rewrite ?Hself; repeat split; exact Hp.
Qed.

Lemma insert_orders_closed orders w :
  orders <> [] ->
  let q := orders_sql ++ Py.join ", " (map order_values orders) in
  let ok := (reply_text (sink (env w) (posts w) q) =? "")%string in
  let w' := snd (insert_orders orders w) in
  fst (insert_orders orders w) = Val ok /\
  posted (trace w') = Posted q :: posted (trace w) /\
  self w' = (if ok
             then add_orders_inserted (Z.of_nat (List.length orders)) (self w)
             else self w).
Proof.
  intros Hne. cbv zeta.
  destruct orders as [| o rest]; [contradiction |].
  set (q := (orders_sql ++ Py.join ", " (map order_values (o :: rest)))%string).
  destruct (execute_query_closed q w) as (Hv & Hp & _ & Hself & _).
  apply fst_Val in Hv.
  set (w1 := snd (execute_query q w)) in *.
  change (insert_orders (o :: rest))
    with (result <- execute_query q ;;
          (if (result =? "")%string
           then s <- get_self ;;
                put_self (add_orders_inserted (Z.of_nat (List.length (o :: rest))) s)
           else ret tt) ;;
          ret (result =? "")%string).
  rewrite (bind_Val _ _ _ _ _ Hv).
  destruct (reply_text (sink (env w) (posts w) q) =? "")%string;
    cbn; rewrite ?Hself; repeat split; exact Hp.
Qed.

(** X7. An inserter puts the whole batch into one statement and posts it exactly
    once, whatever the answer (no retry, no splitting); it returns true
    exactly when the answer stands for the empty text, and then adds the
    size of the batch to its counter, touching nothing else of the
    streamer object. For an empty batch it returns true and does nothing at
    all. *)
Theorem insert_is_one_statement :
  (forall w, insert_events [] w = (Val true, w) /\
             insert_orders [] w = (Val true, w)) /\
  (forall events w,
     events <> [] ->
     let q := events_sql ++ Py.join ", " (map event_values events) in
     let ok := (reply_text (sink (env w) (posts w) q) =? "")%string in
     let w' := snd (insert_events events w) in
     fst (insert_events events w) = Val ok /\
     posted (trace w') = Posted q :: posted (trace w) /\
     self w' = (if ok
                then add_events_inserted (Z.of_nat (List.length events)) (self w)
                else self w)) /\
  (forall orders w,
     orders <> [] ->
     let q := orders_sql ++ Py.join ", " (map order_values orders) in
     let ok := (reply_text (sink (env w) (posts w) q) =? "")%string in
     let w' := snd (insert_orders orders w) in
     fst (insert_orders orders w) = Val ok /\
     posted (trace w') = Posted q :: posted (trace w) /\
     self w' = (if ok
                then add_orders_inserted (Z.of_nat (List.length orders)) (self w)
                else self w)).
Proof.
  split; [intro w; split; reflexivity |].
  split; [exact insert_events_closed | exact insert_orders_closed].
Qed.

Lemma insert_is_one_statement_sample :
  sample_events_0 <> [] /\ sample_orders_0 <> [] /\
  fst (insert_events sample_events_0 sample_world) = Val true /\
  fst (insert_orders sample_orders_0 (world_of (env_with_sink chatty_sink)))
    = Val false.
Proof.
  assert (He : sample_events_0 <> []) by discriminate.
  assert (Ho : sample_orders_0 <> []) by discriminate.
  destruct insert_is_one_statement as (_ & Hev & Hord).
  split; [exact He |]. split; [exact Ho |]. split.
  - rewrite (proj1 (Hev sample_events_0 sample_world He)). reflexivity.
  - rewrite (proj1 (Hord sample_orders_0 (world_of (env_with_sink chatty_sink)) Ho)).
    reflexivity.
Defined.

(** ** Accounting for batches *)

Lemma accounted_refl w : accounted w w.
Proof.
  unfold accounted. repeat split; auto.
  exists 0%nat, 0%nat, 0%nat. repeat split; unfold BATCH_SIZE_EVENTS, BATCH_SIZE_ORDERS; lia.
Qed.

Lemma accounted_trans w1 w2 w3 :
  accounted w1 w2 -> accounted w2 w3 -> accounted w1 w3.
Proof.
  intros (E1 & S1 & T1 & R1 & c1 & n1 & m1 & C1 & N1 & M1 & Ev1 & Or1)
         (E2 & S2 & T2 & R2 & c2 & n2 & m2 & C2 & N2 & M2 & Ev2 & Or2).
  unfold accounted. repeat split; try congruence; auto.
  exists (c1 + c2)%nat, (n1 + n2)%nat, (m1 + m2)%nat.
  unfold BATCH_SIZE_EVENTS, BATCH_SIZE_ORDERS in *.
  repeat split; lia.
Qed.

(** An operation that leaves the object alone and begins no turn is
    accounted for. *)
Lemma accounts_quiet {A} rnd (m : M A) :
  untouched m -> keeps sel_cycle rnd m -> accounts m.
Proof.
  intros Hu Hk w. destruct (Hk w) as [F _]. specialize (Hu w).
  pose proof (frame_env _ _ _ _ F) as E. apply frame_count in F.
  unfold accounted. rewrite Hu. repeat split; auto.
  exists 0%nat, 0%nat, 0%nat. unfold cycles_begun. rewrite F.
  unfold BATCH_SIZE_EVENTS, BATCH_SIZE_ORDERS. repeat split; lia.
Qed.

Lemma accounts_ret {A} (a : A) : accounts (ret a).
Proof. intro w. apply accounted_refl. Qed.

Lemma accounts_bind {A B} (m : M A) (f : A -> M B) :
  accounts m -> (forall a, accounts (f a)) -> accounts (bind m f).
Proof.
  intros Hm Hf w. specialize (Hm w). unfold bind.
  destruct (m w) as [[a | e | ] w1]; simpl in *; try exact Hm.
  eapply accounted_trans; [exact Hm | apply Hf].
Qed.

Lemma accounts_if {A} (b : bool) (m1 m2 : M A) :
  accounts m1 -> accounts m2 -> accounts (if b then m1 else m2).
Proof. destruct b; auto. Qed.

Lemma accounts_try_except {A} (body : M A) handler :
  accounts body -> (forall e, accounts (handler e)) ->
  accounts (try_except body handler).
Proof.
  intros Hb Hh w. specialize (Hb w). unfold try_except.
  destruct (body w) as [[a | e | ] w1]; simpl in *; try exact Hb.
  destruct (is_Exception e); [| exact Hb].
  eapply accounted_trans; [exact Hb | apply Hh].
Qed.

Lemma accounts_try_finally {A} (body : M A) final :
  accounts body -> accounts final -> accounts (try_finally body final).
Proof.
  intros Hb Hf w. specialize (Hb w). unfold try_finally.
  destruct (body w) as [[a | e | ] w1]; simpl in *; try exact Hb.
  - eapply accounted_trans; [exact Hb |].
    apply (accounts_bind final (fun _ => ret a)); [exact Hf |].
    intros _. apply accounts_ret.
  - eapply accounted_trans; [exact Hb |].
    apply (accounts_bind final (fun _ => raise e)); [exact Hf |].
    intros _ w2. apply accounted_refl.
Qed.

Lemma accounts_print m : accounts (print m).
Proof.
  intro w. unfold accounted; simpl. repeat split; auto.
  exists 0%nat, 0%nat, 0%nat. unfold cycles_begun, count_posted; simpl.
  unfold BATCH_SIZE_EVENTS, BATCH_SIZE_ORDERS. repeat split; lia.
Qed.

Lemma accounts_time_time : accounts time_time.
Proof.
  apply (accounts_quiet false); [apply untouched_time_time | apply keeps_time_time].
Qed.

Lemma accounts_get_table_count table : accounts (get_table_count table).
Proof.
  apply (accounts_quiet false); [apply untouched_get_table_count |].
  apply keeps_get_table_count; reflexivity.
Qed.

Lemma accounts_show_throughput_stats : accounts show_throughput_stats.
Proof.
  apply (accounts_quiet false); [apply untouched_show_throughput_stats |].
  apply keeps_show_throughput_stats; reflexivity.
Qed.

(** The handler clears the flag and nothing else. *)
Lemma accounts_deliver_signals stage : accounts (deliver_signals stage).
Proof.
  intro w. unfold deliver_signals.
  destruct (signals (env w) stage); [| apply accounted_refl].
  unfold accounted; simpl. repeat split; auto.
  exists 0%nat, 0%nat, 0%nat. unfold cycles_begun, count_posted; simpl.
  unfold BATCH_SIZE_EVENTS, BATCH_SIZE_ORDERS. repeat split; lia.
Qed.

Lemma generate_data_lengths k uc pc me mo w data w' :
  generate_data k uc pc me mo w = (Val data, w') ->
  Z.of_nat (List.length (fst data)) = BATCH_SIZE_EVENTS /\
  Z.of_nat (List.length (snd data)) = BATCH_SIZE_ORDERS.
Proof.
  unfold generate_data. intro H.
  step H events w1 He. step H orders w2 Ho. inversion H; subst; simpl.
  apply generate_events_batch_inv, for_append_length in He.
  apply generate_orders_batch_inv, for_append_length in Ho.
  rewrite range_length in He, Ho. rewrite He, Ho. split; reflexivity.
Qed.

(** The two inserts of a turn, run one after the other: each adds its batch
    or nothing to its counter, and nothing else of the object changes. *)
Lemma insert_in_parallel_self events orders w :
  events <> [] -> orders <> [] ->
  exists b1 b2 w',
    insert_in_parallel events orders w = (Val (b1, b2), w') /\
    self w' =
      (if b2 then add_orders_inserted (Z.of_nat (List.length orders)) else id)
        ((if b1 then add_events_inserted (Z.of_nat (List.length events)) else id)
           (self w)).
Proof.
  intros He Ho.
  destruct (insert_events_closed events w He) as (V1 & _ & S1).
  apply fst_Val in V1.
  destruct (insert_orders_closed orders (snd (insert_events events w)) Ho)
    as (V2 & _ & S2).
  apply fst_Val in V2.
  eexists _, _, _. unfold insert_in_parallel.
  rewrite (bind_Val _ _ _ _ _ V1), (bind_Val _ _ _ _ _ V2).
  split; [reflexivity |]. rewrite S2, S1.
  repeat match goal with |- context [if ?b then _ else _] => destruct b end;
    reflexivity.
Qed.

(** What a turn does to the streamer object, however it ends: at most one
    batch is added to each counter, and nothing else changes. *)
Lemma cycle_self k uc pc last w r w' :
  cycle k uc pc last w = (r, w') ->
  exists b1 b2 : bool,
    self w' =
      (if b2 then add_orders_inserted (Z.of_nat (Z.to_nat BATCH_SIZE_ORDERS)) else id)
        ((if b1 then add_events_inserted (Z.of_nat (Z.to_nat BATCH_SIZE_EVENTS)) else id)
           (self w)).
Proof.
  unfold cycle. intro H.
  apply bind_cases in H as [(cs & w1 & H1 & H) | Hw].
  2: { subst w'. exists false, false. reflexivity. }
  inversion H1; subst cs w1; clear H1.
  pose proof (untouched_current_max_ids (next_tick w)) as U2.
  apply bind_cases in H as [(ids & w2 & H2 & H) | Hw].
  2: { rewrite Hw in U2. exists false, false. exact U2. }
  rewrite H2 in U2. simpl in U2.
  pose proof (untouched_generate_data k uc pc (fst ids) (snd ids) w2) as U3.
  apply bind_cases in H as [(data & w3 & H3 & H) | Hw].
  2: { rewrite Hw in U3. exists false, false. unfold id. rewrite U3, U2. reflexivity. }
  rewrite H3 in U3. simpl in U3.
  destruct (generate_data_lengths _ _ _ _ _ _ _ _ H3) as [Le Lo].
  apply generate_data_nonempty in H3 as [Hne Hno].
  destruct (insert_in_parallel_self (fst data) (snd data) w3 Hne Hno)
    as (b1 & b2 & w4 & Hins & S4).
  rewrite (bind_Val _ _ _ _ _ Hins) in H.
  pose proof (untouched_after_inserts k (fst (b1, b2)) (snd (b1, b2)) last
                (clock (env w) (ticks w) # 1000000)%Q w4) as U5.
  rewrite H in U5. simpl snd in U5.
  exists b1, b2. rewrite U5, S4, U3, U2.
  rewrite Le, Lo. reflexivity.
Qed.

Lemma accounts_cycle k uc pc last : accounts (cycle k uc pc last).
Proof.
  intro w.
  destruct (cycle_self k uc pc last w _ _ (surjective_pairing _)) as (b1 & b2 & Hs).
  pose proof (proj1 (keeps_cycle_stopped k uc pc last w)) as F.
  apply frame_env in F.
  pose proof (cycle_begins_once k uc pc last w) as C.
  unfold accounted. rewrite Hs. split; [exact F |].
  split; [destruct b1, b2; reflexivity |].
  split; [destruct b1, b2; reflexivity |].
  split; [destruct b1, b2; simpl; auto |].
  exists 1%nat, (if b1 then 1 else 0)%nat, (if b2 then 1 else 0)%nat.
  split; [lia |].
  change (Z.of_nat (Z.to_nat BATCH_SIZE_EVENTS)) with 100.
  change (Z.of_nat (Z.to_nat BATCH_SIZE_ORDERS)) with 20.
  unfold BATCH_SIZE_EVENTS, BATCH_SIZE_ORDERS.
  destruct b1, b2;
    cbn [add_orders_inserted add_events_inserted total_events_inserted
         total_orders_inserted id Z.of_nat];
    unfold id; repeat split; lia.
Qed.

Lemma accounts_streaming_loop uc pc :
  forall fuel j last, accounts (streaming_loop fuel j uc pc last).
Proof.
  induction fuel as [| fuel IH]; intros j last; cbn [streaming_loop].
  - apply accounts_bind; [apply (accounts_quiet false);
                          [apply untouched_get_self | apply keeps_get_self] |].
    intro s. apply accounts_if; [| apply accounts_ret].
    intro w. apply accounted_refl.
  - apply accounts_bind; [apply (accounts_quiet false);
                          [apply untouched_get_self | apply keeps_get_self] |].
    intro s. apply accounts_if; [| apply accounts_ret].
    apply accounts_bind; [apply accounts_cycle |]. intro last'.
    apply accounts_bind; [apply accounts_deliver_signals |]. intros _.
    apply IH.
Qed.

(** X8. Over any stretch of a run, finished or not, the streamer object is
    accounted for: [session_counter] and [start_time] never change, a
    cleared [running] flag is never set again, and the counters have grown
    by whole batches of 100 events and 20 orders, at most one of each for
    every turn of the loop that has begun. *)
Theorem run_accounts_for_batches fuel w : accounted w (snd (run fuel w)).
Proof.
  revert w. change (accounts (run fuel)). unfold run.
  apply accounts_try_finally.
  - apply accounts_try_except; [| intro e; apply accounts_print].
    unfold run_try, get_user_count, get_product_count.
    apply accounts_bind; [apply accounts_get_table_count |]. intro uc.
    apply accounts_bind; [apply accounts_get_table_count |]. intro pc.
    apply accounts_if; [apply accounts_print |].
    apply accounts_bind; [apply accounts_print |]. intros _.
    apply accounts_bind; [apply accounts_print |]. intros _.
    apply accounts_bind; [apply accounts_time_time |]. intro last.
    apply accounts_bind; [apply accounts_deliver_signals |]. intros _.
    apply accounts_streaming_loop.
  - unfold run_finally.
    apply accounts_bind; [apply accounts_print |]. intros _.
    apply accounts_show_throughput_stats.
Qed.

(** ** How the loop and the run can end *)

Lemma cycle_keeps_running k uc pc last w r w' :
  cycle k uc pc last w = (r, w') -> running (self w') = running (self w).
Proof.
  intro H. destruct (cycle_self _ _ _ _ _ _ _ H) as (b1 & b2 & Hs).
  rewrite Hs. destruct b1, b2; reflexivity.
Qed.

Lemma deliver_signals_none stage w :
  signals (env w) stage = None -> deliver_signals stage w = (Val tt, w).
Proof. intro H. unfold deliver_signals. rewrite H. reflexivity. Qed.

Lemma streaming_loop_unsignalled uc pc :
  forall fuel j last w r w',
    streaming_loop fuel j uc pc last w = (r, w') ->
    (forall n, signals (env w) n = None) ->
    running (self w) = true ->
    match r with
    | Val _ => False
    | Exc e => is_Exception e = true
    | Unfinished => cycles_begun w' = (cycles_begun w + fuel)%nat
    end.
Proof.
  induction fuel as [| fuel IH]; intros j last w r w' H Hsig Hrun;
    cbn [streaming_loop] in H; unfold bind at 1 in H; unfold get_self at 1 in H;
    rewrite Hrun in H.
  - inversion H; subst. lia.
  - unfold bind at 1 in H.
    destruct (keeps_cycle_stopped j uc pc last w) as [F T].
    pose proof (cycle_begins_once j uc pc last w) as C.
    destruct (cycle j uc pc last w) as [[last' | e | ] w1] eqn:Ec;
      simpl in F, T, C.
    + apply frame_env in F.
      rewrite (bind_Val _ _ _ _ _ (deliver_signals_none (S j) w1
                                     ltac:(rewrite F; apply Hsig))) in H.
      assert (Hsig1 : forall n, signals (env w1) n = None)
        by (intro n; rewrite F; apply Hsig).
      assert (Hrun1 : running (self w1) = true)
        by (rewrite (cycle_keeps_running _ _ _ _ _ _ _ Ec); exact Hrun).
      specialize (IH (S j) last' w1 r w' H Hsig1 Hrun1).
      destruct r; try exact IH. lia.
    + inversion H; subst. exact T.
    + contradiction.
Qed.

(** X9. The loop does not end by itself: as long as no signal arrives, a loop
    entered with [running] set never returns; either a turn raises, or every
    one of the turns it is given is taken and it is still running. *)
Theorem loop_needs_a_signal fuel j uc pc last w :
  (forall n, signals (env w) n = None) ->
  running (self w) = true ->
  match fst (streaming_loop fuel j uc pc last w) with
  | Val _ => False
  | Exc e => is_Exception e = true
  | Unfinished =>
      cycles_begun (snd (streaming_loop fuel j uc pc last w))
      = (cycles_begun w + fuel)%nat
  end.
Proof.
  intros Hsig Hrun.
  apply (streaming_loop_unsignalled uc pc fuel j last w _ _
           (surjective_pairing _) Hsig Hrun).
Qed.

(** Two turns on the sample world, on which no signal ever arrives. *)
Lemma loop_needs_a_signal_sample :
  (forall n, signals (env sample_world) n = None) /\
  running (self sample_world) = true /\
  fst (streaming_loop 2 0 3 7 (seconds 1700000000000000) sample_world)
    = Unfinished /\
  cycles_begun (snd (streaming_loop 2 0 3 7 (seconds 1700000000000000) sample_world))
    = 2%nat.
Proof.
  assert (Hsig : forall n, signals (env sample_world) n = None)
    by (intro n; reflexivity).
  assert (Hrun : running (self sample_world) = true) by reflexivity.
  split; [exact Hsig |]. split; [exact Hrun |].
  pose proof (loop_needs_a_signal 2 0 3 7 (seconds 1700000000000000) sample_world
                Hsig Hrun) as H.
  assert (E : fst (streaming_loop 2 0 3 7 (seconds 1700000000000000) sample_world)
              = Unfinished) by (vm_compute; reflexivity).
  rewrite E in H. split; [exact E | exact H].
Defined.

Lemma streaming_loop_contained uc pc :
  forall fuel j last w r w',
    streaming_loop fuel j uc pc last w = (r, w') ->
    stopped_count (trace w') = stopped_count (trace w) /\
    (r = Unfinished \/ tame r).
Proof.
  induction fuel as [| fuel IH]; intros j last w r w' H;
    cbn [streaming_loop] in H; unfold bind at 1 in H; unfold get_self at 1 in H;
    destruct (running (self w)).
  - inversion H; subst. auto.
  - inversion H; subst. split; [reflexivity | right; exact Logic.I].
  - unfold bind at 1 in H.
    destruct (calm_cycle j uc pc last w) as [Cc Tc].
    destruct (cycle j uc pc last w) as [[last' | e | ] w1]; simpl in Cc, Tc.
    + unfold bind at 1 in H.
      pose proof (calm_deliver_signals (S j) w1) as Cd.
      pose proof (deliver_signals_run (S j) w1) as Vd.
      destruct (deliver_signals (S j) w1) as [rd w2]. simpl in Cd, Vd. subst rd.
      destruct (IH _ _ _ _ _ H) as [Hs Hr]. split; [| exact Hr].
      rewrite Hs, (calm_stopped _ _ _ Cd), (calm_stopped _ _ _ Cc). reflexivity.
    + inversion H; subst. split; [apply (calm_stopped _ _ _ Cc) | right; exact Tc].
    + contradiction.
  - inversion H; subst. split; [reflexivity | right; exact Logic.I].
Qed.

Lemma run_try_contained fuel w rb wb :
  run_try fuel w = (rb, wb) ->
  stopped_count (trace wb) = stopped_count (trace w) /\
  (rb = Unfinished \/ tame rb).
Proof.
  intro H.
  destruct (run_try_cases _ _ _ _ H)
    as (uc & pc & w1 & w2 & Hu & Hp & [(_ & -> & ->) | (_ & _ & Hloop)]);
    pose proof (calm_get_table_count "users" w) as C1;
    pose proof (calm_get_table_count "products" w1) as C2;
    unfold get_user_count in Hu; unfold get_product_count in Hp;
    rewrite Hu in C1; rewrite Hp in C2; simpl in C1, C2.
  - split; [| right; exact Logic.I].
    change (stopped_count (trace (with_effect (Printed NoUsersOrProducts) w2)))
      with (stopped_count (trace w2)).
    rewrite (calm_stopped _ _ _ C2), (calm_stopped _ _ _ C1). reflexivity.
  - destruct Hloop as (last & w4 & w5 & C4 & _ & Hd & Hl).
    pose proof (calm_deliver_signals 0 w4) as C5.
    rewrite Hd in C5. simpl in C5.
    destruct (streaming_loop_contained _ _ _ _ _ _ _ _ Hl) as [Hs Hr].
    split; [| exact Hr].
    rewrite Hs, (calm_stopped _ _ _ C5), (calm_stopped _ _ _ C4),
      (calm_stopped _ _ _ C2), (calm_stopped _ _ _ C1). reflexivity.
Qed.

(** X10. [run] never raises: when it returns, it returns normally, whatever went
    wrong inside (a caught exception is reported), and its final block has
    then run exactly once; a run that is still going has not run it. *)
Theorem run_never_raises fuel w :
  match fst (run fuel w) with
  | Val _ => stopped_count (trace (snd (run fuel w))) = S (stopped_count (trace w))
  | Exc _ => False
  | Unfinished => stopped_count (trace (snd (run fuel w))) = stopped_count (trace w)
  end.
Proof.
  destruct (run_try fuel w) as [rb wb] eqn:Hb.
  destruct (run_try_contained _ _ _ _ Hb) as [Hs [-> | T]].
  - unfold run, try_finally, try_except. rewrite Hb. simpl. exact Hs.
  - destruct (run_after_try _ _ _ _ Hb T) as (wh & w' & Ch & _ & Hf & Hrun).
    rewrite Hrun. simpl.
    destruct (run_finally_run wh) as (w'' & Hf' & _ & _ & _ & _ & _ & Hst).
    rewrite Hf in Hf'. inversion Hf'; subst w''.
    rewrite Hst, (calm_stopped _ _ _ Ch), Hs. reflexivity.
Qed.

(** ** What can make a turn raise *)

Lemma int_or_0_closed o w :
  int_or_0 (reply_text o) w =
  (if scalar_ok o then Val (reply_count o)
   else Exc (ValueError "invalid literal for int() with base 10"), w).
Proof.
  unfold int_or_0, scalar_ok, reply_count, int_of_str.
  destruct (Py.truthy (reply_text o)) eqn:Et.
  - destruct (Py.int (reply_text o)); reflexivity.
  - rewrite (truthy_false _ Et). reflexivity.
Qed.

Lemma execute_query_next q w :
  exists w', execute_query q w = (Val (reply_text (sink (env w) (posts w) q)), w') /\
             env w' = env w /\ posts w' = S (posts w).
Proof.
  destruct (execute_query_run q w) as (s & w' & Hq & _ & He & _).
  destruct (execute_query_closed q w) as (Hv & _ & _ & _ & Hp & _).
  rewrite Hq in Hv, Hp. simpl in Hv, Hp. inversion Hv; subst s.
  exists w'. auto.
Qed.

Lemma current_max_ids_closed w :
  let o1 := sink (env w) (posts w) "SELECT max(event_id) FROM events" in
  let o2 := sink (env w) (S (posts w)) "SELECT max(order_id) FROM orders" in
  if scalar_ok o1 && scalar_ok o2
  then fst (current_max_ids w) = Val (reply_count o1, reply_count o2)
  else exists msg, fst (current_max_ids w) = Exc (ValueError msg).
Proof.
  cbv zeta. unfold current_max_ids.
  destruct (execute_query_next "SELECT max(event_id) FROM events" w)
    as (w1 & H1 & E1 & P1).
  rewrite (bind_Val _ _ _ _ _ H1).
  destruct (scalar_ok (sink (env w) (posts w) "SELECT max(event_id) FROM events"))
    eqn:O1; cbn [andb].
  - rewrite (bind_Val _ _ _ _ _ (eq_trans (int_or_0_closed _ w1)
                                   ltac:(rewrite O1; reflexivity))).
    destruct (execute_query_next "SELECT max(order_id) FROM orders" w1)
      as (w2 & H2 & _ & _).
    rewrite E1, P1 in H2.
    rewrite (bind_Val _ _ _ _ _ H2).
    destruct (scalar_ok (sink (env w) (S (posts w)) "SELECT max(order_id) FROM orders"))
      eqn:O2.
    + rewrite (bind_Val _ _ _ _ _ (eq_trans (int_or_0_closed _ w2)
                                     ltac:(rewrite O2; reflexivity))).
      reflexivity.
    + eexists.
      rewrite (bind_Exc _ _ _ _ _ (eq_trans (int_or_0_closed _ w2)
                                     ltac:(rewrite O2; reflexivity))).
      reflexivity.
  - eexists.
    rewrite (bind_Exc _ _ _ _ _ (eq_trans (int_or_0_closed _ w1)
                                   ltac:(rewrite O1; reflexivity))).
    reflexivity.
Qed.

Lemma generate_data_Val k uc pc me mo w :
  1 <= uc -> 1 <= pc -> exists data, fst (generate_data k uc pc me mo w) = Val data.
Proof.
  intros Huc Hpc. unfold generate_data.
  destruct (generate_events_batch_total (Z.of_nat k) uc me w Huc) as (evs & He & _).
  apply fst_Val in He. rewrite (bind_Val _ _ _ _ _ He).
  destruct (generate_orders_batch_total (Z.of_nat k) uc pc mo
              (snd (generate_events_batch (Z.of_nat k) uc me w)) Huc Hpc)
    as (ords & Ho & _).
  apply fst_Val in Ho. rewrite (bind_Val _ _ _ _ _ Ho).
  eexists; reflexivity.
Qed.

Lemma cycle_outcome k uc pc last w :
  1 <= uc -> 1 <= pc ->
  let o1 := sink (env w) (posts w) "SELECT max(event_id) FROM events" in
  let o2 := sink (env w) (S (posts w)) "SELECT max(order_id) FROM orders" in
  if scalar_ok o1 && scalar_ok o2
  then exists last', fst (cycle k uc pc last w) = Val last'
  else exists msg, fst (cycle k uc pc last w) = Exc (ValueError msg).
Proof.
  intros Huc Hpc. cbv zeta.
  pose proof (current_max_ids_closed (next_tick w)) as Hids. cbv zeta in Hids.
  change (env (next_tick w)) with (env w) in Hids.
  change (posts (next_tick w)) with (posts w) in Hids.
  unfold cycle. rewrite (bind_Val time_time _ w _ _ eq_refl).
  destruct (scalar_ok _ && scalar_ok _).
  - apply fst_Val in Hids. rewrite (bind_Val _ _ _ _ _ Hids).
    set (w2 := snd (current_max_ids (next_tick w))).
    destruct (generate_data_Val k uc pc
                (fst (reply_count (sink (env w) (posts w) "SELECT max(event_id) FROM events"),
                      reply_count (sink (env w) (S (posts w)) "SELECT max(order_id) FROM orders")))
                (snd (reply_count (sink (env w) (posts w) "SELECT max(event_id) FROM events"),
                      reply_count (sink (env w) (S (posts w)) "SELECT max(order_id) FROM orders")))
                w2 Huc Hpc) as (data & Hd).
    apply fst_Val in Hd. rewrite (bind_Val _ _ _ _ _ Hd).
    destruct (generate_data_nonempty _ _ _ _ _ _ _ _ Hd) as [Hne Hno].
    set (w3 := snd (generate_data _ _ _ _ _ w2)).
    destruct (insert_in_parallel_run (fst data) (snd data) w3 Hne Hno)
      as (success & w4 & Hins & _).
    rewrite (bind_Val _ _ _ _ _ Hins).
    apply after_inserts_Val.
  - destruct Hids as (msg & Hids). exists msg.
    destruct (current_max_ids (next_tick w)) as [r w2] eqn:E. simpl in Hids. subst r.
    rewrite (bind_Exc _ _ _ _ _ E). reflexivity.
Qed.

(** X11. With users and products present, the only thing that can make a turn of
    the loop raise is the answer to one of its two maximum-id queries: the
    turn completes exactly when both answers are empty or a number, and
    raises [ValueError] otherwise. Failing requests (which read as the empty
    answer), failing inserts, the statistics and the pacing never do. *)
Theorem cycle_raises_only_on_max_id k uc pc last w :
  1 <= uc -> 1 <= pc ->
  let o1 := sink (env w) (posts w) "SELECT max(event_id) FROM events" in
  let o2 := sink (env w) (S (posts w)) "SELECT max(order_id) FROM orders" in
  if scalar_ok o1 && scalar_ok o2
  then exists last', fst (cycle k uc pc last w) = Val last'
  else exists msg, fst (cycle k uc pc last w) = Exc (ValueError msg).
Proof. exact (cycle_outcome k uc pc last w). Qed.

(** A turn on the sample world, whose sink answers both queries with a
    number, and one on a world whose sink answers the first with [abc]. *)
Lemma cycle_raises_only_on_max_id_sample :
  (1 <= 3 /\ 1 <= 7) /\
  (exists last', fst (cycle 0 3 7 0%Q sample_world) = Val last') /\
  (exists msg, fst (cycle 0 3 7 0%Q (world_of (env_with_sink garbled_sink)))
               = Exc (ValueError msg)).
Proof.
  assert (H3 : 1 <= 3) by lia. assert (H7 : 1 <= 7) by lia.
  split; [split; assumption |]. split.
  - pose proof (cycle_raises_only_on_max_id 0 3 7 0%Q sample_world H3 H7) as H.
    cbv zeta in H.
    assert (E : scalar_ok (sink (env sample_world) (posts sample_world)
                             "SELECT max(event_id) FROM events")
                && scalar_ok (sink (env sample_world) (S (posts sample_world))
                                "SELECT max(order_id) FROM orders") = true)
      by (vm_compute; reflexivity).
    rewrite E in H. exact H.
  - pose proof (cycle_raises_only_on_max_id 0 3 7 0%Q
                  (world_of (env_with_sink garbled_sink)) H3 H7) as H.
    cbv zeta in H.
    assert (E : scalar_ok (sink (env (world_of (env_with_sink garbled_sink)))
                             (posts (world_of (env_with_sink garbled_sink)))
                             "SELECT max(event_id) FROM events")
                && scalar_ok (sink (env (world_of (env_with_sink garbled_sink)))
                                (S (posts (world_of (env_with_sink garbled_sink))))
                                "SELECT max(order_id) FROM orders") = false)
      by (vm_compute; reflexivity).
    rewrite E in H. exact H.
Defined.

(** ** The statistics block, from outside *)

